(** * Pulse netcode: packet codec, reliability layer, host and client

    A shallow embedding of [include/net_common.hpp], [include/net_host.hpp]
    and [include/net_client.hpp], and the properties of the protocol core
    proved (or refuted) over it.

    Conventions of the embedding:
    - [uint8_t], [uint16_t] and [uint32_t] values are [Z] with the
      wrap-around of the C++ type written out where an operation can
      leave the range;
    - [size_t] cursors and ring indices are [nat];
    - a [float] is its IEEE-754 binary32 bit pattern (what [memcpy] moves
      into a [uint32_t] in [writeFloat]); arithmetic decodes the pattern,
      computes with the Standard Library's [SpecFloat] at precision 24 and
      re-encodes;
    - [std::unordered_map<uint32_t, T>] is [gmap Z T];
    - the socket is a list of pending datagrams on the way in and a log of
      sent datagrams on the way out; callbacks are an event log; the
      steady clock is a reading supplied by the environment. *)

From Stdlib Require Import ZArith Lia Bool List.
From Stdlib Require Import Floats.SpecFloat.
From stdpp Require Import base gmap list sorting.
From coqutil Require Import Datatypes.RecordSetters.
Import DoubleBraceUpdate.
Local Open Scope Z_scope.

(* Record updates [r{{ f := v }}] unfold under [cbn]. *)
Arguments constant {E} newValue _ /.

(** ** Fixed-width integers *)

Definition wrap8 (x : Z) : Z := x mod 2 ^ 8.
Definition wrap16 (x : Z) : Z := x mod 2 ^ 16.
Definition wrap32 (x : Z) : Z := x mod 2 ^ 32.

Definition is_u8 (x : Z) : Prop := 0 <= x < 2 ^ 8.
Definition is_u16 (x : Z) : Prop := 0 <= x < 2 ^ 16.
Definition is_u32 (x : Z) : Prop := 0 <= x < 2 ^ 32.

(** ** binary32 floats *)

Module F32.
Definition prec : Z := 24.
Definition emax : Z := 128.

(** The bit pattern of a [float]. *)
Definition float : Type := Z.

Definition sign_bit (s : bool) : Z := if s then 2 ^ 31 else 0.

Definition to_SF (b : float) : spec_float :=
  let s := Z.testbit b 31 in
  let e := Z.land (Z.shiftr b 23) 255 in
  let m := Z.land b (2 ^ 23 - 1) in
  if e =? 0 then
    if m =? 0 then S754_zero s else S754_finite s (Z.to_pos m) (-149)
  else if e =? 255 then
    if m =? 0 then S754_infinity s else S754_nan
  else S754_finite s (Z.to_pos (m + 2 ^ 23)) (e - 150).

(** Encoding of a canonical binary32 value; NaN is the quiet NaN
    [0x7FC00000]. *)
Definition of_SF (f : spec_float) : float :=
  match f with
  | S754_zero s => sign_bit s
  | S754_infinity s => sign_bit s + 255 * 2 ^ 23
  | S754_nan => 0x7FC00000
  | S754_finite s m e =>
      if Z.pos m <? 2 ^ 23 then sign_bit s + Z.pos m
      else sign_bit s + (e + 150) * 2 ^ 23 + (Z.pos m - 2 ^ 23)
  end.

Definition add (a b : float) : float := of_SF (SFadd prec emax (to_SF a) (to_SF b)).
Definition sub (a b : float) : float := of_SF (SFsub prec emax (to_SF a) (to_SF b)).
Definition mul (a b : float) : float := of_SF (SFmul prec emax (to_SF a) (to_SF b)).
Definition div (a b : float) : float := of_SF (SFdiv prec emax (to_SF a) (to_SF b)).
Definition sqrtf (a : float) : float := of_SF (SFsqrt prec emax (to_SF a)).
Definition ltb (a b : float) : bool := SFltb (to_SF a) (to_SF b).
Definition leb (a b : float) : bool := SFleb (to_SF a) (to_SF b).

(** [(float)n] for an integer [n]. *)
Definition of_Z (n : Z) : float := of_SF (binary_normalize prec emax n 0 false).

(** [std::min(a, b)] is [(b < a) ? b : a]; [std::max(a, b)] is
    [(a < b) ? b : a]. *)
Definition min (a b : float) : float := if ltb b a then b else a.
Definition max (a b : float) : float := if ltb a b then b else a.

(** *** The part of the computation done in [double]

    [input.yaw * M_PI / 180.0f] multiplies a [float] by the [double]
    constant [M_PI], so the product and the quotient are binary64 and the
    result is rounded to binary32 when it is stored in [float yawRad]. *)
Definition dprec : Z := 53.
Definition demax : Z := 1024.

Definition widen (f : spec_float) : spec_float :=
  match f with
  | S754_finite s m e => binary_round dprec demax s m e
  | _ => f
  end.

Definition narrow (d : spec_float) : spec_float :=
  match d with
  | S754_finite s m e => binary_round prec emax s m e
  | _ => d
  end.

(** [M_PI] of <cmath>: the binary64 number nearest to pi,
    [0x400921FB54442D18]. *)
Definition M_PI : spec_float := S754_finite false 7074237752028440 (-51).

Definition zero : float := 0.
Definition one : float := Eval vm_compute in of_Z 1.
Definition c5 : float := Eval vm_compute in of_Z 5.
Definition c180 : float := Eval vm_compute in of_Z 180.
Definition c0_01 : float := Eval vm_compute in div (of_Z 1) (of_Z 100).
Definition c0_1 : float := Eval vm_compute in div (of_Z 1) (of_Z 10).
Definition c1_7 : float := Eval vm_compute in div (of_Z 17) (of_Z 10).
Definition c0_5 : float := Eval vm_compute in div (of_Z 1) (of_Z 2).
Definition cm90 : float := Eval vm_compute in of_Z (-90).

(** [yaw * M_PI / 180.0f], stored in a [float]. *)
Definition deg2rad (yaw : float) : float :=
  of_SF (narrow (SFdiv dprec demax
                   (SFmul dprec demax (widen (to_SF yaw)) M_PI)
                   (widen (to_SF c180)))).

(** [(uint32_t)f]: the fractional part is discarded.  The conversion is
    defined for a value whose integer part fits the type; 0 stands for
    the others. *)
Definition to_u32 (f : float) : Z :=
  match to_SF f with
  | S754_finite false m e =>
      if 0 <=? e then Z.pos m * 2 ^ e else Z.pos m / 2 ^ (- e)
  | _ => 0
  end.
End F32.

Abbreviation float := F32.float.

(** [cosf] and [sinf] of <cmath>, which the movement rule calls and the
    repository does not define. *)
Class Libm := { cosf : float -> float; sinf : float -> float }.

(** ** Constants and packet types *)

Definition MAX_PACKET_SIZE : nat := 1400.
Definition INPUT_BUFFER_SIZE : nat := 64.
Definition STATE_BUFFER_SIZE : nat := 128.
Definition TICK_RATE : Z := 60.
Definition SNAPSHOT_RATE : Z := 20.
Definition TICK_INTERVAL : float := Eval vm_compute in F32.div F32.one (F32.of_Z 60).
Definition SNAPSHOT_INTERVAL : float := Eval vm_compute in F32.div F32.one (F32.of_Z 20).
Definition CONNECTION_TIMEOUT : float := Eval vm_compute in F32.of_Z 10.
Definition HEARTBEAT_INTERVAL : float := F32.one.
Definition INTERPOLATION_DELAY : float := F32.c0_1.

(** [enum class PacketType : uint8_t]: a value of the type is any byte
    (the header decoder casts the byte it reads), so the type is the byte
    and the enumerators are constants. *)
Module PacketType.
Definition CONNECT_REQUEST : Z := 0x01.
Definition CONNECT_ACCEPT : Z := 0x02.
Definition CONNECT_REJECT : Z := 0x03.
Definition DISCONNECT : Z := 0x04.
Definition HEARTBEAT : Z := 0x05.
Definition INPUT : Z := 0x10.
Definition STATE_UPDATE : Z := 0x11.
Definition WORLD_SNAPSHOT : Z := 0x12.
Definition ENTITY_CREATE : Z := 0x20.
Definition ENTITY_DESTROY : Z := 0x21.
Definition EVENT_BROADCAST : Z := 0x22.
Definition ACK : Z := 0x30.
Definition RELIABLE_DATA : Z := 0x31.
End PacketType.

(** ** Entity and player state *)

Module Vec3.
Record t := mk { x : float; y : float; z : float }.
Definition zero : t := mk F32.zero F32.zero F32.zero.
Definition add (a o : t) : t := mk (F32.add (x a) (x o)) (F32.add (y a) (y o)) (F32.add (z a) (z o)).
Definition sub (a o : t) : t := mk (F32.sub (x a) (x o)) (F32.sub (y a) (y o)) (F32.sub (z a) (z o)).
Definition scale (a : t) (s : float) : t := mk (F32.mul (x a) s) (F32.mul (y a) s) (F32.mul (z a) s).
Definition lerp (a b : t) (s : float) : t := add a (scale (sub b a) s).
End Vec3.
Abbreviation Vec3 := Vec3.t.

Module PlayerInput.
Record t := mk {
  sequence : Z;
  tick : Z;
  keys : Z;
  yaw : float;
  pitch : float;
  deltaTime : float }.
Definition wf (i : t) : Prop :=
  is_u32 (sequence i) /\ is_u32 (tick i) /\ is_u8 (keys i) /\
  is_u32 (yaw i) /\ is_u32 (pitch i) /\ is_u32 (deltaTime i).
End PlayerInput.
Abbreviation PlayerInput := PlayerInput.t.

Module PlayerState.
Record t := mk {
  playerId : Z;
  tick : Z;
  position : Vec3;
  yaw : float;
  pitch : float;
  lastProcessedInput : Z }.
(** [PlayerState()]: value-initialised. *)
Definition default : t := mk 0 0 Vec3.zero F32.zero F32.zero 0.
Definition wf (s : t) : Prop :=
  is_u32 (playerId s) /\ is_u32 (tick s) /\
  is_u32 (Vec3.x (position s)) /\ is_u32 (Vec3.y (position s)) /\
  is_u32 (Vec3.z (position s)) /\
  is_u32 (yaw s) /\ is_u32 (pitch s) /\ is_u32 (lastProcessedInput s).
End PlayerState.
Abbreviation PlayerState := PlayerState.t.

Module EntityState.
Record t := mk {
  entityId : Z;
  entityType : Z;
  position : Vec3;
  velocity : Vec3;
  yaw : float;
  pitch : float }.
End EntityState.
Abbreviation EntityState := EntityState.t.

(** ** Packet header *)

Module PacketHeader.
Record t := mk {
  magic : list Z;
  type : Z;
  sequence : Z;
  ack : Z;
  ackBits : Z;
  tick : Z;
  payloadSize : Z }.

(** [PacketHeader()]: magic "PULS", type HEARTBEAT, everything else 0. *)
Definition default : t := mk [80; 85; 76; 83] PacketType.HEARTBEAT 0 0 0 0 0.

Definition isValid (h : t) : bool :=
  (magic h !!! 0%nat =? 80) && (magic h !!! 1%nat =? 85) &&
  (magic h !!! 2%nat =? 76) && (magic h !!! 3%nat =? 83).

Definition wf (h : t) : Prop :=
  length (magic h) = 4%nat /\ Forall is_u8 (magic h) /\ is_u8 (type h) /\
  is_u32 (sequence h) /\ is_u32 (ack h) /\ is_u32 (ackBits h) /\
  is_u32 (tick h) /\ is_u16 (payloadSize h).
End PacketHeader.
Abbreviation PacketHeader := PacketHeader.t.

(** ** Serialization buffer *)

Module PacketBuffer.
Record t := mk {
  data : list Z;
  writePos : nat;
  readPos : nat }.

Definition reset (b : t) : t := b{{ writePos := 0%nat; readPos := 0%nat }}.
Definition size (b : t) : nat := writePos b.

(** *** Write operations *)

Definition writeU8 (v : Z) (b : t) : t :=
  if (writePos b <? MAX_PACKET_SIZE)%nat
  then b{{ data := <[writePos b := v]> (data b); writePos := S (writePos b) }}
  else b.

Definition writeU16 (v : Z) (b : t) : t :=
  writeU8 (Z.land (Z.shiftr v 8) 0xFF) (writeU8 (Z.land v 0xFF) b).

Definition writeU32 (v : Z) (b : t) : t :=
  writeU16 (Z.land (Z.shiftr v 16) 0xFFFF) (writeU16 (Z.land v 0xFFFF) b).

(** [memcpy(&u, &v, 4); writeU32(u)]: the float is its bit pattern. *)
Definition writeFloat (v : float) (b : t) : t := writeU32 v b.

Definition writeVec3 (v : Vec3) (b : t) : t :=
  writeFloat (Vec3.z v) (writeFloat (Vec3.y v) (writeFloat (Vec3.x v) b)).

(** [writeBytes(src, len)] with [len] the length of [src]: all or
    nothing. *)
Definition writeBytes (src : list Z) (b : t) : t :=
  if (writePos b + length src <=? MAX_PACKET_SIZE)%nat
  then b{{ data := take (writePos b) (data b) ++ src
                     ++ drop (writePos b + length src) (data b);
           writePos := (writePos b + length src)%nat }}
  else b.

(** *** Read operations: a computation that returns a value and the
    buffer with its read cursor moved *)

Definition Rd (A : Type) : Type := t -> A * t.
Definition ret {A} (a : A) : Rd A := fun b => (a, b).
Definition bind {A B} (m : Rd A) (k : A -> Rd B) : Rd B :=
  fun b => let '(a, b') := m b in k a b'.

Declare Scope rd_scope.
Delimit Scope rd_scope with rd.
Notation "x <~ m ;; k" := (bind m (fun x => k))
  (at level 100, m at next level, right associativity) : rd_scope.
Local Open Scope rd_scope.

Definition readU8 : Rd Z := fun b =>
  if (readPos b <? writePos b)%nat
  then (data b !!! readPos b, b{{ readPos := S (readPos b) }})
  else (0, b).

Definition readU16 : Rd Z :=
  v <~ readU8 ;;
  hi <~ readU8 ;;
  ret (wrap16 (Z.lor v (Z.shiftl hi 8))).

Definition readU32 : Rd Z :=
  v <~ readU16 ;;
  hi <~ readU16 ;;
  ret (Z.lor v (wrap32 (Z.shiftl hi 16))).

Definition readFloat : Rd float := readU32.

Definition readVec3 : Rd Vec3 :=
  x <~ readFloat ;;
  y <~ readFloat ;;
  z <~ readFloat ;;
  ret (Vec3.mk x y z).

(** [readBytes(dst, len)]: when fewer than [len] bytes are left before
    the write cursor nothing is copied and [dst] keeps its content. *)
Definition readBytes (dst : list Z) (len : nat) : Rd (list Z) := fun b =>
  if (readPos b + len <=? writePos b)%nat
  then (take len (drop (readPos b) (data b)) ++ drop len dst,
        b{{ readPos := (readPos b + len)%nat }})
  else (dst, b).

(** *** Header operations *)

Definition writeHeader (h : PacketHeader) (b : t) : t :=
  let b := writeBytes (take 4 (PacketHeader.magic h)) b in
  let b := writeU8 (PacketHeader.type h) b in
  let b := writeU32 (PacketHeader.sequence h) b in
  let b := writeU32 (PacketHeader.ack h) b in
  let b := writeU32 (PacketHeader.ackBits h) b in
  let b := writeU32 (PacketHeader.tick h) b in
  writeU16 (PacketHeader.payloadSize h) b.

Definition readHeader : Rd PacketHeader :=
  magic <~ readBytes (PacketHeader.magic PacketHeader.default) 4 ;;
  type <~ readU8 ;;
  sequence <~ readU32 ;;
  ack <~ readU32 ;;
  ackBits <~ readU32 ;;
  tick <~ readU32 ;;
  payloadSize <~ readU16 ;;
  ret (PacketHeader.mk magic type sequence ack ackBits tick payloadSize).

(** *** Payload serialization *)

Definition writePlayerInput (input : PlayerInput) (b : t) : t :=
  let b := writeU32 (PlayerInput.sequence input) b in
  let b := writeU32 (PlayerInput.tick input) b in
  let b := writeU8 (PlayerInput.keys input) b in
  let b := writeFloat (PlayerInput.yaw input) b in
  let b := writeFloat (PlayerInput.pitch input) b in
  writeFloat (PlayerInput.deltaTime input) b.

Definition readPlayerInput : Rd PlayerInput :=
  sequence <~ readU32 ;;
  tick <~ readU32 ;;
  keys <~ readU8 ;;
  yaw <~ readFloat ;;
  pitch <~ readFloat ;;
  deltaTime <~ readFloat ;;
  ret (PlayerInput.mk sequence tick keys yaw pitch deltaTime).

Definition writePlayerState (state : PlayerState) (b : t) : t :=
  let b := writeU32 (PlayerState.playerId state) b in
  let b := writeU32 (PlayerState.tick state) b in
  let b := writeVec3 (PlayerState.position state) b in
  let b := writeFloat (PlayerState.yaw state) b in
  let b := writeFloat (PlayerState.pitch state) b in
  writeU32 (PlayerState.lastProcessedInput state) b.

Definition readPlayerState : Rd PlayerState :=
  playerId <~ readU32 ;;
  tick <~ readU32 ;;
  position <~ readVec3 ;;
  yaw <~ readFloat ;;
  pitch <~ readFloat ;;
  lastProcessedInput <~ readU32 ;;
  ret (PlayerState.mk playerId tick position yaw pitch lastProcessedInput).

Definition writeEntityState (e : EntityState) (b : t) : t :=
  let b := writeU32 (EntityState.entityId e) b in
  let b := writeU8 (EntityState.entityType e) b in
  let b := writeVec3 (EntityState.position e) b in
  let b := writeVec3 (EntityState.velocity e) b in
  let b := writeFloat (EntityState.yaw e) b in
  writeFloat (EntityState.pitch e) b.

Definition readEntityState : Rd EntityState :=
  entityId <~ readU32 ;;
  entityType <~ readU8 ;;
  position <~ readVec3 ;;
  velocity <~ readVec3 ;;
  yaw <~ readFloat ;;
  pitch <~ readFloat ;;
  ret (EntityState.mk entityId entityType position velocity yaw pitch).

(** A [PacketBuffer] as a local variable declares: both cursors at 0
    and the 1400 bytes of [data] whatever they happen to be. *)
Definition fresh (b : t) : Prop :=
  length (data b) = MAX_PACKET_SIZE /\ writePos b = 0%nat /\ readPos b = 0%nat.
End PacketBuffer.
Abbreviation PacketBuffer := PacketBuffer.t.

#[global] Instance Vec3_inhabited : Inhabited Vec3 := populate Vec3.zero.
#[global] Instance PlayerInput_inhabited : Inhabited PlayerInput :=
  populate (PlayerInput.mk 0 0 0 F32.zero F32.zero F32.zero).
#[global] Instance PlayerState_inhabited : Inhabited PlayerState :=
  populate PlayerState.default.

(** ** Connection state *)

Inductive ConnectionState := DISCONNECTED | CONNECTING | CONNECTED | DISCONNECTING.

#[global] Instance ConnectionState_eq_dec : EqDecision ConnectionState.
Proof. solve_decision. Defined.

(** The two fields of [sockaddr_in] that [addressEqual] compares. *)
Record sockaddr_in := { sin_addr : Z; sin_port : Z }.

Definition addressEqual (a b : sockaddr_in) : bool :=
  (sin_addr a =? sin_addr b) && (sin_port a =? sin_port b).

Module Connection.
Record t := mk {
  playerId : Z;
  address : sockaddr_in;
  state : ConnectionState;
  localSequence : Z;
  remoteSequence : Z;
  ackBits : Z;
  lastReceiveTime : float;
  lastSendTime : float;
  rtt : float;
  pendingInputs : list PlayerInput;
  lastProcessedInput : Z }.

(** [Connection()]. *)
Definition default : t :=
  mk 0 {| sin_addr := 0; sin_port := 0 |} DISCONNECTED 0 0 0
     F32.zero F32.zero F32.c0_1 [] 0.
End Connection.
Abbreviation Connection := Connection.t.

(** ** Interpolation state *)

Module InterpolationState.
Record t := mk {
  states : list PlayerState;
  count : Z }.

Definition addState (state : PlayerState) (s : t) : t :=
  s{{ states := <[Z.to_nat (count s mod 128) := state]> (states s);
      count := wrap32 (count s + 1) }}.

(** The [for] loop of [interpolate]: [i] is the loop variable and [n]
    the number of iterations left; the result is [before] and, when
    [i > 0], [after]. *)
Fixpoint scan (s : t) (targetTick : Z) (i : Z) (n : nat)
  : option (PlayerState * option PlayerState) :=
  match n with
  | O => None
  | S n' =>
      let st := states s !!! Z.to_nat (wrap32 (count s - 1 - i) mod 128) in
      if PlayerState.tick st <=? targetTick then
        Some (st, if 0 <? i
                  then Some (states s !!! Z.to_nat (wrap32 (count s - i) mod 128))
                  else None)
      else scan s targetTick (i + 1) n'
  end.

(** [bool interpolate(targetTick, out)]: the returned flag and the
    content of [out] afterwards. *)
Definition interpolate (s : t) (targetTick : Z) (out : PlayerState)
  : bool * PlayerState :=
  if count s <? 2 then (false, out) else
  match scan s targetTick 0 (Z.to_nat (Z.min (count s) 128)) with
  | None => (false, out)
  | Some (before, None) => (true, before)
  | Some (before, Some after) =>
      let t := F32.div
                 (F32.of_Z (wrap32 (targetTick - PlayerState.tick before)))
                 (F32.of_Z (wrap32 (PlayerState.tick after - PlayerState.tick before))) in
      let t := F32.max F32.zero (F32.min F32.one t) in
      (true,
       PlayerState.mk
         (PlayerState.playerId before)
         targetTick
         (Vec3.lerp (PlayerState.position before) (PlayerState.position after) t)
         (F32.add (PlayerState.yaw before)
            (F32.mul (F32.sub (PlayerState.yaw after) (PlayerState.yaw before)) t))
         (F32.add (PlayerState.pitch before)
            (F32.mul (F32.sub (PlayerState.pitch after) (PlayerState.pitch before)) t))
         (PlayerState.lastProcessedInput after))
  end.

(** The newest state: the one [addState] stored last. *)
Definition newest (s : t) : PlayerState :=
  states s !!! Z.to_nat (wrap32 (count s - 1) mod 128).
End InterpolationState.
Abbreviation InterpolationState := InterpolationState.t.

(** ** Input history (client-side prediction and rollback) *)

Module InputHistory.
Record t := mk {
  inputs : list PlayerInput;
  predictedStates : list PlayerState;
  head : nat;
  count : nat }.

Definition addInput (input : PlayerInput) (predicted : PlayerState) (h : t) : t :=
  let idx := ((head h + count h) mod INPUT_BUFFER_SIZE)%nat in
  let h' := h{{ inputs := <[idx := input]> (inputs h);
                predictedStates := <[idx := predicted]> (predictedStates h) }} in
  if (count h <? INPUT_BUFFER_SIZE)%nat
  then h'{{ count := S (count h) }}
  else h'{{ head := ((head h + 1) mod INPUT_BUFFER_SIZE)%nat }}.

(** The [while] loop of [acknowledgeUpTo], by recursion on [count]:
    every iteration decrements it. *)
Fixpoint ack_loop (inputs : list PlayerInput) (sequence : Z) (head count : nat)
  : nat * nat :=
  match count with
  | O => (head, O)
  | S c =>
      if PlayerInput.sequence (inputs !!! head) <=? sequence
      then ack_loop inputs sequence ((head + 1) mod INPUT_BUFFER_SIZE)%nat c
      else (head, count)
  end.

Definition acknowledgeUpTo (sequence : Z) (h : t) : t :=
  let '(hd, c) := ack_loop (inputs h) sequence (head h) (count h) in
  h{{ head := hd; count := c }}.

Definition getUnacknowledged (h : t) : list PlayerInput :=
  map (fun i => inputs h !!! ((head h + i) mod INPUT_BUFFER_SIZE)%nat)
      (seq 0 (count h)).

(** [InputHistory()]: empty ring over 64 slots. *)
Definition empty : t :=
  mk (replicate INPUT_BUFFER_SIZE inhabitant)
     (replicate INPUT_BUFFER_SIZE inhabitant) 0 0.
End InputHistory.
Abbreviation InputHistory := InputHistory.t.

(** [input.keys & mask] as a condition. *)
Definition key_down (keys mask : Z) : bool := negb (Z.land keys mask =? 0).

(** A [PacketBuffer] local variable.  The bytes of the uninitialised
    array are indeterminate; zeros stand for them. *)
Definition new_buffer : PacketBuffer :=
  PacketBuffer.mk (replicate MAX_PACKET_SIZE 0) 0 0.

(** [recvfrom] into [buffer.data]: at most [MAX_PACKET_SIZE] bytes of
    the datagram replace the front of the array, the rest of the array
    keeps what earlier datagrams left there. *)
Definition recv_into (dgram : list Z) (buffer : PacketBuffer) : PacketBuffer :=
  let bytes := take MAX_PACKET_SIZE dgram in
  buffer{{ PacketBuffer.data := bytes ++ drop (length bytes) (PacketBuffer.data buffer);
           PacketBuffer.writePos := length bytes;
           PacketBuffer.readPos := 0%nat }}.

(** ** Host (server) *)

Module Host.
Inductive event :=
| PlayerConnected (playerId : Z)
| PlayerDisconnected (playerId : Z).

(** The private members of [Host], then the environment: [clock] is what
    [getTime()] returns, [sent] the datagrams handed to [sendto] (peer
    address and the first [writePos] bytes of the buffer), [events] the
    calls made to [onPlayerConnected] and [onPlayerDisconnected]. *)
Record t := mk {
  running_ : bool;
  currentTick_ : Z;
  nextPlayerId_ : Z;
  tickAccumulator_ : float;
  snapshotAccumulator_ : float;
  connections_ : gmap Z Connection;
  players_ : gmap Z PlayerState;
  clock : float;
  sent : list (sockaddr_in * list Z);
  events : list event }.

Definition getTime (h : t) : float := clock h.

(** [sendto] is logged whatever the socket; the callers run while it is
    open. *)
Definition sendTo (conn : Connection) (buffer : PacketBuffer) (h : t) : t :=
  h{{ sent := sent h ++ [(Connection.address conn,
                          take (PacketBuffer.writePos buffer) (PacketBuffer.data buffer))] }}.

(** [for (auto& [id, conn] : connections_)]: the body receives the key
    and the connection and returns the connection as it leaves it
    together with the rest of the host; no body touches another
    connection.  The order is that of [map_to_list] (the order of an
    [unordered_map] is unspecified). *)
Definition for_each_connection
    (body : Z -> Connection -> t -> Connection * t) (h : t) : t :=
  foldl (fun h kv =>
           let '(conn, h) := body kv.1 kv.2 h in
           h{{ connections_ := <[kv.1 := conn]> (connections_ h) }})
        h (map_to_list (connections_ h)).

Definition findConnection (addr : sockaddr_in) (h : t) : option (Z * Connection) :=
  List.find (fun kv => addressEqual (Connection.address kv.2) addr)
            (map_to_list (connections_ h)).

(** [conn.ackBits << shift] is a [uint32_t] shift, hence the wrap;
    [1 << diff] is an [int] shift whose result, converted for [|=], is
    bit [diff] of the [uint32_t] for every [diff < 32]. *)
Definition updateAcks (header : PacketHeader) (conn : Connection) : Connection :=
  if Connection.remoteSequence conn <? PacketHeader.sequence header then
    let shift := wrap32 (PacketHeader.sequence header - Connection.remoteSequence conn) in
    let conn :=
      if shift <? 32
      then conn{{ Connection.ackBits :=
                    Z.lor (wrap32 (Z.shiftl (Connection.ackBits conn) shift)) 1 }}
      else conn{{ Connection.ackBits := 1 }} in
    conn{{ Connection.remoteSequence := PacketHeader.sequence header }}
  else if PacketHeader.sequence header <? Connection.remoteSequence conn then
    let diff := wrap32 (Connection.remoteSequence conn - PacketHeader.sequence header) in
    if diff <? 32
    then conn{{ Connection.ackBits :=
                  Z.lor (Connection.ackBits conn) (wrap32 (Z.shiftl 1 diff)) }}
    else conn
  else conn.

Definition sendConnectAccept (conn : Connection) (h : t) : Connection * t :=
  let conn := conn{{ Connection.localSequence := wrap32 (Connection.localSequence conn + 1) }} in
  let header := PacketHeader.default{{
                  PacketHeader.type := PacketType.CONNECT_ACCEPT;
                  PacketHeader.sequence := Connection.localSequence conn;
                  PacketHeader.tick := currentTick_ h }} in
  let buffer := PacketBuffer.writeHeader header new_buffer in
  let buffer := PacketBuffer.writeU32 (Connection.playerId conn) buffer in
  let buffer := PacketBuffer.writeU32 (currentTick_ h) buffer in
  let h := sendTo conn buffer h in
  (conn{{ Connection.lastSendTime := getTime h }}, h).

Definition sendHeartbeat (conn : Connection) (h : t) : Connection * t :=
  let conn := conn{{ Connection.localSequence := wrap32 (Connection.localSequence conn + 1) }} in
  let header := PacketHeader.default{{
                  PacketHeader.type := PacketType.HEARTBEAT;
                  PacketHeader.sequence := Connection.localSequence conn;
                  PacketHeader.ack := Connection.remoteSequence conn;
                  PacketHeader.ackBits := Connection.ackBits conn;
                  PacketHeader.tick := currentTick_ h }} in
  let buffer := PacketBuffer.writeHeader header new_buffer in
  let h := sendTo conn buffer h in
  (conn{{ Connection.lastSendTime := getTime h }}, h).

(** The buffer [sendStateUpdates] hands to [sendTo] for [conn], whose
    [localSequence] is already incremented. *)
Definition stateUpdateBuffer (conn : Connection) (h : t) : PacketBuffer :=
  let buffer := new_buffer in
  let header := PacketHeader.default{{
                  PacketHeader.type := PacketType.STATE_UPDATE;
                  PacketHeader.sequence := Connection.localSequence conn;
                  PacketHeader.ack := Connection.remoteSequence conn;
                  PacketHeader.ackBits := Connection.ackBits conn;
                  PacketHeader.tick := currentTick_ h }} in
  let headerPos := PacketBuffer.writePos buffer in
  let buffer := buffer{{ PacketBuffer.writePos := (PacketBuffer.writePos buffer + 22)%nat }} in
  let playerCount := wrap8 (Z.of_nat (size (players_ h))) in
  let buffer := PacketBuffer.writeU8 playerCount buffer in
  let buffer := foldl (fun b kv => PacketBuffer.writePlayerState kv.2 b)
                      buffer (map_to_list (players_ h)) in
  let header := header{{ PacketHeader.payloadSize :=
                  wrap16 (Z.of_nat (PacketBuffer.writePos buffer) - Z.of_nat headerPos - 22) }} in
  let savedPos := PacketBuffer.writePos buffer in
  let buffer := buffer{{ PacketBuffer.writePos := headerPos }} in
  let buffer := PacketBuffer.writeHeader header buffer in
  buffer{{ PacketBuffer.writePos := savedPos }}.

Definition sendStateUpdates (h : t) : t :=
  for_each_connection (fun connId conn h =>
    if decide (Connection.state conn = CONNECTED) then
      let conn := conn{{ Connection.localSequence := wrap32 (Connection.localSequence conn + 1) }} in
      (conn, sendTo conn (stateUpdateBuffer conn h) h)
    else (conn, h)) h.

Definition cube1 : EntityState :=
  EntityState.mk 1 1 (Vec3.mk (F32.of_Z 0) (F32.of_Z 1) (F32.of_Z 0)) Vec3.zero F32.zero F32.zero.
Definition cube2 : EntityState :=
  EntityState.mk 2 1 (Vec3.mk (F32.of_Z 5) (F32.of_Z 1) (F32.of_Z 3)) Vec3.zero F32.zero F32.zero.
Definition cube3 : EntityState :=
  EntityState.mk 3 1 (Vec3.mk (F32.of_Z (-3)) F32.c0_5 (F32.of_Z (-5))) Vec3.zero F32.zero F32.zero.

(** The buffer [sendWorldSnapshot] hands to [sendTo]. *)
Definition worldSnapshotBuffer (conn : Connection) (h : t) : PacketBuffer :=
  let buffer := new_buffer in
  let header := PacketHeader.default{{
                  PacketHeader.type := PacketType.WORLD_SNAPSHOT;
                  PacketHeader.sequence := Connection.localSequence conn;
                  PacketHeader.tick := currentTick_ h }} in
  let headerPos := PacketBuffer.writePos buffer in
  let buffer := buffer{{ PacketBuffer.writePos := (PacketBuffer.writePos buffer + 22)%nat }} in
  let buffer := PacketBuffer.writeU8 (wrap8 (Z.of_nat (size (players_ h)))) buffer in
  let buffer := foldl (fun b kv => PacketBuffer.writePlayerState kv.2 b)
                      buffer (map_to_list (players_ h)) in
  let buffer := PacketBuffer.writeU8 3 buffer in
  let buffer := PacketBuffer.writeEntityState cube1 buffer in
  let buffer := PacketBuffer.writeEntityState cube2 buffer in
  let buffer := PacketBuffer.writeEntityState cube3 buffer in
  let header := header{{ PacketHeader.payloadSize :=
                  wrap16 (Z.of_nat (PacketBuffer.writePos buffer) - Z.of_nat headerPos - 22) }} in
  let savedPos := PacketBuffer.writePos buffer in
  let buffer := buffer{{ PacketBuffer.writePos := headerPos }} in
  let buffer := PacketBuffer.writeHeader header buffer in
  buffer{{ PacketBuffer.writePos := savedPos }}.

Definition sendWorldSnapshot (conn : Connection) (h : t) : Connection * t :=
  let conn := conn{{ Connection.localSequence := wrap32 (Connection.localSequence conn + 1) }} in
  (conn, sendTo conn (worldSnapshotBuffer conn h) h).

(** [players_[entityId]]: [operator[]] yields the stored state, or a
    value-initialised one (which it also stores) when there is none. *)
Definition players_at (entityId : Z) (h : t) : PlayerState * t :=
  match players_ h !! entityId with
  | Some s => (s, h)
  | None => (PlayerState.default,
             h{{ players_ := <[entityId := PlayerState.default]> (players_ h) }})
  end.

Definition broadcastEntityCreate (entityId : Z) (h : t) : t :=
  for_each_connection (fun connId conn h =>
    if decide (Connection.state conn = CONNECTED) then
      if connId =? entityId then (conn, h) else
      let conn := conn{{ Connection.localSequence := wrap32 (Connection.localSequence conn + 1) }} in
      let header := PacketHeader.default{{
                      PacketHeader.type := PacketType.ENTITY_CREATE;
                      PacketHeader.sequence := Connection.localSequence conn;
                      PacketHeader.tick := currentTick_ h }} in
      let buffer := PacketBuffer.writeHeader header new_buffer in
      let buffer := PacketBuffer.writeU32 entityId buffer in
      let buffer := PacketBuffer.writeU8 0 buffer in
      let '(s, h) := players_at entityId h in
      let buffer := PacketBuffer.writeVec3 (PlayerState.position s) buffer in
      (conn, sendTo conn buffer h)
    else (conn, h)) h.

Definition broadcastEntityDestroy (entityId : Z) (h : t) : t :=
  for_each_connection (fun connId conn h =>
    if decide (Connection.state conn = CONNECTED) then
      let conn := conn{{ Connection.localSequence := wrap32 (Connection.localSequence conn + 1) }} in
      let header := PacketHeader.default{{
                      PacketHeader.type := PacketType.ENTITY_DESTROY;
                      PacketHeader.sequence := Connection.localSequence conn;
                      PacketHeader.tick := currentTick_ h }} in
      let buffer := PacketBuffer.writeHeader header new_buffer in
      let buffer := PacketBuffer.writeU32 entityId buffer in
      (conn, sendTo conn buffer h)
    else (conn, h)) h.

Definition spawn (playerId : Z) : PlayerState :=
  PlayerState.default{{
    PlayerState.playerId := playerId;
    PlayerState.position := Vec3.mk (F32.of_Z 0) F32.c1_7 (F32.of_Z 5);
    PlayerState.yaw := F32.cm90;
    PlayerState.pitch := F32.zero }}.

(** [handleConnectRequest] past its early return: a new player. *)
Definition createPlayer (fromAddr : sockaddr_in) (now : float) (h : t) : t :=
  let playerId := nextPlayerId_ h in
  let h := h{{ nextPlayerId_ := wrap32 (nextPlayerId_ h + 1) }} in
  let conn := default Connection.default (connections_ h !! playerId) in
  let conn := conn{{ Connection.playerId := playerId;
                     Connection.address := fromAddr;
                     Connection.state := CONNECTED;
                     Connection.lastReceiveTime := now;
                     Connection.localSequence := 0;
                     Connection.remoteSequence := 0 }} in
  let h := h{{ connections_ := <[playerId := conn]> (connections_ h) }} in
  let h := h{{ players_ := <[playerId := spawn playerId]> (players_ h) }} in
  let '(conn, h) := sendConnectAccept conn h in
  let '(conn, h) := sendWorldSnapshot conn h in
  let h := h{{ connections_ := <[playerId := conn]> (connections_ h) }} in
  let h := broadcastEntityCreate playerId h in
  h{{ events := events h ++ [PlayerConnected playerId] }}.

Definition handleConnectRequest (fromAddr : sockaddr_in) (now : float) (h : t) : t :=
  match findConnection fromAddr h with
  | Some (k, existing) =>
      if decide (Connection.state existing = CONNECTED) then
        let '(existing, h) := sendConnectAccept existing h in
        h{{ connections_ := <[k := existing]> (connections_ h) }}
      else createPlayer fromAddr now h
  | None => createPlayer fromAddr now h
  end.

Definition handleDisconnect (conn : Connection) (h : t) : t :=
  let playerId := Connection.playerId conn in
  let h := broadcastEntityDestroy playerId h in
  let h := h{{ players_ := delete playerId (players_ h) }} in
  let h := h{{ connections_ := delete playerId (connections_ h) }} in
  h{{ events := events h ++ [PlayerDisconnected playerId] }}.

(** The [for] loop of [handleInput], [n] inputs left to read. *)
Fixpoint readInputs (n : nat) (conn : Connection) (buffer : PacketBuffer)
  : Connection * PacketBuffer :=
  match n with
  | O => (conn, buffer)
  | S n' =>
      let '(input, buffer) := PacketBuffer.readPlayerInput buffer in
      let conn :=
        if Connection.lastProcessedInput conn <? PlayerInput.sequence input
        then conn{{ Connection.pendingInputs := Connection.pendingInputs conn ++ [input] }}
        else conn in
      readInputs n' conn buffer
  end.

Definition handleInput (conn : Connection) (buffer : PacketBuffer) (payloadSize : Z)
  : Connection * PacketBuffer :=
  let inputCount := Z.to_nat (payloadSize / 21) in
  readInputs inputCount conn buffer.

Section Simulation.
Context `{Libm}.

Definition applyInput (playerId : Z) (input : PlayerInput) (h : t) : t :=
  match players_ h !! playerId with
  | None => h
  | Some state =>
      let velocity := F32.mul F32.c5 (PlayerInput.deltaTime input) in
      let yawRad := F32.deg2rad (PlayerInput.yaw input) in
      let state :=
        if key_down (PlayerInput.keys input) 0x01 then
          state{{ PlayerState.position -> Vec3.x ::=
                    (fun x => F32.add x (F32.mul (cosf yawRad) velocity));
                  PlayerState.position -> Vec3.z ::=
                    (fun z => F32.add z (F32.mul (sinf yawRad) velocity)) }}
        else state in
      let state :=
        if key_down (PlayerInput.keys input) 0x02 then
          state{{ PlayerState.position -> Vec3.x ::=
                    (fun x => F32.sub x (F32.mul (cosf yawRad) velocity));
                  PlayerState.position -> Vec3.z ::=
                    (fun z => F32.sub z (F32.mul (sinf yawRad) velocity)) }}
        else state in
      let state :=
        if key_down (PlayerInput.keys input) 0x04 then
          state{{ PlayerState.position -> Vec3.x ::=
                    (fun x => F32.add x (F32.mul (sinf yawRad) velocity));
                  PlayerState.position -> Vec3.z ::=
                    (fun z => F32.sub z (F32.mul (cosf yawRad) velocity)) }}
        else state in
      let state :=
        if key_down (PlayerInput.keys input) 0x08 then
          state{{ PlayerState.position -> Vec3.x ::=
                    (fun x => F32.sub x (F32.mul (sinf yawRad) velocity));
                  PlayerState.position -> Vec3.z ::=
                    (fun z => F32.add z (F32.mul (cosf yawRad) velocity)) }}
        else state in
      let state :=
        if key_down (PlayerInput.keys input) 0x10
        then state{{ PlayerState.position -> Vec3.y ::= (fun y => F32.add y velocity) }}
        else state in
      let state :=
        if key_down (PlayerInput.keys input) 0x20
        then state{{ PlayerState.position -> Vec3.y ::= (fun y => F32.sub y velocity) }}
        else state in
      let state := state{{ PlayerState.yaw := PlayerInput.yaw input;
                           PlayerState.pitch := PlayerInput.pitch input;
                           PlayerState.tick := currentTick_ h }} in
      h{{ players_ := <[playerId := state]> (players_ h) }}
  end.


(** The [while (!conn.pendingInputs.empty())] loop of [processTick]
    for the connection stored under [id], by recursion on the queue. *)
Fixpoint drainPending (id : Z) (pending : list PlayerInput)
    (conn : Connection) (h : t) : Connection * t :=
  match pending with
  | [] => (conn{{ Connection.pendingInputs := [] }}, h)
  | input :: pending' =>
      if Connection.lastProcessedInput conn <? PlayerInput.sequence input then
        let h := applyInput id input h in
        let conn := conn{{ Connection.lastProcessedInput := PlayerInput.sequence input }} in
        let h :=
          match players_ h !! id with
          | Some s =>
              h{{ players_ :=
                    <[id := s{{ PlayerState.lastProcessedInput := PlayerInput.sequence input }}]>
                      (players_ h) }}
          | None => h
          end in
        drainPending id pending' conn h
      else drainPending id pending' conn h
  end.

Definition processTick (h : t) : t :=
  let h := h{{ currentTick_ := wrap32 (currentTick_ h + 1) }} in
  for_each_connection (fun id conn h =>
    drainPending id (Connection.pendingInputs conn) conn h) h.
End Simulation.

Definition handlePacket (header : PacketHeader) (buffer : PacketBuffer)
    (fromAddr : sockaddr_in) (now : float) (h : t) : t :=
  let conn := findConnection fromAddr h in
  let type := PacketHeader.type header in
  if type =? PacketType.CONNECT_REQUEST then
    handleConnectRequest fromAddr now h
  else if type =? PacketType.DISCONNECT then
    match conn with
    | Some (_, conn) => handleDisconnect conn h
    | None => h
    end
  else if (type =? PacketType.HEARTBEAT) || (type =? PacketType.ACK) then
    match conn with
    | Some (k, conn) =>
        let conn := conn{{ Connection.lastReceiveTime := now }} in
        let conn := updateAcks header conn in
        h{{ connections_ := <[k := conn]> (connections_ h) }}
    | None => h
    end
  else if type =? PacketType.INPUT then
    match conn with
    | Some (k, conn) =>
        if decide (Connection.state conn = CONNECTED) then
          let conn := conn{{ Connection.lastReceiveTime := now }} in
          let conn := updateAcks header conn in
          let '(conn, _) := handleInput conn buffer (PacketHeader.payloadSize header) in
          h{{ connections_ := <[k := conn]> (connections_ h) }}
        else h
    | None => h
    end
  else h.

(** The [while (true)] loop of [receivePackets] over the datagrams
    queued on the socket: it ends when [recvfrom] returns nothing (empty
    queue) or 0 (an empty datagram). *)
Fixpoint receiveLoop (now : float) (queue : list (sockaddr_in * list Z))
    (buffer : PacketBuffer) (h : t) : t :=
  match queue with
  | [] => h
  | (fromAddr, dgram) :: queue' =>
      if (length dgram =? 0)%nat then h else
      let buffer := recv_into dgram buffer in
      let '(header, buffer) := PacketBuffer.readHeader buffer in
      if negb (PacketHeader.isValid header) then receiveLoop now queue' buffer h
      else receiveLoop now queue' buffer (handlePacket header buffer fromAddr now h)
  end.

Definition receivePackets (now : float) (queue : list (sockaddr_in * list Z)) (h : t) : t :=
  receiveLoop now queue new_buffer h.


Definition getPlayerCount (h : t) : nat := size (players_ h).

Definition sendDisconnect (conn : Connection) (h : t) : Connection * t :=
  let conn := conn{{ Connection.localSequence := wrap32 (Connection.localSequence conn + 1) }} in
  let header := PacketHeader.default{{
                  PacketHeader.type := PacketType.DISCONNECT;
                  PacketHeader.sequence := Connection.localSequence conn }} in
  let buffer := PacketBuffer.writeHeader header new_buffer in
  (conn, sendTo conn buffer h).

(** [stop()]; [socket_open] is [socket_ != SOCKET_INVALID]. *)
Definition stop (socket_open : bool) (h : t) : t :=
  let h :=
    if socket_open
    then for_each_connection (fun id conn h => sendDisconnect conn h) h
    else h in
  h{{ connections_ := ∅; players_ := ∅; running_ := false }}.

(** [now - conn.lastReceiveTime > CONNECTION_TIMEOUT]. *)
Definition timedOut (now : float) (conn : Connection) : bool :=
  F32.ltb CONNECTION_TIMEOUT (F32.sub now (Connection.lastReceiveTime conn)).

(** The body of the second loop of [checkTimeouts]. *)
Definition removePlayer (h : t) (id : Z) : t :=
  let h := broadcastEntityDestroy id h in
  let h := h{{ players_ := delete id (players_ h) }} in
  let h := h{{ connections_ := delete id (connections_ h) }} in
  h{{ events := events h ++ [PlayerDisconnected id] }}.

Definition checkTimeouts (now : float) (h : t) : t :=
  let toRemove :=
    map fst (List.filter (fun kv => timedOut now kv.2) (map_to_list (connections_ h))) in
  foldl removePlayer h toRemove.

Section Update.
Context `{Libm}.

(** The [while (tickAccumulator_ >= TICK_INTERVAL)] loop of [update].
    Nothing in the code bounds the number of iterations, so the loop
    runs on [fuel]: [None] when it is still running after [fuel]
    iterations. *)
Fixpoint tickLoop (fuel : nat) (h : t) : option t :=
  if F32.leb TICK_INTERVAL (tickAccumulator_ h) then
    match fuel with
    | O => None
    | S fuel' =>
        let h := processTick h in
        tickLoop fuel' (h{{ tickAccumulator_ := F32.sub (tickAccumulator_ h) TICK_INTERVAL }})
    end
  else Some h.

(** [update(deltaTime)], with the datagrams waiting on the socket. *)
Definition update (fuel : nat) (deltaTime : float)
    (queue : list (sockaddr_in * list Z)) (h : t) : option t :=
  if negb (running_ h) then Some h else
  let now := getTime h in
  let h := receivePackets now queue h in
  let h := checkTimeouts now h in
  let h := h{{ tickAccumulator_ := F32.add (tickAccumulator_ h) deltaTime }} in
  match tickLoop fuel h with
  | None => None
  | Some h =>
      let h := h{{ snapshotAccumulator_ := F32.add (snapshotAccumulator_ h) deltaTime }} in
      let h :=
        if F32.leb SNAPSHOT_INTERVAL (snapshotAccumulator_ h) then
          let h := sendStateUpdates h in
          h{{ snapshotAccumulator_ := F32.sub (snapshotAccumulator_ h) SNAPSHOT_INTERVAL }}
        else h in
      Some (for_each_connection (fun id conn h =>
              if decide (Connection.state conn = CONNECTED) then
                if F32.leb HEARTBEAT_INTERVAL (F32.sub now (Connection.lastSendTime conn))
                then sendHeartbeat conn h
                else (conn, h)
              else (conn, h)) h)
  end.
End Update.
End Host.
Abbreviation Host := Host.t.

(** ** Client *)

Module Client.
Inductive event :=
| Connected (playerId : Z)
| Disconnected
| EntityCreated (entityId : Z) (type : Z) (pos : Vec3)
| EntityDestroyed (entityId : Z).

(** The private members of [Client] ([socket_] is whether the socket is
    open), then the environment: [clock] is what [getTime()] returns,
    [sent] the datagrams handed to [sendto], [events] the calls made to
    the four callbacks. *)
Record t := mk {
  socket_ : bool;
  serverAddr_ : sockaddr_in;
  state_ : ConnectionState;
  playerId_ : Z;
  serverTick_ : Z;
  localSequence_ : Z;
  remoteSequence_ : Z;
  ackBits_ : Z;
  inputSequence_ : Z;
  lastSendTime_ : float;
  lastReceiveTime_ : float;
  connectStartTime_ : float;
  rtt_ : float;
  localState_ : PlayerState;
  lastServerState_ : PlayerState;
  remotePlayers_ : gmap Z PlayerState;
  interpolationStates_ : gmap Z InterpolationState;
  inputHistory_ : InputHistory;
  clock : float;
  sent : list (list Z);
  events : list event }.

Definition getTime (c : t) : float := clock c.

Definition sendToServer (buffer : PacketBuffer) (c : t) : t :=
  c{{ sent := sent c ++ [take (PacketBuffer.writePos buffer) (PacketBuffer.data buffer)] }}.

Definition sendConnectRequest (c : t) : t :=
  let c := c{{ localSequence_ := wrap32 (localSequence_ c + 1) }} in
  let header := PacketHeader.default{{
                  PacketHeader.type := PacketType.CONNECT_REQUEST;
                  PacketHeader.sequence := localSequence_ c }} in
  let buffer := PacketBuffer.writeHeader header new_buffer in
  let c := sendToServer buffer c in
  c{{ lastSendTime_ := getTime c }}.

Definition sendDisconnect (c : t) : t :=
  let c := c{{ localSequence_ := wrap32 (localSequence_ c + 1) }} in
  let header := PacketHeader.default{{
                  PacketHeader.type := PacketType.DISCONNECT;
                  PacketHeader.sequence := localSequence_ c }} in
  let buffer := PacketBuffer.writeHeader header new_buffer in
  sendToServer buffer c.

Definition sendHeartbeat (c : t) : t :=
  let c := c{{ localSequence_ := wrap32 (localSequence_ c + 1) }} in
  let header := PacketHeader.default{{
                  PacketHeader.type := PacketType.HEARTBEAT;
                  PacketHeader.sequence := localSequence_ c;
                  PacketHeader.ack := remoteSequence_ c;
                  PacketHeader.ackBits := ackBits_ c }} in
  let buffer := PacketBuffer.writeHeader header new_buffer in
  let c := sendToServer buffer c in
  c{{ lastSendTime_ := getTime c }}.

Definition disconnect (c : t) : t :=
  let c :=
    if decide (state_ c = DISCONNECTED) then c else
    let c := sendDisconnect c in
    let c := c{{ state_ := DISCONNECTED }} in
    c{{ events := events c ++ [Disconnected] }} in
  let c := c{{ socket_ := false }} in
  let c := c{{ remotePlayers_ := ∅ }} in
  let c := c{{ interpolationStates_ := ∅ }} in
  c{{ inputHistory_ -> InputHistory.count := 0%nat;
      inputHistory_ -> InputHistory.head := 0%nat }}.

Definition updateAcks (header : PacketHeader) (c : t) : t :=
  if remoteSequence_ c <? PacketHeader.sequence header then
    let shift := wrap32 (PacketHeader.sequence header - remoteSequence_ c) in
    let c :=
      if shift <? 32
      then c{{ ackBits_ := Z.lor (wrap32 (Z.shiftl (ackBits_ c) shift)) 1 }}
      else c{{ ackBits_ := 1 }} in
    c{{ remoteSequence_ := PacketHeader.sequence header }}
  else if PacketHeader.sequence header <? remoteSequence_ c then
    let diff := wrap32 (remoteSequence_ c - PacketHeader.sequence header) in
    if diff <? 32
    then c{{ ackBits_ := Z.lor (ackBits_ c) (wrap32 (Z.shiftl 1 diff)) }}
    else c
  else c.

Definition spawn_position : Vec3 := Vec3.mk (F32.of_Z 0) F32.c1_7 (F32.of_Z 5).

Definition handleConnectAccept (buffer : PacketBuffer) (header : PacketHeader) (c : t) : t :=
  let '(playerId, buffer) := PacketBuffer.readU32 buffer in
  let c := c{{ playerId_ := playerId }} in
  let '(serverTick, buffer) := PacketBuffer.readU32 buffer in
  let c := c{{ serverTick_ := serverTick }} in
  let c := c{{ state_ := CONNECTED }} in
  let c := c{{ localState_ -> PlayerState.playerId := playerId_ c;
               localState_ -> PlayerState.position := spawn_position;
               localState_ -> PlayerState.yaw := F32.cm90;
               localState_ -> PlayerState.pitch := F32.zero;
               localState_ -> PlayerState.tick := serverTick_ c }} in
  c{{ events := events c ++ [Connected (playerId_ c)] }}.

(** [InterpolationState()]: [count = 0]; the 128 slots are not
    initialised, default states stand for them. *)
Definition new_interpolation : InterpolationState :=
  InterpolationState.mk (replicate STATE_BUFFER_SIZE PlayerState.default) 0.

(** [remotePlayers_[id] = state; interpolationStates_[id].addState(state)]. *)
Definition storeRemote (state : PlayerState) (c : t) : t :=
  let id := PlayerState.playerId state in
  let c := c{{ remotePlayers_ := <[id := state]> (remotePlayers_ c) }} in
  let interp := default new_interpolation (interpolationStates_ c !! id) in
  c{{ interpolationStates_ :=
        <[id := InterpolationState.addState state interp]> (interpolationStates_ c) }}.

Definition handleEntityCreate (buffer : PacketBuffer) (c : t) : t :=
  let '(entityId, buffer) := PacketBuffer.readU32 buffer in
  let '(type, buffer) := PacketBuffer.readU8 buffer in
  let '(pos, buffer) := PacketBuffer.readVec3 buffer in
  let c :=
    if type =? 0
    then c{{ remotePlayers_ :=
               <[entityId := PlayerState.default{{ PlayerState.playerId := entityId;
                                                   PlayerState.position := pos }}]>
                 (remotePlayers_ c) }}
    else c in
  c{{ events := events c ++ [EntityCreated entityId type pos] }}.

Definition handleEntityDestroy (buffer : PacketBuffer) (c : t) : t :=
  let '(entityId, buffer) := PacketBuffer.readU32 buffer in
  let c := c{{ remotePlayers_ := delete entityId (remotePlayers_ c) }} in
  let c := c{{ interpolationStates_ := delete entityId (interpolationStates_ c) }} in
  c{{ events := events c ++ [EntityDestroyed entityId] }}.

Section Prediction.
Context `{Libm}.

Definition applyInputToState (state : PlayerState) (input : PlayerInput) : PlayerState :=
  let velocity := F32.mul F32.c5 (PlayerInput.deltaTime input) in
  let yawRad := F32.deg2rad (PlayerInput.yaw input) in
  let state :=
    if key_down (PlayerInput.keys input) 0x01 then
      state{{ PlayerState.position -> Vec3.x ::=
                (fun x => F32.add x (F32.mul (cosf yawRad) velocity));
              PlayerState.position -> Vec3.z ::=
                (fun z => F32.add z (F32.mul (sinf yawRad) velocity)) }}
    else state in
  let state :=
    if key_down (PlayerInput.keys input) 0x02 then
      state{{ PlayerState.position -> Vec3.x ::=
                (fun x => F32.sub x (F32.mul (cosf yawRad) velocity));
              PlayerState.position -> Vec3.z ::=
                (fun z => F32.sub z (F32.mul (sinf yawRad) velocity)) }}
    else state in
  let state :=
    if key_down (PlayerInput.keys input) 0x04 then
      state{{ PlayerState.position -> Vec3.x ::=
                (fun x => F32.add x (F32.mul (sinf yawRad) velocity));
              PlayerState.position -> Vec3.z ::=
                (fun z => F32.sub z (F32.mul (cosf yawRad) velocity)) }}
    else state in
  let state :=
    if key_down (PlayerInput.keys input) 0x08 then
      state{{ PlayerState.position -> Vec3.x ::=
                (fun x => F32.sub x (F32.mul (sinf yawRad) velocity));
              PlayerState.position -> Vec3.z ::=
                (fun z => F32.add z (F32.mul (cosf yawRad) velocity)) }}
    else state in
  let state :=
    if key_down (PlayerInput.keys input) 0x10
    then state{{ PlayerState.position -> Vec3.y ::= (fun y => F32.add y velocity) }}
    else state in
  let state :=
    if key_down (PlayerInput.keys input) 0x20
    then state{{ PlayerState.position -> Vec3.y ::= (fun y => F32.sub y velocity) }}
    else state in
  state{{ PlayerState.yaw := PlayerInput.yaw input;
          PlayerState.pitch := PlayerInput.pitch input }}.

(** [errorMag] of [reconcileState]. *)
Definition errorMag (serverState : PlayerState) (c : t) : float :=
  let error := Vec3.sub (PlayerState.position serverState)
                        (PlayerState.position (localState_ c)) in
  F32.sqrtf (F32.add (F32.add (F32.mul (Vec3.x error) (Vec3.x error))
                              (F32.mul (Vec3.y error) (Vec3.y error)))
                     (F32.mul (Vec3.z error) (Vec3.z error))).

Definition reconcileState (serverState : PlayerState) (c : t) : t :=
  let c := c{{ lastServerState_ := serverState }} in
  let c := c{{ inputHistory_ ::=
                 InputHistory.acknowledgeUpTo (PlayerState.lastProcessedInput serverState) }} in
  let errorMag := errorMag serverState c in
  if F32.ltb F32.c0_01 errorMag then
    let corrected := serverState in
    let unacked := InputHistory.getUnacknowledged (inputHistory_ c) in
    let corrected := foldl applyInputToState corrected unacked in
    if F32.ltb errorMag F32.one then
      let blendFactor := F32.c0_1 in
      let cp := PlayerState.position corrected in
      c{{ localState_ -> PlayerState.position -> Vec3.x ::=
            (fun x => F32.add x (F32.mul (F32.sub (Vec3.x cp) x) blendFactor));
          localState_ -> PlayerState.position -> Vec3.y ::=
            (fun y => F32.add y (F32.mul (F32.sub (Vec3.y cp) y) blendFactor));
          localState_ -> PlayerState.position -> Vec3.z ::=
            (fun z => F32.add z (F32.mul (F32.sub (Vec3.z cp) z) blendFactor)) }}
    else
      c{{ localState_ -> PlayerState.position := PlayerState.position corrected }}
  else c.

(** The [for] loop shared by [handleStateUpdate] ([reconcile = true])
    and [handleWorldSnapshot] ([reconcile = false]), [n] states left. *)
Fixpoint readPlayers (reconcile : bool) (n : nat) (buffer : PacketBuffer) (c : t)
  : PacketBuffer * t :=
  match n with
  | O => (buffer, c)
  | S n' =>
      let '(state, buffer) := PacketBuffer.readPlayerState buffer in
      let c :=
        if PlayerState.playerId state =? playerId_ c then
          if reconcile then reconcileState state c
          else c{{ localState_ := state; lastServerState_ := state }}
        else storeRemote state c in
      readPlayers reconcile n' buffer c
  end.

Definition handleStateUpdate (buffer : PacketBuffer) (header : PacketHeader) (c : t) : t :=
  let c := c{{ serverTick_ := PacketHeader.tick header }} in
  let '(playerCount, buffer) := PacketBuffer.readU8 buffer in
  (readPlayers true (Z.to_nat playerCount) buffer c).2.

(** The entity loop of [handleWorldSnapshot]. *)
Fixpoint readEntities (n : nat) (buffer : PacketBuffer) (c : t) : PacketBuffer * t :=
  match n with
  | O => (buffer, c)
  | S n' =>
      let '(entity, buffer) := PacketBuffer.readEntityState buffer in
      let c := c{{ events := events c ++
                     [EntityCreated (EntityState.entityId entity)
                                    (EntityState.entityType entity)
                                    (EntityState.position entity)] }} in
      readEntities n' buffer c
  end.

Definition handleWorldSnapshot (buffer : PacketBuffer) (c : t) : t :=
  let '(playerCount, buffer) := PacketBuffer.readU8 buffer in
  let '(buffer, c) := readPlayers false (Z.to_nat playerCount) buffer c in
  let '(entityCount, buffer) := PacketBuffer.readU8 buffer in
  (readEntities (Z.to_nat entityCount) buffer c).2.

Definition handlePacket (header : PacketHeader) (buffer : PacketBuffer)
    (now : float) (c : t) : t :=
  let c := c{{ lastReceiveTime_ := now }} in
  let c := updateAcks header c in
  let type := PacketHeader.type header in
  if type =? PacketType.CONNECT_ACCEPT then handleConnectAccept buffer header c
  else if type =? PacketType.CONNECT_REJECT then disconnect c
  else if type =? PacketType.DISCONNECT then disconnect c
  else if type =? PacketType.HEARTBEAT then c
  else if type =? PacketType.STATE_UPDATE then handleStateUpdate buffer header c
  else if type =? PacketType.WORLD_SNAPSHOT then handleWorldSnapshot buffer c
  else if type =? PacketType.ENTITY_CREATE then handleEntityCreate buffer c
  else if type =? PacketType.ENTITY_DESTROY then handleEntityDestroy buffer c
  else c.

(** The [while (true)] loop of [receivePackets] over the datagrams
    queued on the socket.  It ends when [recvfrom] returns nothing or 0
    (an empty datagram), or fails because [disconnect] closed the
    socket while a packet was handled. *)
Fixpoint receiveLoop (now : float) (queue : list (list Z))
    (buffer : PacketBuffer) (c : t) : t :=
  match queue with
  | [] => c
  | dgram :: queue' =>
      if negb (socket_ c) then c else
      if (length dgram =? 0)%nat then c else
      let buffer := recv_into dgram buffer in
      let '(header, buffer) := PacketBuffer.readHeader buffer in
      if negb (PacketHeader.isValid header) then receiveLoop now queue' buffer c
      else receiveLoop now queue' buffer (handlePacket header buffer now c)
  end.

Definition receivePackets (now : float) (queue : list (list Z)) (c : t) : t :=
  receiveLoop now queue new_buffer c.

(** [update(deltaTime)], with the datagrams waiting on the socket. *)
Definition update (deltaTime : float) (queue : list (list Z)) (c : t) : t :=
  if decide (state_ c = DISCONNECTED) then c else
  let now := getTime c in
  let c := receivePackets now queue c in
  if decide (state_ c = CONNECTING) then
    if F32.ltb CONNECTION_TIMEOUT (F32.sub now (connectStartTime_ c)) then disconnect c
    else if F32.ltb F32.one (F32.sub now (lastSendTime_ c)) then sendConnectRequest c
    else c
  else if decide (state_ c = CONNECTED) then
    if F32.ltb CONNECTION_TIMEOUT (F32.sub now (lastReceiveTime_ c)) then disconnect c
    else if F32.ltb HEARTBEAT_INTERVAL (F32.sub now (lastSendTime_ c)) then sendHeartbeat c
    else c
  else c.

(** The buffer [sendInput] hands to [sendToServer]: the client after
    the prediction step and the increment of [localSequence_]. *)
Definition inputBuffer (c : t) : PacketBuffer :=
  let buffer := new_buffer in
  let header := PacketHeader.default{{
                  PacketHeader.type := PacketType.INPUT;
                  PacketHeader.sequence := localSequence_ c;
                  PacketHeader.ack := remoteSequence_ c;
                  PacketHeader.ackBits := ackBits_ c;
                  PacketHeader.tick := serverTick_ c }} in
  let headerPos := PacketBuffer.writePos buffer in
  let buffer := buffer{{ PacketBuffer.writePos := (PacketBuffer.writePos buffer + 22)%nat }} in
  let unacked := InputHistory.getUnacknowledged (inputHistory_ c) in
  let count := Nat.min (length unacked) 5 in
  let buffer := foldl (fun b input => PacketBuffer.writePlayerInput input b)
                      buffer (drop (length unacked - count) unacked) in
  let header := header{{ PacketHeader.payloadSize :=
                  wrap16 (Z.of_nat (PacketBuffer.writePos buffer) - Z.of_nat headerPos - 22) }} in
  let savedPos := PacketBuffer.writePos buffer in
  let buffer := buffer{{ PacketBuffer.writePos := headerPos }} in
  let buffer := PacketBuffer.writeHeader header buffer in
  buffer{{ PacketBuffer.writePos := savedPos }}.

Definition sendInput (input : PlayerInput) (c : t) : t :=
  if decide (state_ c = CONNECTED) then
    let c := c{{ inputSequence_ := wrap32 (inputSequence_ c + 1) }} in
    let seqInput := input{{ PlayerInput.sequence := inputSequence_ c;
                            PlayerInput.tick := serverTick_ c }} in
    let predicted := applyInputToState (localState_ c) seqInput in
    let predicted := predicted{{ PlayerState.tick := serverTick_ c }} in
    let c := c{{ inputHistory_ ::= InputHistory.addInput seqInput predicted }} in
    let c := c{{ localState_ := predicted }} in
    let c := c{{ localSequence_ := wrap32 (localSequence_ c + 1) }} in
    sendToServer (inputBuffer c) c
  else c.
End Prediction.

(** [connect(host, port)] when the socket is created and bound: [addr]
    is the address [host] and [port] resolve to. *)
Definition connect (addr : sockaddr_in) (c : t) : t :=
  let c := c{{ socket_ := true }} in
  let c := c{{ serverAddr_ := addr }} in
  let c := c{{ state_ := CONNECTING }} in
  let c := c{{ connectStartTime_ := getTime c }} in
  sendConnectRequest c.

(** [renderTick] of [getInterpolatedPlayers]. *)
Definition renderTick (c : t) : Z :=
  let delay := F32.to_u32 (F32.div INTERPOLATION_DELAY TICK_INTERVAL) in
  if delay <? serverTick_ c then wrap32 (serverTick_ c - delay) else 0.

(** [getInterpolatedPlayers()]: the loop visits every key of
    [interpolationStates_] once and assigns [result[id]] at most once,
    so the result is the map of the assigned values.  The local
    [interpolated] is read only after [interpolate] returned true and
    stored into it. *)
Definition getInterpolatedPlayers (c : t) : gmap Z PlayerState :=
  map_imap (fun id interpState =>
              if id =? playerId_ c then None else
              let '(ok, interpolated) :=
                InterpolationState.interpolate interpState (renderTick c)
                  PlayerState.default in
              if ok then Some interpolated else remotePlayers_ c !! id)
           (interpolationStates_ c).

Definition isConnected (c : t) : bool := bool_decide (state_ c = CONNECTED).
Definition getPlayerCount (c : t) : nat := (size (remotePlayers_ c) + 1)%nat.
End Client.
Abbreviation Client := Client.t.

(** ** Wire images

    The byte sequences the writers emit, and what it means for a buffer to
    hold a byte sequence at its read cursor.  These are used to state and
    prove the codec properties; the code above does not use them. *)

Definition bytes16 (v : Z) : list Z :=
  [Z.land v 0xFF; Z.land (Z.shiftr v 8) 0xFF].

Definition bytes32 (v : Z) : list Z :=
  bytes16 (Z.land v 0xFFFF) ++ bytes16 (Z.land (Z.shiftr v 16) 0xFFFF).

Definition header_bytes (h : PacketHeader) : list Z :=
  take 4 (PacketHeader.magic h) ++ [PacketHeader.type h]
  ++ bytes32 (PacketHeader.sequence h) ++ bytes32 (PacketHeader.ack h)
  ++ bytes32 (PacketHeader.ackBits h) ++ bytes32 (PacketHeader.tick h)
  ++ bytes16 (PacketHeader.payloadSize h).

Definition input_bytes (i : PlayerInput) : list Z :=
  bytes32 (PlayerInput.sequence i) ++ bytes32 (PlayerInput.tick i)
  ++ [PlayerInput.keys i]
  ++ bytes32 (PlayerInput.yaw i) ++ bytes32 (PlayerInput.pitch i)
  ++ bytes32 (PlayerInput.deltaTime i).

Definition state_bytes (s : PlayerState) : list Z :=
  bytes32 (PlayerState.playerId s) ++ bytes32 (PlayerState.tick s)
  ++ bytes32 (Vec3.x (PlayerState.position s))
  ++ bytes32 (Vec3.y (PlayerState.position s))
  ++ bytes32 (Vec3.z (PlayerState.position s))
  ++ bytes32 (PlayerState.yaw s) ++ bytes32 (PlayerState.pitch s)
  ++ bytes32 (PlayerState.lastProcessedInput s).

(** Writing the bytes of a list one [writeU8] at a time. *)
Definition put (bs : list Z) (b : PacketBuffer) : PacketBuffer :=
  foldl (fun b v => PacketBuffer.writeU8 v b) b bs.

(** [bs] are the next bytes at the read cursor, all below the write
    cursor. *)
Definition holds (b : PacketBuffer) (bs : list Z) : Prop :=
  (PacketBuffer.readPos b + length bs <= PacketBuffer.writePos b)%nat /\
  exists post, drop (PacketBuffer.readPos b) (PacketBuffer.data b) = bs ++ post.

(** Room for [n] more bytes in a buffer whose array has its 1400 bytes. *)
Definition room (n : nat) (b : PacketBuffer) : Prop :=
  length (PacketBuffer.data b) = MAX_PACKET_SIZE /\
  (PacketBuffer.writePos b + n <= MAX_PACKET_SIZE)%nat.

(** ** Initial states *)

(** [Host()] followed by a successful [start]: running, tick 0, next
    player id 1, no connection, no player. *)
Definition new_host : Host :=
  Host.mk true 0 1 F32.zero F32.zero ∅ ∅ F32.zero [] [].

(** [Client()]: DISCONNECTED, every counter 0 ([ackBits_] is not
    initialised by the constructor; 0 stands for it). *)
Definition new_client : Client :=
  Client.mk false {| sin_addr := 0; sin_port := 0 |} DISCONNECTED
    0 0 0 0 0 0 F32.zero F32.zero F32.zero F32.c0_1
    PlayerState.default PlayerState.default ∅ ∅ InputHistory.empty
    F32.zero [] [].

(** A client as it is after [connect] and a CONNECT_ACCEPT for player
    [playerId] at server tick [tick]. *)
Definition connected_client (playerId tick : Z) : Client :=
  new_client{{
    Client.socket_ := true;
    Client.state_ := CONNECTED;
    Client.playerId_ := playerId;
    Client.serverTick_ := tick;
    Client.localSequence_ := 1;
    Client.remoteSequence_ := 1;
    Client.ackBits_ := 1;
    Client.localState_ :=
      PlayerState.mk playerId tick Client.spawn_position F32.cm90 F32.zero 0 }}.

(** A stand-in for libm to run examples with: the cosine and sine of
    yaw 0, whatever the argument. *)
Definition example_libm : Libm := {| cosf := fun _ => F32.one; sinf := fun _ => F32.zero |}.

(** ** The movement rule in the specification's words

    "Let v = 5.0 * input.deltaTime; let theta = input.yaw * pi/180.
    Update position: bit 0 (W): x += cos theta * v; z += sin theta * v;
    bit 1 (S): x -= cos theta * v; z -= sin theta * v;
    bit 2 (A): x += sin theta * v; z -= cos theta * v;
    bit 3 (D): x -= sin theta * v; z += cos theta * v;
    bit 4: y += v; bit 5: y -= v.
    Then state.yaw <- input.yaw; state.pitch <- input.pitch." *)

Definition spec_moves (c s v : float) : list (Z * (Vec3 -> Vec3)) :=
  [ (0, fun p => Vec3.mk (F32.add (Vec3.x p) (F32.mul c v)) (Vec3.y p)
                         (F32.add (Vec3.z p) (F32.mul s v)));
    (1, fun p => Vec3.mk (F32.sub (Vec3.x p) (F32.mul c v)) (Vec3.y p)
                         (F32.sub (Vec3.z p) (F32.mul s v)));
    (2, fun p => Vec3.mk (F32.add (Vec3.x p) (F32.mul s v)) (Vec3.y p)
                         (F32.sub (Vec3.z p) (F32.mul c v)));
    (3, fun p => Vec3.mk (F32.sub (Vec3.x p) (F32.mul s v)) (Vec3.y p)
                         (F32.add (Vec3.z p) (F32.mul c v)));
    (4, fun p => Vec3.mk (Vec3.x p) (F32.add (Vec3.y p) v) (Vec3.z p));
    (5, fun p => Vec3.mk (Vec3.x p) (F32.sub (Vec3.y p) v) (Vec3.z p)) ].

Definition spec_applyInput `{Libm} (state : PlayerState) (input : PlayerInput)
  : Vec3 * float * float :=
  let v := F32.mul F32.c5 (PlayerInput.deltaTime input) in
  let theta := F32.deg2rad (PlayerInput.yaw input) in
  let position :=
    foldl (fun p m => if Z.testbit (PlayerInput.keys input) m.1 then m.2 p else p)
          (PlayerState.position state)
          (spec_moves (cosf theta) (sinf theta) v) in
  (position, PlayerInput.yaw input, PlayerInput.pitch input).

(** Position, yaw and pitch of a player state. *)
Definition pose (s : PlayerState) : Vec3 * float * float :=
  (PlayerState.position s, PlayerState.yaw s, PlayerState.pitch s).

(** ** Order of the input history

    The logical slice of an [InputHistory] is in non-decreasing sequence
    order: what [Client::sendInput] produces, since it numbers the inputs
    with [++inputSequence_]. *)
Definition sequences (l : list PlayerInput) : list Z := map PlayerInput.sequence l.

Definition history_sorted (h : InputHistory) : Prop :=
  Sorted Z.le (sequences (InputHistory.getUnacknowledged h)).

(** Sequence numbers strictly increasing, all above [floor]. *)
Fixpoint increasing_above (floor : Z) (l : list PlayerInput) : Prop :=
  match l with
  | [] => True
  | i :: l' => floor < PlayerInput.sequence i /\ increasing_above (PlayerInput.sequence i) l'
  end.

(** What an acknowledgement up to [k] leaves of a list of inputs: it
    drops inputs from the front until one has a sequence above [k]. *)
Fixpoint ack_list (k : Z) (l : list PlayerInput) : list PlayerInput :=
  match l with
  | [] => []
  | i :: l' => if PlayerInput.sequence i <=? k then ack_list k l' else l
  end.

(** ** Example data *)

(** The CONNECT_ACCEPT datagram a host at tick 9 sends to player 7 as the
    second packet of the connection. *)
Definition accept_datagram : list Z :=
  let header := PacketHeader.default{{
                  PacketHeader.type := PacketType.CONNECT_ACCEPT;
                  PacketHeader.sequence := 2;
                  PacketHeader.tick := 9 }} in
  let buffer := PacketBuffer.writeHeader header new_buffer in
  let buffer := PacketBuffer.writeU32 7 buffer in
  let buffer := PacketBuffer.writeU32 9 buffer in
  take (PacketBuffer.writePos buffer) (PacketBuffer.data buffer).

(** An input with key W held, looking along yaw 0, for a tenth of a
    second. *)
Definition input_W (sequence : Z) : PlayerInput :=
  PlayerInput.mk sequence 0 0x01 F32.zero F32.zero F32.c0_1.

(** A remote-player state at [tick], standing at [x] on the x axis. *)
Definition state_at (tick x : Z) : PlayerState :=
  PlayerState.mk 1 tick (Vec3.mk (F32.of_Z x) F32.zero F32.zero) F32.zero F32.zero 0.

(** A peer address, and the CONNECT_REQUEST datagram a client sends
    first. *)
Definition example_addr : sockaddr_in := {| sin_addr := 2130706433; sin_port := 40000 |}.

Definition request_datagram : list Z :=
  let header := PacketHeader.default{{
                  PacketHeader.type := PacketType.CONNECT_REQUEST;
                  PacketHeader.sequence := 1 }} in
  let buffer := PacketBuffer.writeHeader header new_buffer in
  take (PacketBuffer.writePos buffer) (PacketBuffer.data buffer).

(** A host with one connected player: [new_host] after it has received
    [request_datagram] from [example_addr]. *)
Definition host_with_player : Host :=
  Host.receivePackets F32.zero [(example_addr, request_datagram)] new_host.

(** A buffer as [receivePackets] sets it up for a datagram. *)
Definition received (dgram : list Z) : PacketBuffer :=
  recv_into dgram new_buffer.

(** The reliability state of a peer: the highest sequence received and
    the ack bitfield. *)
Definition client_acks (c : Client) : Z * Z :=
  (Client.remoteSequence_ c, Client.ackBits_ c).

Definition connection_acks (conn : Connection) : Z * Z :=
  (Connection.remoteSequence conn, Connection.ackBits conn).

(** The ring of an [InputHistory] is well formed: 64 slots, [head] an
    index of the ring, at most 64 inputs. *)
Definition history_wf (h : InputHistory) : Prop :=
  length (InputHistory.inputs h) = INPUT_BUFFER_SIZE /\
  (InputHistory.head h < INPUT_BUFFER_SIZE)%nat /\
  (InputHistory.count h <= INPUT_BUFFER_SIZE)%nat.

(** What the client keeps true of its history: the ring is well formed,
    the stored inputs are in sequence order, and none is numbered above
    [inputSequence_]. *)
Definition history_inv (c : Client) : Prop :=
  history_wf (Client.inputHistory_ c) /\
  history_sorted (Client.inputHistory_ c) /\
  Forall (fun q => q <= Client.inputSequence_ c)
         (sequences (InputHistory.getUnacknowledged (Client.inputHistory_ c))).

(** ** Further wire images and invariants *)

Definition vec3_bytes (v : Vec3) : list Z :=
  bytes32 (Vec3.x v) ++ bytes32 (Vec3.y v) ++ bytes32 (Vec3.z v).

Definition entity_bytes (e : EntityState) : list Z :=
  bytes32 (EntityState.entityId e) ++ [EntityState.entityType e]
  ++ vec3_bytes (EntityState.position e) ++ vec3_bytes (EntityState.velocity e)
  ++ bytes32 (EntityState.yaw e) ++ bytes32 (EntityState.pitch e).

Definition vec3_wf (v : Vec3) : Prop :=
  is_u32 (Vec3.x v) /\ is_u32 (Vec3.y v) /\ is_u32 (Vec3.z v).

Definition entity_wf (e : EntityState) : Prop :=
  is_u32 (EntityState.entityId e) /\ is_u8 (EntityState.entityType e) /\
  vec3_wf (EntityState.position e) /\ vec3_wf (EntityState.velocity e) /\
  is_u32 (EntityState.yaw e) /\ is_u32 (EntityState.pitch e).

(** The sequence numbers a reliability state [(R, B)] reports as
    received: [R - i] for every bit [i] of [B] that is set. *)
Definition recorded (acks : Z * Z) (q : Z) : Prop :=
  exists i, 0 <= i < 32 /\ Z.testbit acks.2 i = true /\ q = acks.1 - i.

(** The inputs of a queue that [processTick] applies: those numbered
    above every input applied before them. *)
Fixpoint accepted (floor : Z) (l : list PlayerInput) : list PlayerInput :=
  match l with
  | [] => []
  | i :: l' =>
      if floor <? PlayerInput.sequence i
      then i :: accepted (PlayerInput.sequence i) l'
      else accepted floor l'
  end.

(** Every queued input is numbered above the last processed one. *)
Definition pending_fresh (conn : Connection) : Prop :=
  Forall (fun i => Connection.lastProcessedInput conn < PlayerInput.sequence i)
         (Connection.pendingInputs conn).

(** One step of the host simulation on a player state: the movement
    rule, then the tick and the input number the host records. *)
Definition simulate `{Libm} (tick : Z) (s : PlayerState) (i : PlayerInput) : PlayerState :=
  (Client.applyInputToState s i){{
     PlayerState.tick := tick;
     PlayerState.lastProcessedInput := PlayerInput.sequence i }}.

(** A connection after [processTick]: the queue is empty and the last
    processed input is that of the last input applied. *)
Definition drained (conn : Connection) : Connection :=
  conn{{ Connection.pendingInputs := [];
         Connection.lastProcessedInput :=
           List.last (sequences (accepted (Connection.lastProcessedInput conn)
                                          (Connection.pendingInputs conn)))
                     (Connection.lastProcessedInput conn) }}.

(** A second peer address. *)
Definition example_addr2 : sockaddr_in := {| sin_addr := 2130706433; sin_port := 40001 |}.

(** The write operations of [PacketBuffer], as data. *)
Inductive write_op :=
| WriteU8 (v : Z)
| WriteU16 (v : Z)
| WriteU32 (v : Z)
| WriteFloat (v : float)
| WriteVec3 (v : Vec3)
| WriteBytes (src : list Z)
| WriteHeader (h : PacketHeader)
| WritePlayerInput (i : PlayerInput)
| WritePlayerState (s : PlayerState)
| WriteEntityState (e : EntityState).

Definition run_write (op : write_op) : PacketBuffer -> PacketBuffer :=
  match op with
  | WriteU8 v => PacketBuffer.writeU8 v
  | WriteU16 v => PacketBuffer.writeU16 v
  | WriteU32 v => PacketBuffer.writeU32 v
  | WriteFloat v => PacketBuffer.writeFloat v
  | WriteVec3 v => PacketBuffer.writeVec3 v
  | WriteBytes src => PacketBuffer.writeBytes src
  | WriteHeader h => PacketBuffer.writeHeader h
  | WritePlayerInput i => PacketBuffer.writePlayerInput i
  | WritePlayerState s => PacketBuffer.writePlayerState s
  | WriteEntityState e => PacketBuffer.writeEntityState e
  end.

(** A read operation leaves the bytes and the write cursor alone and
    moves the read cursor forward, never past the write cursor. *)
Definition read_in_bounds {A} (m : PacketBuffer.Rd A) : Prop :=
  forall b : PacketBuffer,
    PacketBuffer.data (m b).2 = PacketBuffer.data b /\
    PacketBuffer.writePos (m b).2 = PacketBuffer.writePos b /\
    (PacketBuffer.readPos b <= PacketBuffer.readPos (m b).2)%nat /\
    ((PacketBuffer.readPos b <= PacketBuffer.writePos b)%nat ->
     (PacketBuffer.readPos (m b).2 <= PacketBuffer.writePos b)%nat).

(** A read operation that finds [n] bytes before the write cursor moves
    the read cursor by [n]. *)
Definition advances {A} (n : nat) (m : PacketBuffer.Rd A) : Prop :=
  forall b : PacketBuffer,
    (PacketBuffer.readPos b + n <= PacketBuffer.writePos b)%nat ->
    PacketBuffer.readPos (m b).2 = (PacketBuffer.readPos b + n)%nat.

(** The bytes a write operation emits. *)
Definition op_bytes (op : write_op) : list Z :=
  match op with
  | WriteU8 v => [v]
  | WriteU16 v => bytes16 v
  | WriteU32 v => bytes32 v
  | WriteFloat v => bytes32 v
  | WriteVec3 v => vec3_bytes v
  | WriteBytes src => src
  | WriteHeader h => header_bytes h
  | WritePlayerInput i => input_bytes i
  | WritePlayerState s => state_bytes s
  | WriteEntityState e => entity_bytes e
  end.

(** The operations built on [writeU8], which writes byte by byte; the
    other two go through [writeBytes]. *)
Definition bytewise (op : write_op) : bool :=
  match op with
  | WriteBytes _ | WriteHeader _ => false
  | _ => true
  end.

(** [b'] extends [b]: same array size, same read cursor, the write
    cursor not moved back and still within the array, the bytes written
    before untouched. *)
Definition extends (b b' : PacketBuffer) : Prop :=
  room 0 b' /\
  PacketBuffer.readPos b' = PacketBuffer.readPos b /\
  (PacketBuffer.writePos b <= PacketBuffer.writePos b')%nat /\
  take (PacketBuffer.writePos b) (PacketBuffer.data b')
  = take (PacketBuffer.writePos b) (PacketBuffer.data b).

(** ** Broadcasts *)

(** The bytes [sendTo] hands to [sendto]. *)
Definition datagram (buffer : PacketBuffer) : list Z :=
  take (PacketBuffer.writePos buffer) (PacketBuffer.data buffer).

(** A connection that has taken the next sequence number for a packet. *)
Definition next_sequence (conn : Connection) : Connection :=
  conn{{ Connection.localSequence := wrap32 (Connection.localSequence conn + 1) }}.

(** What a broadcast leaves of a connection: it has taken a sequence
    number when it is CONNECTED. *)
Definition after_broadcast (conn : Connection) : Connection :=
  if decide (Connection.state conn = CONNECTED) then next_sequence conn else conn.

(** The ENTITY_DESTROY packet for [entityId] that a host at [tick]
    sends on [conn], which has taken the sequence number. *)
Definition destroy_datagram (entityId tick : Z) (conn : Connection) : list Z :=
  let header := PacketHeader.default{{
                  PacketHeader.type := PacketType.ENTITY_DESTROY;
                  PacketHeader.sequence := Connection.localSequence conn;
                  PacketHeader.tick := tick }} in
  datagram (PacketBuffer.writeU32 entityId (PacketBuffer.writeHeader header new_buffer)).

(** The ENTITY_CREATE packet for player [entityId] at [position]. *)
Definition create_datagram (entityId tick : Z) (position : Vec3) (conn : Connection)
  : list Z :=
  let header := PacketHeader.default{{
                  PacketHeader.type := PacketType.ENTITY_CREATE;
                  PacketHeader.sequence := Connection.localSequence conn;
                  PacketHeader.tick := tick }} in
  datagram (PacketBuffer.writeVec3 position
              (PacketBuffer.writeU8 0
                 (PacketBuffer.writeU32 entityId
                    (PacketBuffer.writeHeader header new_buffer)))).

(** The DISCONNECT packet a host sends on [conn]. *)
Definition disconnect_datagram (conn : Connection) : list Z :=
  let header := PacketHeader.default{{
                  PacketHeader.type := PacketType.DISCONNECT;
                  PacketHeader.sequence := Connection.localSequence conn }} in
  datagram (PacketBuffer.writeHeader header new_buffer).

(** The packets a loop over the connections sends: [out] for each
    CONNECTED connection, in the order of the loop. *)
Definition broadcast (out : Z -> Connection -> list (sockaddr_in * list Z))
    (conns : gmap Z Connection) : list (sockaddr_in * list Z) :=
  concat (map (fun kv => out kv.1 kv.2) (map_to_list conns)).


(** The CONNECT_ACCEPT packet a host at [tick] sends on [conn], which
    has taken the sequence number. *)
Definition connect_accept_datagram (tick : Z) (conn : Connection) : list Z :=
  let header := PacketHeader.default{{
                  PacketHeader.type := PacketType.CONNECT_ACCEPT;
                  PacketHeader.sequence := Connection.localSequence conn;
                  PacketHeader.tick := tick }} in
  datagram (PacketBuffer.writeU32 tick
              (PacketBuffer.writeU32 (Connection.playerId conn)
                 (PacketBuffer.writeHeader header new_buffer))).

(** The input history of a client together with the counter that
    numbers its inputs. *)
Definition client_history (c : Client) : InputHistory * Z :=
  (Client.inputHistory_ c, Client.inputSequence_ c).

(** What [disconnect] does not reset: the acknowledgement state and the
    input counter. *)
Definition client_counters (c : Client) : Z * Z * Z :=
  (Client.remoteSequence_ c, Client.ackBits_ c, Client.inputSequence_ c).

(** What identifies a client and its view of the peers, apart from the
    states of the remote players. *)
Definition client_session (c : Client)
  : Z * ConnectionState * list Client.event * list (list Z) :=
  (Client.playerId_ c, Client.state_ c, Client.events c, Client.sent c).

(** The first [n] inputs a reader decodes from [buffer], one
    [readPlayerInput] after the other. *)
Fixpoint decoded_inputs (n : nat) (buffer : PacketBuffer) : list PlayerInput :=
  match n with
  | O => []
  | S n' =>
      let '(input, buffer) := PacketBuffer.readPlayerInput buffer in
      input :: decoded_inputs n' buffer
  end.

(** A connected client that has predicted two inputs (W held for 0.1 s
    each, numbered 1 and 2), which its history still holds: it stands at
    (1, 1.7, 5). *)
Definition predicting_client : Client :=
  @Client.sendInput example_libm (input_W 0)
    (@Client.sendInput example_libm (input_W 0) (connected_client 1 0)).

(** A server state of player 1 that has processed input 1 and stands
    [d] away from [predicting_client] on each of the three axes. *)
Definition server_state_off (d : float) : PlayerState :=
  let p := PlayerState.position (Client.localState_ predicting_client) in
  PlayerState.mk 1 5
    (Vec3.mk (F32.add (Vec3.x p) d) (F32.add (Vec3.y p) d) (F32.add (Vec3.z p) d))
    F32.cm90 F32.zero 1.
(** * Properties *)

(** ** Bytes of fixed-width integers *)

Lemma lor_shiftl_add (lo hi k : Z) :
  0 <= k -> 0 <= lo < 2 ^ k -> Z.lor lo (Z.shiftl hi k) = lo + hi * 2 ^ k.
Proof.
  intros Hk Hlo. rewrite <- Z.shiftl_mul_pow2 by lia.
  symmetry. apply Z.add_nocarry_lor.
  apply Z.bits_inj'. intros n Hn. rewrite Z.land_spec, Z.bits_0.
  destruct (Z.lt_ge_cases n k) as [Hlt | Hge].
  - rewrite (Z.shiftl_spec_low _ _ _ Hlt). apply andb_false_r.
  - assert (Z.testbit lo n = false) as ->; [| reflexivity].
    destruct (Z.eq_dec lo 0) as [-> | Hnz]; [apply Z.bits_0 |].
    apply Z.bits_above_log2; [lia |].
    apply Z.log2_lt_pow2; [lia |].
    apply Z.lt_le_trans with (2 ^ k); [lia |].
    apply Z.pow_le_mono_r; lia.
Qed.

Lemma land_FF (v : Z) : Z.land v 0xFF = v mod 2 ^ 8.
Proof. change 0xFF with (Z.ones 8). apply Z.land_ones. lia. Qed.

Lemma land_FFFF (v : Z) : Z.land v 0xFFFF = v mod 2 ^ 16.
Proof. change 0xFFFF with (Z.ones 16). apply Z.land_ones. lia. Qed.

Lemma u16_join (v : Z) :
  is_u16 v ->
  wrap16 (Z.lor (Z.land v 0xFF) (Z.shiftl (Z.land (Z.shiftr v 8) 0xFF) 8)) = v.
Proof.
  unfold is_u16, wrap16. intros Hv.
  rewrite !land_FF, Z.shiftr_div_pow2 by lia.
  rewrite lor_shiftl_add by (try apply Z.mod_pos_bound; lia).
  change (2 ^ 8) with 256 in *. change (2 ^ 16) with 65536 in *.
  Z.div_mod_to_equations. lia.
Qed.

Lemma u32_join (v : Z) :
  is_u32 v ->
  Z.lor (Z.land v 0xFFFF) (wrap32 (Z.shiftl (Z.land (Z.shiftr v 16) 0xFFFF) 16)) = v.
Proof.
  unfold is_u32, wrap32. intros Hv.
  rewrite !land_FFFF, Z.shiftr_div_pow2, Z.shiftl_mul_pow2 by lia.
  change (2 ^ 16) with 65536 in *. change (2 ^ 32) with 4294967296 in *.
  assert (((v / 65536) mod 65536 * 65536) mod 4294967296
          = (v / 65536) mod 65536 * 65536) as ->
    by (Z.div_mod_to_equations; lia).
  rewrite <- (Z.shiftl_mul_pow2 _ 16) by lia.
  rewrite lor_shiftl_add by (try apply Z.mod_pos_bound; lia).
  change (2 ^ 16) with 65536. Z.div_mod_to_equations. lia.
Qed.

Lemma land_FFFF_u16 (v : Z) : is_u16 (Z.land v 0xFFFF).
Proof. rewrite land_FFFF. apply Z.mod_pos_bound. lia. Qed.

(** ** The buffer after a run of writes *)

Lemma put_app (xs ys : list Z) (b : PacketBuffer) :
  put (xs ++ ys) b = put ys (put xs b).
Proof. unfold put. apply foldl_app. Qed.

Lemma writeU16_put (v : Z) (b : PacketBuffer) :
  PacketBuffer.writeU16 v b = put (bytes16 v) b.
Proof. reflexivity. Qed.

Lemma writeU8_put (v : Z) (b : PacketBuffer) :
  PacketBuffer.writeU8 v b = put [v] b.
Proof. reflexivity. Qed.

Lemma writeU32_put (v : Z) (b : PacketBuffer) :
  PacketBuffer.writeU32 v b = put (bytes32 v) b.
Proof. reflexivity. Qed.

Lemma put_spec (bs : list Z) (b : PacketBuffer) :
  room (length bs) b ->
  put bs b =
  PacketBuffer.mk
    (take (PacketBuffer.writePos b) (PacketBuffer.data b) ++ bs
       ++ drop (PacketBuffer.writePos b + length bs) (PacketBuffer.data b))
    (PacketBuffer.writePos b + length bs)
    (PacketBuffer.readPos b).
Proof.
  unfold room. revert b. induction bs as [| v bs IH]; intros [d wp rp] [Hd Hwp]; simpl in *.
  - rewrite Nat.add_0_r, take_drop. reflexivity.
  - unfold put in *. simpl foldl. unfold PacketBuffer.writeU8 at 2. simpl.
    assert ((wp <? MAX_PACKET_SIZE)%nat = true) as -> by (apply Nat.ltb_lt; lia).
    cbn. rewrite IH; cbn.
    + f_equal; [| lia].
      rewrite take_S_r with (x := v)
        by (apply list_lookup_insert_eq; lia).
      rewrite take_insert_ge by lia.
      rewrite <- app_assoc. simpl. do 2 f_equal.
      rewrite drop_insert_lt by lia.
      replace (S (wp + length bs)) with (wp + S (length bs))%nat by lia. reflexivity.
    + rewrite length_insert. split; [assumption | lia].
Qed.

Lemma put_room (bs : list Z) (n : nat) (b : PacketBuffer) :
  room (length bs + n) b -> room n (put bs b).
Proof.
  intros [Hd Hwp]. rewrite put_spec by (split; [assumption | lia]).
  unfold room; cbn. split; [| lia].
  rewrite !length_app, length_take, length_drop. lia.
Qed.

Lemma writeBytes_put (src : list Z) (b : PacketBuffer) :
  room (length src) b -> PacketBuffer.writeBytes src b = put src b.
Proof.
  intros Hr. rewrite put_spec by assumption. destruct Hr as [Hd Hwp].
  unfold PacketBuffer.writeBytes.
  assert ((PacketBuffer.writePos b + length src <=? MAX_PACKET_SIZE)%nat = true) as ->
    by (apply Nat.leb_le; lia).
  destruct b; reflexivity.
Qed.

Lemma writeHeader_put (h : PacketHeader) (b : PacketBuffer) :
  length (PacketHeader.magic h) = 4%nat -> room 4 b ->
  PacketBuffer.writeHeader h b = put (header_bytes h) b.
Proof.
  intros Hm Hr. unfold PacketBuffer.writeHeader, header_bytes.
  rewrite writeBytes_put by (rewrite length_take, Hm; exact Hr).
  rewrite !writeU32_put, writeU16_put, writeU8_put, !put_app. reflexivity.
Qed.

Lemma writePlayerInput_put (i : PlayerInput) (b : PacketBuffer) :
  PacketBuffer.writePlayerInput i b = put (input_bytes i) b.
Proof.
  unfold PacketBuffer.writePlayerInput, PacketBuffer.writeFloat, input_bytes.
  rewrite !writeU32_put, writeU8_put, !put_app. reflexivity.
Qed.

Lemma writePlayerState_put (s : PlayerState) (b : PacketBuffer) :
  PacketBuffer.writePlayerState s b = put (state_bytes s) b.
Proof.
  unfold PacketBuffer.writePlayerState, PacketBuffer.writeVec3,
    PacketBuffer.writeFloat, state_bytes.
  rewrite !writeU32_put, !put_app. reflexivity.
Qed.

Lemma length_bytes32 (v : Z) : length (bytes32 v) = 4%nat.
Proof. reflexivity. Qed.

Lemma length_header_bytes (h : PacketHeader) :
  length (PacketHeader.magic h) = 4%nat -> length (header_bytes h) = 23%nat.
Proof.
  intros Hm. unfold header_bytes. rewrite !length_app, length_take, Hm. reflexivity.
Qed.

Lemma length_input_bytes (i : PlayerInput) : length (input_bytes i) = 21%nat.
Proof. reflexivity. Qed.

Lemma length_state_bytes (s : PlayerState) : length (state_bytes s) = 32%nat.
Proof. reflexivity. Qed.

(** Right after a run of writes that started at the read cursor, the
    buffer holds the bytes written. *)
Lemma holds_put (bs : list Z) (b : PacketBuffer) :
  room (length bs) b -> PacketBuffer.readPos b = PacketBuffer.writePos b ->
  holds (put bs b) bs.
Proof.
  intros Hr Hrp. rewrite put_spec by assumption. destruct Hr as [Hd Hwp].
  unfold holds; cbn. split; [lia |].
  exists (drop (PacketBuffer.writePos b + length bs) (PacketBuffer.data b)).
  rewrite Hrp, drop_app_length'; [reflexivity |].
  rewrite length_take. lia.
Qed.

(** ** Reading back what the buffer holds *)

Lemma bind_eq {A B} (m : PacketBuffer.Rd A) (k : A -> PacketBuffer.Rd B)
    (b b' : PacketBuffer) (a : A) :
  m b = (a, b') -> PacketBuffer.bind m k b = k a b'.
Proof. unfold PacketBuffer.bind. intros ->. reflexivity. Qed.

Lemma readU8_holds (v : Z) (bs : list Z) (b : PacketBuffer) :
  holds b (v :: bs) ->
  exists b', PacketBuffer.readU8 b = (v, b') /\ holds b' bs.
Proof.
  intros [Hlen [post Hd]]. simpl in Hlen.
  exists (b{{ PacketBuffer.readPos := S (PacketBuffer.readPos b) }}).
  unfold PacketBuffer.readU8.
  assert ((PacketBuffer.readPos b <? PacketBuffer.writePos b)%nat = true) as ->
    by (apply Nat.ltb_lt; lia).
  assert (PacketBuffer.data b !! PacketBuffer.readPos b = Some v) as Hv.
  { rewrite <- (Nat.add_0_r (PacketBuffer.readPos b)), <- lookup_drop, Hd.
    reflexivity. }
  split.
  - f_equal. apply list_lookup_total_correct. exact Hv.
  - unfold holds. destruct b as [d wp rp]; cbn in *. split; [lia |].
    exists post. replace (S rp) with (rp + 1)%nat by lia.
    rewrite <- drop_drop, Hd. reflexivity.
Qed.

Lemma readU16_holds (v : Z) (bs : list Z) (b : PacketBuffer) :
  is_u16 v -> holds b (bytes16 v ++ bs) ->
  exists b', PacketBuffer.readU16 b = (v, b') /\ holds b' bs.
Proof.
  intros Hv Hh. simpl in Hh.
  destruct (readU8_holds _ _ _ Hh) as (b1 & E1 & H1).
  destruct (readU8_holds _ _ _ H1) as (b2 & E2 & H2).
  exists b2. split; [| exact H2].
  unfold PacketBuffer.readU16.
  rewrite (bind_eq _ _ _ _ _ E1), (bind_eq _ _ _ _ _ E2).
  unfold PacketBuffer.ret. f_equal. apply u16_join. exact Hv.
Qed.

Lemma readU32_holds (v : Z) (bs : list Z) (b : PacketBuffer) :
  is_u32 v -> holds b (bytes32 v ++ bs) ->
  exists b', PacketBuffer.readU32 b = (v, b') /\ holds b' bs.
Proof.
  intros Hv Hh. unfold bytes32 in Hh. rewrite <- app_assoc in Hh.
  destruct (readU16_holds _ _ _ (land_FFFF_u16 _) Hh) as (b1 & E1 & H1).
  destruct (readU16_holds _ _ _ (land_FFFF_u16 _) H1) as (b2 & E2 & H2).
  exists b2. split; [| exact H2].
  unfold PacketBuffer.readU32.
  rewrite (bind_eq _ _ _ _ _ E1), (bind_eq _ _ _ _ _ E2).
  unfold PacketBuffer.ret. f_equal. apply u32_join. exact Hv.
Qed.

Lemma readBytes_holds (src bs dst : list Z) (b : PacketBuffer) :
  holds b (src ++ bs) ->
  exists b', PacketBuffer.readBytes dst (length src) b
             = (src ++ drop (length src) dst, b') /\ holds b' bs.
Proof.
  intros [Hlen [post Hd]]. rewrite length_app in Hlen.
  exists (b{{ PacketBuffer.readPos := (PacketBuffer.readPos b + length src)%nat }}).
  unfold PacketBuffer.readBytes.
  assert ((PacketBuffer.readPos b + length src <=? PacketBuffer.writePos b)%nat = true)
    as -> by (apply Nat.leb_le; lia).
  split.
  - rewrite Hd, <- app_assoc, take_app_length. reflexivity.
  - unfold holds. destruct b as [d wp rp]; cbn in *. split; [lia |].
    exists post. rewrite <- drop_drop, Hd, <- app_assoc.
    rewrite drop_app_length. reflexivity.
Qed.

Lemma readVec3_holds (v : Vec3) (bs : list Z) (b : PacketBuffer) :
  is_u32 (Vec3.x v) -> is_u32 (Vec3.y v) -> is_u32 (Vec3.z v) ->
  holds b (bytes32 (Vec3.x v) ++ bytes32 (Vec3.y v) ++ bytes32 (Vec3.z v) ++ bs) ->
  exists b', PacketBuffer.readVec3 b = (v, b') /\ holds b' bs.
Proof.
  intros Hx Hy Hz Hh.
  destruct (readU32_holds _ _ _ Hx Hh) as (b1 & E1 & H1).
  destruct (readU32_holds _ _ _ Hy H1) as (b2 & E2 & H2).
  destruct (readU32_holds _ _ _ Hz H2) as (b3 & E3 & H3).
  exists b3. split; [| exact H3].
  unfold PacketBuffer.readVec3, PacketBuffer.readFloat.
  rewrite (bind_eq _ _ _ _ _ E1), (bind_eq _ _ _ _ _ E2), (bind_eq _ _ _ _ _ E3).
  destruct v; reflexivity.
Qed.

Lemma readHeader_holds (h : PacketHeader) (bs : list Z) (b : PacketBuffer) :
  PacketHeader.wf h -> holds b (header_bytes h ++ bs) ->
  exists b', PacketBuffer.readHeader b = (h, b') /\ holds b' bs.
Proof.
  intros (Hm & _ & Hty & Hs & Ha & Hab & Ht & Hp) Hh.
  unfold header_bytes in Hh. rewrite <- !app_assoc in Hh.
  assert (length (take 4 (PacketHeader.magic h)) = 4%nat) as Hl
    by (rewrite length_take; lia).
  destruct (readBytes_holds _ _ (PacketHeader.magic PacketHeader.default) _ Hh)
    as (b0 & E0 & H0).
  rewrite Hl in E0. simpl in H0.
  destruct (readU8_holds _ _ _ H0) as (b1 & E1 & H1).
  destruct (readU32_holds _ _ _ Hs H1) as (b2 & E2 & H2).
  destruct (readU32_holds _ _ _ Ha H2) as (b3 & E3 & H3).
  destruct (readU32_holds _ _ _ Hab H3) as (b4 & E4 & H4).
  destruct (readU32_holds _ _ _ Ht H4) as (b5 & E5 & H5).
  destruct (readU16_holds _ _ _ Hp H5) as (b6 & E6 & H6).
  exists b6. split; [| exact H6].
  unfold PacketBuffer.readHeader.
  rewrite (bind_eq _ _ _ _ _ E0), (bind_eq _ _ _ _ _ E1), (bind_eq _ _ _ _ _ E2),
    (bind_eq _ _ _ _ _ E3), (bind_eq _ _ _ _ _ E4), (bind_eq _ _ _ _ _ E5),
    (bind_eq _ _ _ _ _ E6).
  unfold PacketBuffer.ret. f_equal.
  rewrite take_ge by (rewrite Hm; lia).
  change (drop 4 (PacketHeader.magic PacketHeader.default)) with (@nil Z).
  rewrite app_nil_r. destruct h; reflexivity.
Qed.

Lemma readPlayerInput_holds (i : PlayerInput) (bs : list Z) (b : PacketBuffer) :
  PlayerInput.wf i -> holds b (input_bytes i ++ bs) ->
  exists b', PacketBuffer.readPlayerInput b = (i, b') /\ holds b' bs.
Proof.
  intros (Hs & Ht & _ & Hy & Hp & Hd) Hh.
  unfold input_bytes in Hh. rewrite <- !app_assoc in Hh.
  destruct (readU32_holds _ _ _ Hs Hh) as (b1 & E1 & H1).
  destruct (readU32_holds _ _ _ Ht H1) as (b2 & E2 & H2).
  simpl in H2.
  destruct (readU8_holds _ _ _ H2) as (b3 & E3 & H3).
  destruct (readU32_holds _ _ _ Hy H3) as (b4 & E4 & H4).
  destruct (readU32_holds _ _ _ Hp H4) as (b5 & E5 & H5).
  destruct (readU32_holds _ _ _ Hd H5) as (b6 & E6 & H6).
  exists b6. split; [| exact H6].
  unfold PacketBuffer.readPlayerInput, PacketBuffer.readFloat.
  rewrite (bind_eq _ _ _ _ _ E1), (bind_eq _ _ _ _ _ E2), (bind_eq _ _ _ _ _ E3),
    (bind_eq _ _ _ _ _ E4), (bind_eq _ _ _ _ _ E5), (bind_eq _ _ _ _ _ E6).
  destruct i; reflexivity.
Qed.

Lemma readPlayerState_holds (s : PlayerState) (bs : list Z) (b : PacketBuffer) :
  PlayerState.wf s -> holds b (state_bytes s ++ bs) ->
  exists b', PacketBuffer.readPlayerState b = (s, b') /\ holds b' bs.
Proof.
  intros (Hi & Ht & Hx & Hy & Hz & Hyw & Hp & Hl) Hh.
  unfold state_bytes in Hh. rewrite <- !app_assoc in Hh.
  destruct (readU32_holds _ _ _ Hi Hh) as (b1 & E1 & H1).
  destruct (readU32_holds _ _ _ Ht H1) as (b2 & E2 & H2).
  destruct (readVec3_holds _ _ _ Hx Hy Hz H2) as (b3 & E3 & H3).
  destruct (readU32_holds _ _ _ Hyw H3) as (b4 & E4 & H4).
  destruct (readU32_holds _ _ _ Hp H4) as (b5 & E5 & H5).
  destruct (readU32_holds _ _ _ Hl H5) as (b6 & E6 & H6).
  exists b6. split; [| exact H6].
  unfold PacketBuffer.readPlayerState, PacketBuffer.readFloat.
  rewrite (bind_eq _ _ _ _ _ E1), (bind_eq _ _ _ _ _ E2), (bind_eq _ _ _ _ _ E3),
    (bind_eq _ _ _ _ _ E4), (bind_eq _ _ _ _ _ E5), (bind_eq _ _ _ _ _ E6).
  destruct s; reflexivity.
Qed.

Lemma fresh_room (b : PacketBuffer) (n : nat) :
  PacketBuffer.fresh b -> (n <= MAX_PACKET_SIZE)%nat -> room n b.
Proof. intros (Hd & Hw & _) Hn. split; [exact Hd | lia]. Qed.

Lemma fresh_cursors (b : PacketBuffer) :
  PacketBuffer.fresh b -> PacketBuffer.readPos b = PacketBuffer.writePos b.
Proof. intros (_ & -> & ->). reflexivity. Qed.

(** C9. Wire codec round trip: on a fresh buffer, [readHeader] after
    [writeHeader h] returns [h] (magic, type, sequence, ack, ackBits, tick
    and payloadSize all equal), [readPlayerInput] after [writePlayerInput i]
    returns [i], and [readPlayerState] after [writePlayerState s] returns
    [s]. *)
Theorem codec_roundtrip (h : PacketHeader) (i : PlayerInput) (s : PlayerState)
    (b : PacketBuffer) :
  PacketHeader.wf h -> PlayerInput.wf i -> PlayerState.wf s ->
  PacketBuffer.fresh b ->
  (PacketBuffer.readHeader (PacketBuffer.writeHeader h b)).1 = h /\
  (PacketBuffer.readPlayerInput (PacketBuffer.writePlayerInput i b)).1 = i /\
  (PacketBuffer.readPlayerState (PacketBuffer.writePlayerState s b)).1 = s.
Proof.
  intros Hh Hi Hs Hb.
  pose proof (fresh_cursors b Hb) as Hc.
  assert (length (PacketHeader.magic h) = 4%nat) as Hm by exact (proj1 Hh).
  split; [| split].
  - rewrite writeHeader_put by (try apply fresh_room; unfold MAX_PACKET_SIZE; auto; lia).
    assert (holds (put (header_bytes h) b) (header_bytes h ++ [])) as Hhold.
    { rewrite app_nil_r. apply holds_put; [| exact Hc].
      apply fresh_room; [exact Hb |].
      rewrite length_header_bytes by exact Hm. unfold MAX_PACKET_SIZE. lia. }
    destruct (readHeader_holds _ _ _ Hh Hhold) as (b' & -> & _). reflexivity.
  - rewrite writePlayerInput_put.
    assert (holds (put (input_bytes i) b) (input_bytes i ++ [])) as Hhold.
    { rewrite app_nil_r. apply holds_put; [| exact Hc].
      apply fresh_room; [exact Hb |].
      rewrite length_input_bytes. unfold MAX_PACKET_SIZE. lia. }
    destruct (readPlayerInput_holds _ _ _ Hi Hhold) as (b' & -> & _). reflexivity.
  - rewrite writePlayerState_put.
    assert (holds (put (state_bytes s) b) (state_bytes s ++ [])) as Hhold.
    { rewrite app_nil_r. apply holds_put; [| exact Hc].
      apply fresh_room; [exact Hb |].
      rewrite length_state_bytes. unfold MAX_PACKET_SIZE. lia. }
    destruct (readPlayerState_holds _ _ _ Hs Hhold) as (b' & -> & _). reflexivity.
Qed.

(** ** The magic gate *)

Ltac destruct_reads :=
  repeat match goal with
         | |- context [let '(_, _) := ?e in _] => destruct e
         end.

Lemma readHeader_magic (b : PacketBuffer) :
  PacketHeader.magic (PacketBuffer.readHeader b).1
  = (PacketBuffer.readBytes (PacketHeader.magic PacketHeader.default) 4 b).1.
Proof.
  unfold PacketBuffer.readHeader, PacketBuffer.bind, PacketBuffer.ret.
  destruct_reads. reflexivity.
Qed.

Lemma readBytes_short (dst : list Z) (len : nat) (b : PacketBuffer) :
  (PacketBuffer.writePos b < PacketBuffer.readPos b + len)%nat ->
  PacketBuffer.readBytes dst len b = (dst, b).
Proof.
  intros Hlt. unfold PacketBuffer.readBytes.
  assert ((PacketBuffer.readPos b + len <=? PacketBuffer.writePos b)%nat = false) as ->
    by (apply Nat.leb_gt; lia).
  reflexivity.
Qed.

Lemma readHeader_short_valid (b : PacketBuffer) :
  (PacketBuffer.writePos b < 4)%nat ->
  PacketHeader.isValid (PacketBuffer.readHeader b).1 = true.
Proof.
  intros Hlt. unfold PacketHeader.isValid.
  rewrite readHeader_magic, readBytes_short by lia. reflexivity.
Qed.

Lemma recv_into_writePos (dgram : list Z) (buffer : PacketBuffer) :
  PacketBuffer.writePos (recv_into dgram buffer)
  = Nat.min MAX_PACKET_SIZE (length dgram).
Proof. exact (length_take _ _). Qed.

Lemma recv_into_readPos (dgram : list Z) (buffer : PacketBuffer) :
  PacketBuffer.readPos (recv_into dgram buffer) = 0%nat.
Proof. reflexivity. Qed.

(** C10. A buffer whose write cursor is below 4 decodes to a header that
    passes [isValid]: [readBytes] copies nothing, so the magic set by the
    constructor survives.  Hence a datagram of one to three bytes is not
    stopped by the magic gate of [receivePackets]: host and client hand it
    to [handlePacket]. *)
Theorem short_datagram_passes_magic_gate :
  (forall b : PacketBuffer,
      (PacketBuffer.writePos b < 4)%nat ->
      PacketHeader.isValid (PacketBuffer.readHeader b).1 = true) /\
  (forall (now : float) (fromAddr : sockaddr_in) (dgram : list Z)
          (queue : list (sockaddr_in * list Z)) (buffer : PacketBuffer) (h : Host),
      (0 < length dgram < 4)%nat ->
      let hb := PacketBuffer.readHeader (recv_into dgram buffer) in
      Host.receiveLoop now ((fromAddr, dgram) :: queue) buffer h
      = Host.receiveLoop now queue hb.2 (Host.handlePacket hb.1 hb.2 fromAddr now h)) /\
  (forall (L : Libm) (now : float) (dgram : list Z) (queue : list (list Z))
          (buffer : PacketBuffer) (c : Client),
      Client.socket_ c = true ->
      (0 < length dgram < 4)%nat ->
      let hb := PacketBuffer.readHeader (recv_into dgram buffer) in
      Client.receiveLoop now (dgram :: queue) buffer c
      = Client.receiveLoop now queue hb.2 (Client.handlePacket hb.1 hb.2 now c)).
Proof.
  split; [exact readHeader_short_valid | split].
  - intros now fromAddr dgram queue buffer h Hlen hb. simpl.
    assert ((length dgram =? 0)%nat = false) as -> by (apply Nat.eqb_neq; lia).
    pose proof (readHeader_short_valid (recv_into dgram buffer)) as Hv.
    rewrite recv_into_writePos in Hv. unfold MAX_PACKET_SIZE in Hv.
    specialize (Hv ltac:(lia)). subst hb.
    destruct (PacketBuffer.readHeader (recv_into dgram buffer)) as [header b'].
    simpl in *. rewrite Hv. reflexivity.
  - intros L now dgram queue buffer c Hsock Hlen hb. simpl.
    rewrite Hsock. simpl.
    assert ((length dgram =? 0)%nat = false) as -> by (apply Nat.eqb_neq; lia).
    pose proof (readHeader_short_valid (recv_into dgram buffer)) as Hv.
    rewrite recv_into_writePos in Hv. unfold MAX_PACKET_SIZE in Hv.
    specialize (Hv ltac:(lia)). subst hb.
    destruct (PacketBuffer.readHeader (recv_into dgram buffer)) as [header b'].
    simpl in *. rewrite Hv. reflexivity.
Qed.

Lemma isValid_false (m : list Z) (ty sq ak ab tk ps : Z) :
  length m = 4%nat -> m <> [80; 85; 76; 83] ->
  PacketHeader.isValid (PacketHeader.mk m ty sq ak ab tk ps) = false.
Proof.
  intros Hlen Hne.
  destruct m as [| m0 [| m1 [| m2 [| m3 [| ? ?]]]]]; try discriminate Hlen.
  unfold PacketHeader.isValid; cbn.
  destruct (Z.eqb_spec m0 80) as [-> |]; [| reflexivity].
  destruct (Z.eqb_spec m1 85) as [-> |]; [| reflexivity].
  destruct (Z.eqb_spec m2 76) as [-> |]; [| reflexivity].
  destruct (Z.eqb_spec m3 83) as [-> |]; [| reflexivity].
  contradiction.
Qed.

Lemma recv_into_magic (dgram : list Z) (buffer : PacketBuffer) :
  (4 <= length dgram)%nat ->
  PacketHeader.magic (PacketBuffer.readHeader (recv_into dgram buffer)).1
  = take 4 dgram.
Proof.
  intros Hlen. rewrite readHeader_magic. unfold PacketBuffer.readBytes.
  rewrite recv_into_writePos, recv_into_readPos.
  assert ((0 + 4 <=? Nat.min MAX_PACKET_SIZE (length dgram))%nat = true) as ->
    by (apply Nat.leb_le; unfold MAX_PACKET_SIZE; lia).
  unfold recv_into; cbn [fst].
  change (PacketBuffer.data _) with
    (take MAX_PACKET_SIZE dgram
       ++ drop (length (take MAX_PACKET_SIZE dgram)) (PacketBuffer.data buffer)).
  change (drop 4 (PacketHeader.magic PacketHeader.default)) with (@nil Z).
  rewrite app_nil_r, drop_0.
  rewrite take_app_le by (rewrite length_take; unfold MAX_PACKET_SIZE; lia).
  rewrite take_take. f_equal.
Qed.

Lemma recv_into_bad_magic (dgram : list Z) (buffer : PacketBuffer) :
  (4 <= length dgram)%nat -> take 4 dgram <> [80; 85; 76; 83] ->
  PacketHeader.isValid (PacketBuffer.readHeader (recv_into dgram buffer)).1 = false.
Proof.
  intros Hlen Hne.
  pose proof (recv_into_magic dgram buffer Hlen) as Hm.
  destruct (PacketBuffer.readHeader (recv_into dgram buffer)) as [[m ty sq ak ab tk ps] b'].
  cbn in Hm. subst m. cbn [fst].
  apply isValid_false; [| exact Hne].
  rewrite length_take. lia.
Qed.

(** C3 (amended). A datagram of at least four bytes whose first four bytes
    are not 'P','U','L','S' is dropped: the receive loop goes on to the
    next datagram with the peer as it was, so receiving just that datagram
    leaves every field of the host, and of the client, unchanged. *)
Theorem bad_magic_is_dropped (dgram : list Z) :
  (4 <= length dgram)%nat -> take 4 dgram <> [80; 85; 76; 83] ->
  (forall (now : float) (fromAddr : sockaddr_in)
          (queue : list (sockaddr_in * list Z)) (buffer : PacketBuffer) (h : Host),
      Host.receiveLoop now ((fromAddr, dgram) :: queue) buffer h
      = Host.receiveLoop now queue
          (PacketBuffer.readHeader (recv_into dgram buffer)).2 h) /\
  (forall (now : float) (fromAddr : sockaddr_in) (h : Host),
      Host.receivePackets now [(fromAddr, dgram)] h = h) /\
  (forall (L : Libm) (now : float) (queue : list (list Z))
          (buffer : PacketBuffer) (c : Client),
      Client.socket_ c = true ->
      Client.receiveLoop now (dgram :: queue) buffer c
      = Client.receiveLoop now queue
          (PacketBuffer.readHeader (recv_into dgram buffer)).2 c) /\
  (forall (L : Libm) (now : float) (c : Client),
      Client.receivePackets now [dgram] c = c).
Proof.
  intros Hlen Hne.
  assert ((length dgram =? 0)%nat = false) as Hnz by (apply Nat.eqb_neq; lia).
  assert (forall now fromAddr queue buffer h,
      Host.receiveLoop now ((fromAddr, dgram) :: queue) buffer h
      = Host.receiveLoop now queue
          (PacketBuffer.readHeader (recv_into dgram buffer)).2 h) as Hhost.
  { intros. simpl. rewrite Hnz.
    pose proof (recv_into_bad_magic dgram buffer Hlen Hne) as Hv.
    destruct (PacketBuffer.readHeader (recv_into dgram buffer)) as [header b'].
    simpl in *. rewrite Hv. reflexivity. }
  assert (forall (L : Libm) now queue buffer c,
      Client.socket_ c = true ->
      Client.receiveLoop now (dgram :: queue) buffer c
      = Client.receiveLoop now queue
          (PacketBuffer.readHeader (recv_into dgram buffer)).2 c) as Hclient.
  { intros L now queue buffer c Hs. simpl. rewrite Hs, Hnz. simpl.
    pose proof (recv_into_bad_magic dgram buffer Hlen Hne) as Hv.
    destruct (PacketBuffer.readHeader (recv_into dgram buffer)) as [header b'].
    simpl in *. rewrite Hv. reflexivity. }
  repeat split.
  - exact Hhost.
  - intros. unfold Host.receivePackets. rewrite Hhost. reflexivity.
  - exact Hclient.
  - intros L now c. unfold Client.receivePackets.
    destruct (Client.socket_ c) eqn:Hs.
    + rewrite Hclient by exact Hs. reflexivity.
    + simpl. rewrite Hs. reflexivity.
Qed.

(** C3, counterexample: a five-byte datagram "PULS" 0x01 is too short to
    contain the 23-byte header, yet a host that receives it allocates
    player 1. *)
Lemma truncated_header_is_dispatched :
  let dgram := [80; 85; 76; 83; 1] in
  let fromAddr := {| sin_addr := 2130706433; sin_port := 40000 |} in
  (length dgram < 23)%nat /\
  Host.receivePackets F32.zero [(fromAddr, dgram)] new_host <> new_host.
Proof.
  split; [simpl; lia |].
  intros Heq. apply (f_equal Host.nextPlayerId_) in Heq.
  vm_compute in Heq. discriminate Heq.
Qed.

Lemma isValid_true (ty sq ak ab tk ps : Z) :
  PacketHeader.isValid (PacketHeader.mk [80; 85; 76; 83] ty sq ak ab tk ps) = true.
Proof. reflexivity. Qed.

Lemma readU8_past (b : PacketBuffer) :
  (PacketBuffer.writePos b <= PacketBuffer.readPos b)%nat ->
  PacketBuffer.readU8 b = (0, b).
Proof.
  intros Hle. unfold PacketBuffer.readU8.
  assert ((PacketBuffer.readPos b <? PacketBuffer.writePos b)%nat = false) as ->
    by (apply Nat.ltb_ge; exact Hle).
  reflexivity.
Qed.

(** A datagram of four bytes or more that starts with the magic is handed
    to [handlePacket], however short it is: the header fields it does not
    contain are read as 0. *)
Lemma valid_magic_is_dispatched (dgram : list Z) :
  (4 <= length dgram)%nat -> take 4 dgram = [80; 85; 76; 83] ->
  (forall (now : float) (fromAddr : sockaddr_in)
          (queue : list (sockaddr_in * list Z)) (buffer : PacketBuffer) (h : Host),
      let hb := PacketBuffer.readHeader (recv_into dgram buffer) in
      Host.receiveLoop now ((fromAddr, dgram) :: queue) buffer h
      = Host.receiveLoop now queue hb.2 (Host.handlePacket hb.1 hb.2 fromAddr now h)) /\
  (forall (L : Libm) (now : float) (queue : list (list Z))
          (buffer : PacketBuffer) (c : Client),
      Client.socket_ c = true ->
      let hb := PacketBuffer.readHeader (recv_into dgram buffer) in
      Client.receiveLoop now (dgram :: queue) buffer c
      = Client.receiveLoop now queue hb.2 (Client.handlePacket hb.1 hb.2 now c)).
Proof.
  intros Hlen Hm.
  assert ((length dgram =? 0)%nat = false) as Hnz by (apply Nat.eqb_neq; lia).
  assert (forall buffer,
             PacketHeader.isValid (PacketBuffer.readHeader (recv_into dgram buffer)).1 = true)
    as Hv.
  { intros buffer. pose proof (recv_into_magic dgram buffer Hlen) as Hmg.
    destruct (PacketBuffer.readHeader (recv_into dgram buffer))
      as [[m ty sq ak ab tk ps] b'].
    cbn [fst PacketHeader.magic] in *. rewrite Hmg, Hm. apply isValid_true. }
  split.
  - intros now fromAddr queue buffer h hb. subst hb. simpl.
    rewrite Hnz. specialize (Hv buffer).
    destruct (PacketBuffer.readHeader (recv_into dgram buffer)) as [header b'].
    simpl in *. rewrite Hv. reflexivity.
  - intros L now queue buffer c Hs hb. subst hb. simpl.
    rewrite Hs, Hnz. simpl. specialize (Hv buffer).
    destruct (PacketBuffer.readHeader (recv_into dgram buffer)) as [header b'].
    simpl in *. rewrite Hv. reflexivity.
Qed.

(** ** Reliability layer *)

Lemma wrap32_small (x : Z) : is_u32 x -> wrap32 x = x.
Proof. unfold is_u32, wrap32. intros Hx. apply Z.mod_small. exact Hx. Qed.

Lemma wrap32_bit (d : Z) : 0 <= d < 32 -> wrap32 (Z.shiftl 1 d) = 2 ^ d.
Proof.
  intros Hd. rewrite Z.shiftl_1_l. apply wrap32_small. unfold is_u32.
  split; [apply Z.pow_nonneg; lia | apply Z.pow_lt_mono_r; lia].
Qed.

(** C5. [updateAcks] on a packet with sequence [S], for a connection with
    remote sequence [R] and ack bits [B], on the host and on the client
    alike: when [S > R] the ack bits become [(B << (S - R)) | 1] (a 32-bit
    shift) if [S - R < 32] and [1] otherwise, and the remote sequence
    becomes [S]; when [S < R] and [R - S < 32], bit [R - S] is set and
    nothing else changes; when [S = R], or [S < R] with [R - S >= 32],
    nothing changes. *)
Theorem updateAcks_spec (header : PacketHeader) (conn : Connection) (c : Client) :
  let S := PacketHeader.sequence header in
  let R := Connection.remoteSequence conn in
  let B := Connection.ackBits conn in
  let conn' := Host.updateAcks header conn in
  let c' := Client.updateAcks header c in
  is_u32 S -> is_u32 R ->
  Client.remoteSequence_ c = R -> Client.ackBits_ c = B ->
  (Client.remoteSequence_ c' = Connection.remoteSequence conn' /\
   Client.ackBits_ c' = Connection.ackBits conn') /\
  (R < S -> S - R < 32 ->
   Connection.ackBits conn' = Z.lor (wrap32 (Z.shiftl B (S - R))) 1 /\
   Connection.remoteSequence conn' = S) /\
  (R < S -> 32 <= S - R ->
   Connection.ackBits conn' = 1 /\ Connection.remoteSequence conn' = S) /\
  (S < R -> R - S < 32 ->
   Z.testbit (Connection.ackBits conn') (R - S) = true /\
   Connection.ackBits conn' = Z.lor B (2 ^ (R - S)) /\
   Connection.remoteSequence conn' = R) /\
  (S = R \/ (S < R /\ 32 <= R - S) -> conn' = conn /\ c' = c).
Proof.
  destruct conn as [pid addr st ls R B lrt lst rtt pend lpi].
  destruct c as [so sa cst cpid ctick cls cR cB cis clst clrt ccst crtt cloc csrv crem cint chist cclk csent cev].
  destruct header as [mg ty S ak ab tk ps].
  cbn -[Z.shiftl Z.lor Z.pow]. intros HS HR -> ->.
  unfold Host.updateAcks, Client.updateAcks. unfold is_u32 in HS, HR.
  cbn -[Z.shiftl Z.lor Z.pow wrap32 Z.ltb].
  destruct (Z.ltb_spec R S) as [Hlt | Hge].
  - rewrite (wrap32_small (S - R)) by (unfold is_u32; lia).
    destruct (Z.ltb_spec (S - R) 32) as [Hsh | Hsh]; cbn -[Z.shiftl Z.lor Z.pow wrap32];
      (split; [split; reflexivity |]);
      repeat split; intros; try lia; reflexivity.
  - destruct (Z.ltb_spec S R) as [Hlt | Hge'].
    + rewrite (wrap32_small (R - S)) by (unfold is_u32; lia).
      destruct (Z.ltb_spec (R - S) 32) as [Hd | Hd]; cbn -[Z.shiftl Z.lor Z.pow wrap32].
      * rewrite wrap32_bit by lia.
        split; [split; reflexivity |].
        repeat split; intros; try lia; try reflexivity.
        rewrite Z.lor_spec, Z.pow2_bits_true by lia. apply orb_true_r.
      * split; [split; reflexivity |].
        repeat split; intros; try lia; reflexivity.
    + split; [split; reflexivity |].
      repeat split; intros; try lia; reflexivity.
Qed.

(** *** Where the update is applied

    The client applies [updateAcks] to every packet that passes the magic
    gate, and no packet handler touches the reliability state afterwards.
    The host applies it to HEARTBEAT, ACK and (from a CONNECTED peer) INPUT
    packets of a known connection. *)

Lemma client_updateAcks_acks (header : PacketHeader) (c : Client) (now : float) :
  client_acks (Client.updateAcks header (c{{ Client.lastReceiveTime_ := now }}))
  = client_acks (Client.updateAcks header c).
Proof.
  destruct c. unfold Client.updateAcks, client_acks.
  cbn [Client.remoteSequence_ Client.ackBits_ apply_update constant].
  repeat match goal with |- context [if ?b then _ else _] => destruct b end;
    reflexivity.
Qed.

Lemma disconnect_acks (c : Client) : client_acks (Client.disconnect c) = client_acks c.
Proof.
  destruct c. unfold Client.disconnect.
  match goal with |- context [decide ?P] => destruct (decide P) end; reflexivity.
Qed.

Lemma handleConnectAccept_acks (buffer : PacketBuffer) (header : PacketHeader) (c : Client) :
  client_acks (Client.handleConnectAccept buffer header c) = client_acks c.
Proof.
  destruct c. unfold Client.handleConnectAccept.
  destruct (PacketBuffer.readU32 buffer) as [pid b1].
  destruct (PacketBuffer.readU32 b1) as [tk b2]. reflexivity.
Qed.

Lemma handleEntityCreate_acks (buffer : PacketBuffer) (c : Client) :
  client_acks (Client.handleEntityCreate buffer c) = client_acks c.
Proof.
  destruct c. unfold Client.handleEntityCreate.
  destruct (PacketBuffer.readU32 buffer) as [eid b1].
  destruct (PacketBuffer.readU8 b1) as [ty b2].
  destruct (PacketBuffer.readVec3 b2) as [pos b3].
  destruct (ty =? 0); reflexivity.
Qed.

Lemma handleEntityDestroy_acks (buffer : PacketBuffer) (c : Client) :
  client_acks (Client.handleEntityDestroy buffer c) = client_acks c.
Proof.
  destruct c. unfold Client.handleEntityDestroy.
  destruct (PacketBuffer.readU32 buffer) as [eid b1]. reflexivity.
Qed.

Lemma storeRemote_acks (state : PlayerState) (c : Client) :
  client_acks (Client.storeRemote state c) = client_acks c.
Proof. destruct c. reflexivity. Qed.

Lemma reconcileState_acks (L : Libm) (state : PlayerState) (c : Client) :
  client_acks (Client.reconcileState state c) = client_acks c.
Proof.
  destruct c. unfold Client.reconcileState.
  repeat match goal with |- context [if ?b then _ else _] => destruct b end;
    reflexivity.
Qed.

Lemma readPlayers_acks (L : Libm) (reconcile : bool) (n : nat) (buffer : PacketBuffer)
    (c : Client) :
  client_acks (Client.readPlayers reconcile n buffer c).2 = client_acks c.
Proof.
  revert buffer c. induction n as [| n IH]; intros buffer c; [reflexivity |].
  cbn [Client.readPlayers].
  destruct (PacketBuffer.readPlayerState buffer) as [state b1].
  rewrite IH.
  destruct (PlayerState.playerId state =? Client.playerId_ c);
    [destruct reconcile |].
  - apply reconcileState_acks.
  - destruct c; reflexivity.
  - apply storeRemote_acks.
Qed.

Lemma readEntities_acks (n : nat) (buffer : PacketBuffer) (c : Client) :
  client_acks (Client.readEntities n buffer c).2 = client_acks c.
Proof.
  revert buffer c. induction n as [| n IH]; intros buffer c; [reflexivity |].
  cbn [Client.readEntities].
  destruct (PacketBuffer.readEntityState buffer) as [entity b1].
  rewrite IH. destruct c; reflexivity.
Qed.

Lemma handleStateUpdate_acks (L : Libm) (buffer : PacketBuffer) (header : PacketHeader)
    (c : Client) :
  client_acks (Client.handleStateUpdate buffer header c) = client_acks c.
Proof.
  unfold Client.handleStateUpdate.
  destruct (PacketBuffer.readU8 buffer) as [n b1].
  rewrite readPlayers_acks. destruct c; reflexivity.
Qed.

Lemma handleWorldSnapshot_acks (L : Libm) (buffer : PacketBuffer) (c : Client) :
  client_acks (Client.handleWorldSnapshot buffer c) = client_acks c.
Proof.
  unfold Client.handleWorldSnapshot.
  destruct (PacketBuffer.readU8 buffer) as [n b1].
  pose proof (readPlayers_acks L false (Z.to_nat n) b1 c) as Hp.
  destruct (Client.readPlayers false (Z.to_nat n) b1 c) as [b2 c2].
  destruct (PacketBuffer.readU8 b2) as [m b3].
  rewrite readEntities_acks. exact Hp.
Qed.

(** On the client, handling a packet leaves the reliability state as
    [updateAcks] made it, whatever the packet type. *)
Lemma client_handlePacket_acks (L : Libm) (header : PacketHeader) (buffer : PacketBuffer)
    (now : float) (c : Client) :
  client_acks (Client.handlePacket header buffer now c)
  = client_acks (Client.updateAcks header c).
Proof.
  unfold Client.handlePacket. rewrite <- (client_updateAcks_acks header c now).
  repeat match goal with |- context [if ?b then _ else _] => destruct b end;
    auto using handleConnectAccept_acks, disconnect_acks, handleStateUpdate_acks,
      handleWorldSnapshot_acks, handleEntityCreate_acks, handleEntityDestroy_acks.
Qed.

Lemma readInputs_acks (n : nat) (conn : Connection) (buffer : PacketBuffer) :
  connection_acks (Host.readInputs n conn buffer).1 = connection_acks conn.
Proof.
  revert conn buffer. induction n as [| n IH]; intros conn buffer; [reflexivity |].
  cbn [Host.readInputs].
  destruct (PacketBuffer.readPlayerInput buffer) as [input b1].
  rewrite IH.
  destruct (Connection.lastProcessedInput conn <? PlayerInput.sequence input);
    destruct conn; reflexivity.
Qed.

Lemma host_connections_set (h : Host) (m : gmap Z Connection) :
  Host.connections_ (h{{ Host.connections_ := m }}) = m.
Proof. destruct h; reflexivity. Qed.

(** On the host, a HEARTBEAT, ACK or INPUT packet from the address of a
    CONNECTED connection leaves that connection's reliability state as
    [updateAcks] makes it. *)
Lemma host_handlePacket_acks (header : PacketHeader) (buffer : PacketBuffer)
    (fromAddr : sockaddr_in) (now : float) (h : Host) (k : Z) (conn : Connection) :
  PacketHeader.type header = PacketType.HEARTBEAT \/
  PacketHeader.type header = PacketType.ACK \/
  PacketHeader.type header = PacketType.INPUT ->
  Host.findConnection fromAddr h = Some (k, conn) ->
  Connection.state conn = CONNECTED ->
  exists conn',
    Host.connections_ (Host.handlePacket header buffer fromAddr now h) !! k = Some conn' /\
    connection_acks conn' = connection_acks (Host.updateAcks header conn).
Proof.
  intros Hty Hfind Hst. unfold Host.handlePacket. rewrite Hfind.
  assert (connection_acks (Host.updateAcks header (conn{{ Connection.lastReceiveTime := now }}))
          = connection_acks (Host.updateAcks header conn)) as Hnow.
  { destruct conn. unfold Host.updateAcks, connection_acks.
    cbn [Connection.remoteSequence Connection.ackBits apply_update constant].
    repeat match goal with |- context [if ?b then _ else _] => destruct b end;
      reflexivity. }
  destruct Hty as [-> | [-> | ->]].
  - change (PacketType.HEARTBEAT =? PacketType.CONNECT_REQUEST) with false.
    change (PacketType.HEARTBEAT =? PacketType.DISCONNECT) with false.
    change (PacketType.HEARTBEAT =? PacketType.HEARTBEAT) with true.
    cbv iota. cbn [orb]. eexists. rewrite host_connections_set, lookup_insert_eq.
    split; [reflexivity | exact Hnow].
  - change (PacketType.ACK =? PacketType.CONNECT_REQUEST) with false.
    change (PacketType.ACK =? PacketType.DISCONNECT) with false.
    change (PacketType.ACK =? PacketType.HEARTBEAT) with false.
    change (PacketType.ACK =? PacketType.ACK) with true.
    cbv iota. cbn [orb]. eexists. rewrite host_connections_set, lookup_insert_eq.
    split; [reflexivity | exact Hnow].
  - change (PacketType.INPUT =? PacketType.CONNECT_REQUEST) with false.
    change (PacketType.INPUT =? PacketType.DISCONNECT) with false.
    change (PacketType.INPUT =? PacketType.HEARTBEAT) with false.
    change (PacketType.INPUT =? PacketType.ACK) with false.
    change (PacketType.INPUT =? PacketType.INPUT) with true.
    cbv iota. cbn [orb].
    destruct (decide (Connection.state conn = CONNECTED)) as [_ | Hn]; [| contradiction].
    unfold Host.handleInput.
    pose proof (readInputs_acks
                  (Z.to_nat (PacketHeader.payloadSize header / 21))
                  (Host.updateAcks header (conn{{ Connection.lastReceiveTime := now }}))
                  buffer) as Hr.
    destruct (Host.readInputs _ _ buffer) as [conn' b'].
    exists conn'. rewrite host_connections_set, lookup_insert_eq.
    split; [reflexivity |]. cbn [fst] in Hr. rewrite Hr. exact Hnow.
Qed.

(** ** Connection handshake on the client *)

Lemma updateAcks_frame (header : PacketHeader) (c : Client) :
  let c' := Client.updateAcks header c in
  Client.state_ c' = Client.state_ c /\
  Client.localState_ c' = Client.localState_ c /\
  Client.events c' = Client.events c.
Proof.
  unfold Client.updateAcks.
  repeat match goal with |- context [if ?b then _ else _] => destruct b end;
    repeat split; reflexivity.
Qed.

(** C6 (amended). A CONNECT_ACCEPT packet is acted on in whatever state
    the client is when [handlePacket] gets it, CONNECTED included: the
    player id and the server tick are taken from the payload, the state
    becomes CONNECTED and the local state is put back at the spawn point
    (only its [lastProcessedInput] is kept).  A DISCONNECTED client is the
    one that stays as it is: [update] returns before it reads the
    socket. *)
Theorem connect_accept_in_any_state (L : Libm) :
  (forall (header : PacketHeader) (buffer : PacketBuffer) (now : float) (c : Client),
      PacketHeader.type header = PacketType.CONNECT_ACCEPT ->
      let c' := Client.handlePacket header buffer now c in
      let playerId := (PacketBuffer.readU32 buffer).1 in
      let serverTick := (PacketBuffer.readU32 (PacketBuffer.readU32 buffer).2).1 in
      Client.state_ c' = CONNECTED /\
      Client.playerId_ c' = playerId /\
      Client.serverTick_ c' = serverTick /\
      Client.localState_ c' =
        PlayerState.mk playerId serverTick Client.spawn_position F32.cm90 F32.zero
          (PlayerState.lastProcessedInput (Client.localState_ c)) /\
      Client.events c' = Client.events c ++ [Client.Connected playerId]) /\
  (forall (deltaTime : float) (queue : list (list Z)) (c : Client),
      Client.state_ c = DISCONNECTED -> Client.update deltaTime queue c = c).
Proof.
  split.
  - intros header buffer now c Hty. unfold Client.handlePacket. rewrite Hty.
    change (PacketType.CONNECT_ACCEPT =? PacketType.CONNECT_ACCEPT) with true.
    cbv iota.
    destruct (updateAcks_frame header (c{{ Client.lastReceiveTime_ := now }}))
      as (Hst & Hls & Hev).
    remember (Client.updateAcks header _) as c1 eqn:E. clear E.
    destruct c1. cbn in Hst, Hls, Hev. subst.
    unfold Client.handleConnectAccept.
    destruct (PacketBuffer.readU32 buffer) as [pid b1]. cbn [fst snd].
    destruct (PacketBuffer.readU32 b1) as [tk b2].
    cbn. repeat split; reflexivity.
  - intros dt queue c Hst. unfold Client.update.
    destruct (decide (Client.state_ c = DISCONNECTED)); [reflexivity | contradiction].
Qed.

(** C6, counterexample: a CONNECTED client, player 1, that receives a
    CONNECT_ACCEPT for player 7 at tick 9 becomes player 7 at tick 9. *)
Lemma connect_accept_while_connected :
  let c := connected_client 1 0 in
  let c' := @Client.update example_libm F32.zero [accept_datagram] c in
  Client.state_ c = CONNECTED /\
  Client.playerId_ c = 1 /\ Client.playerId_ c' = 7 /\
  Client.serverTick_ c = 0 /\ Client.serverTick_ c' = 9.
Proof. vm_compute. repeat split; reflexivity. Qed.

(** ** Interpolation *)

(** C7 (amended). When the buffer has received at least two states and the
    state stored last has a tick at or below the target tick,
    [interpolate] succeeds and returns that state unchanged (freeze, no
    extrapolation).  When it has received fewer than two states
    [interpolate] fails and leaves [out] alone, whatever the ticks. *)
Theorem interpolate_freeze (s : InterpolationState) (targetTick : Z) (out : PlayerState) :
  (2 <= InterpolationState.count s ->
   PlayerState.tick (InterpolationState.newest s) <= targetTick ->
   InterpolationState.interpolate s targetTick out = (true, InterpolationState.newest s)) /\
  (InterpolationState.count s < 2 ->
   InterpolationState.interpolate s targetTick out = (false, out)).
Proof.
  unfold InterpolationState.interpolate. split.
  - intros Hc Ht.
    assert ((InterpolationState.count s <? 2) = false) as -> by (apply Z.ltb_ge; lia).
    destruct (Z.to_nat (Z.min (InterpolationState.count s) 128)) as [| n] eqn:En; [lia |].
    unfold InterpolationState.scan, InterpolationState.newest in *.
    rewrite Z.sub_0_r.
    assert ((PlayerState.tick
               (InterpolationState.states s
                  !!! Z.to_nat (wrap32 (InterpolationState.count s - 1) mod 128))
             <=? targetTick) = true) as -> by (apply Z.leb_le; exact Ht).
    reflexivity.
  - intros Hc.
    assert ((InterpolationState.count s <? 2) = true) as -> by (apply Z.ltb_lt; lia).
    reflexivity.
Qed.

(** C7, counterexample: a buffer that holds exactly one state, at tick
    100, does not yield it at target tick 105: [interpolate] fails. *)
Lemma interpolate_single_state_fails :
  let s := InterpolationState.addState (state_at 100 0) Client.new_interpolation in
  InterpolationState.count s = 1 /\
  PlayerState.tick (InterpolationState.newest s) <= 105 /\
  (InterpolationState.interpolate s 105 PlayerState.default).1 = false.
Proof. vm_compute. split; [reflexivity | split; [discriminate | reflexivity]]. Qed.

(** ** Input history *)

Lemma getUnacknowledged_cons (inputs : list PlayerInput) (states : list PlayerState)
    (head count : nat) :
  (head < INPUT_BUFFER_SIZE)%nat ->
  InputHistory.getUnacknowledged (InputHistory.mk inputs states head (S count))
  = inputs !!! head
    :: InputHistory.getUnacknowledged
         (InputHistory.mk inputs states ((head + 1) mod INPUT_BUFFER_SIZE)%nat count).
Proof.
  intros Hh. unfold InputHistory.getUnacknowledged.
  cbn [InputHistory.inputs InputHistory.head InputHistory.count].
  rewrite <- cons_seq. cbn [map]. f_equal.
  - rewrite Nat.add_0_r, Nat.mod_small by exact Hh. reflexivity.
  - rewrite <- seq_shift, map_map. apply map_ext. intros i.
    rewrite Nat.Div0.add_mod_idemp_l. do 2 f_equal. lia.
Qed.

Lemma ack_loop_spec (inputs : list PlayerInput) (states : list PlayerState)
    (k : Z) (count head : nat) :
  (head < INPUT_BUFFER_SIZE)%nat ->
  let hc := InputHistory.ack_loop inputs k head count in
  (hc.1 < INPUT_BUFFER_SIZE)%nat /\
  InputHistory.getUnacknowledged (InputHistory.mk inputs states hc.1 hc.2)
  = ack_list k (InputHistory.getUnacknowledged (InputHistory.mk inputs states head count)).
Proof.
  revert head. induction count as [| c IH]; intros head Hh.
  - split; [exact Hh | reflexivity].
  - rewrite getUnacknowledged_cons by exact Hh. cbn [InputHistory.ack_loop ack_list].
    destruct (PlayerInput.sequence (inputs !!! head) <=? k).
    + apply IH. apply Nat.mod_upper_bound. discriminate.
    + cbn [fst snd]. split; [exact Hh |].
      apply getUnacknowledged_cons. exact Hh.
Qed.

Lemma acknowledgeUpTo_spec (k : Z) (h : InputHistory) :
  (InputHistory.head h < INPUT_BUFFER_SIZE)%nat ->
  InputHistory.getUnacknowledged (InputHistory.acknowledgeUpTo k h)
  = ack_list k (InputHistory.getUnacknowledged h).
Proof.
  destruct h as [inputs states head count]. cbn [InputHistory.head]. intros Hh.
  unfold InputHistory.acknowledgeUpTo.
  cbn [InputHistory.inputs InputHistory.head InputHistory.count].
  pose proof (ack_loop_spec inputs states k count head Hh) as [_ Hspec].
  destruct (InputHistory.ack_loop inputs k head count) as [hd c].
  exact Hspec.
Qed.

Lemma ack_list_sorted (k : Z) (l : list PlayerInput) :
  Sorted Z.le (sequences l) ->
  Forall (fun i => k < PlayerInput.sequence i) (ack_list k l).
Proof.
  intros Hs. apply Sorted_StronglySorted in Hs; [| intros x y z; lia].
  induction l as [| i l IH]; [constructor |].
  cbn [sequences map] in Hs. apply StronglySorted_inv in Hs as [Hs Hall].
  cbn [ack_list]. destruct (Z.leb_spec (PlayerInput.sequence i) k) as [Hle | Hgt].
  - apply IH. exact Hs.
  - constructor; [exact Hgt |].
    rewrite Forall_forall. intros j Hj.
    rewrite Forall_forall in Hall.
    specialize (Hall (PlayerInput.sequence j)).
    assert (PlayerInput.sequence i <= PlayerInput.sequence j); [| lia].
    apply Hall. unfold sequences.
    apply list_elem_of_In, in_map, list_elem_of_In. exact Hj.
Qed.

(** C8 (amended). For an input history whose logical slice is in
    non-decreasing sequence order (and whose [head] is an index of the
    ring), after [acknowledgeUpTo(k)] no input of the slice
    [[head, head + count)] has a sequence at or below [k]: neither the
    inputs [getUnacknowledged()] returns nor the slots of the slice. *)
Theorem acknowledgeUpTo_sorted (h : InputHistory) (k : Z) :
  (InputHistory.head h < INPUT_BUFFER_SIZE)%nat ->
  history_sorted h ->
  let h' := InputHistory.acknowledgeUpTo k h in
  Forall (fun i => k < PlayerInput.sequence i) (InputHistory.getUnacknowledged h') /\
  (forall i : nat, (i < InputHistory.count h')%nat ->
     k < PlayerInput.sequence
           (InputHistory.inputs h'
              !!! ((InputHistory.head h' + i) mod INPUT_BUFFER_SIZE)%nat)).
Proof.
  intros Hh Hs h'.
  assert (Forall (fun i => k < PlayerInput.sequence i) (InputHistory.getUnacknowledged h'))
    as Hall.
  { subst h'. rewrite acknowledgeUpTo_spec by exact Hh. apply ack_list_sorted. exact Hs. }
  split; [exact Hall |].
  intros i Hi. rewrite Forall_forall in Hall. apply Hall.
  unfold InputHistory.getUnacknowledged. apply list_elem_of_In.
  apply (in_map (fun i => InputHistory.inputs h'
                   !!! ((InputHistory.head h' + i) mod INPUT_BUFFER_SIZE)%nat)).
  apply in_seq. lia.
Qed.

(** C8, counterexample: a history filled with sequence 5 and then sequence
    3 still holds the input with sequence 3 after [acknowledgeUpTo(4)]. *)
Lemma acknowledgeUpTo_unsorted :
  let h := InputHistory.addInput (input_W 3) PlayerState.default
             (InputHistory.addInput (input_W 5) PlayerState.default InputHistory.empty) in
  let h' := InputHistory.acknowledgeUpTo 4 h in
  sequences (InputHistory.getUnacknowledged h') = [5; 3] /\
  ~ Forall (fun i => 4 < PlayerInput.sequence i) (InputHistory.getUnacknowledged h').
Proof.
  split; [vm_compute; reflexivity |].
  intros Hall. vm_compute in Hall.
  inversion Hall as [| ? ? _ Htl]. inversion Htl as [| ? ? Hlt _].
  cbv in Hlt. discriminate Hlt.
Qed.

(** *** The client keeps its history in sequence order *)

Lemma ring_index_ne (hd j k : nat) :
  (j < k)%nat -> (k - j < INPUT_BUFFER_SIZE)%nat ->
  ((hd + j) mod INPUT_BUFFER_SIZE <> (hd + k) mod INPUT_BUFFER_SIZE)%nat.
Proof.
  unfold INPUT_BUFFER_SIZE. intros Hjk Hd E.
  pose proof (Nat.div_mod_eq (hd + j) 64) as H1.
  pose proof (Nat.div_mod_eq (hd + k) 64) as H2.
  rewrite E in H1.
  generalize dependent ((hd + j) / 64)%nat. intros q1 H1.
  generalize dependent ((hd + k) / 64)%nat. intros q2 H2.
  generalize dependent ((hd + k) mod 64)%nat. intros r _ H1 H2.
  lia.
Qed.

Lemma slice_insert_other (inputs : list PlayerInput) (i : PlayerInput)
    (hd idx n : nat) :
  (forall j, (j < n)%nat -> ((hd + j) mod INPUT_BUFFER_SIZE)%nat <> idx) ->
  map (fun j => <[idx := i]> inputs !!! ((hd + j) mod INPUT_BUFFER_SIZE)%nat) (seq 0 n)
  = map (fun j => inputs !!! ((hd + j) mod INPUT_BUFFER_SIZE)%nat) (seq 0 n).
Proof.
  intros Hne. apply map_ext_in. intros j Hj. apply in_seq in Hj.
  apply list_lookup_total_insert_ne. intros E. apply (Hne j); [lia | congruence].
Qed.

Lemma getUnacknowledged_addInput (i : PlayerInput) (p : PlayerState) (h : InputHistory) :
  history_wf h ->
  InputHistory.getUnacknowledged (InputHistory.addInput i p h)
  = (if (InputHistory.count h <? INPUT_BUFFER_SIZE)%nat
     then InputHistory.getUnacknowledged h
     else drop 1 (InputHistory.getUnacknowledged h)) ++ [i].
Proof.
  destruct h as [inputs states hd cnt]. unfold history_wf.
  cbn [InputHistory.inputs InputHistory.head InputHistory.count].
  intros (Hlen & Hhd & Hcnt).
  unfold InputHistory.addInput.
  cbn [InputHistory.inputs InputHistory.head InputHistory.count].
  assert (forall k, (k mod INPUT_BUFFER_SIZE < length inputs)%nat) as Hidx.
  { intros k. rewrite Hlen. apply Nat.mod_upper_bound. discriminate. }
  destruct (Nat.ltb_spec cnt INPUT_BUFFER_SIZE) as [Hlt | Hge].
  - unfold InputHistory.getUnacknowledged.
    cbn [InputHistory.inputs InputHistory.head InputHistory.count apply_update constant].
    rewrite seq_S, map_app. cbn [map Nat.add]. f_equal.
    + apply slice_insert_other. intros j Hj. apply ring_index_ne; lia.
    + f_equal. apply list_lookup_total_insert_eq. apply Hidx.
  - assert (cnt = INPUT_BUFFER_SIZE) as -> by lia.
    assert (((hd + 64) mod 64)%nat = hd) as Hwrap.
    { rewrite <- Nat.Div0.add_mod_idemp_r, Nat.Div0.mod_same, Nat.add_0_r.
      apply Nat.mod_small. exact Hhd. }
    unfold InputHistory.getUnacknowledged.
    cbn [InputHistory.inputs InputHistory.head InputHistory.count apply_update constant].
    unfold INPUT_BUFFER_SIZE in *. rewrite Hwrap.
    set (f := fun j => inputs !!! ((hd + j) mod 64)%nat).
    set (f' := fun j => <[hd := i]> inputs !!! ((hd + j) mod 64)%nat).
    transitivity (map f' (seq 1 64)).
    { rewrite <- seq_shift, map_map. apply map_ext. intros j. subst f'. cbv beta.
      rewrite Nat.Div0.add_mod_idemp_l. do 2 f_equal. lia. }
    rewrite (seq_S 63 1), map_app. rewrite <- (cons_seq 63 0). cbn [map drop].
    f_equal.
    + apply map_ext_in. intros j Hj. apply in_seq in Hj. subst f f'. cbv beta.
      apply list_lookup_total_insert_ne. intros E.
      apply (ring_index_ne hd 0 j); unfold INPUT_BUFFER_SIZE; [lia | lia |].
      rewrite Nat.add_0_r, (Nat.mod_small hd 64) by exact Hhd. exact E.
    + subst f'. cbv beta. f_equal. change (1 + 63)%nat with 64%nat. rewrite Hwrap.
      apply list_lookup_total_insert_eq. rewrite Hlen. exact Hhd.
Qed.

Lemma Sorted_le_snoc (l : list Z) (a : Z) :
  Sorted Z.le l -> Forall (fun x => x <= a) l -> Sorted Z.le (l ++ [a]).
Proof.
  induction l as [| x l IH]; intros Hs Hall.
  - repeat constructor.
  - apply Sorted_inv in Hs as [Hs Hhd]. apply Forall_cons_1 in Hall as [Hx Hall].
    cbn [app]. constructor; [apply IH; assumption |].
    destruct l as [| y l]; cbn [app]; constructor.
    + exact Hx.
    + inversion Hhd; assumption.
Qed.

Lemma Sorted_le_drop1 (l : list Z) : Sorted Z.le l -> Sorted Z.le (drop 1 l).
Proof.
  destruct l as [| x l]; intros Hs; [exact Hs |].
  apply Sorted_inv in Hs as [Hs _]. exact Hs.
Qed.

Lemma ack_list_keeps_sorted (k : Z) (l : list PlayerInput) :
  Sorted Z.le (sequences l) -> Sorted Z.le (sequences (ack_list k l)).
Proof.
  induction l as [| i l IH]; intros Hs; [exact Hs |].
  cbn [ack_list]. destruct (PlayerInput.sequence i <=? k); [| exact Hs].
  apply IH. cbn [sequences map] in Hs. apply Sorted_inv in Hs as [Hs _]. exact Hs.
Qed.

Lemma ack_list_keeps_Forall (P : PlayerInput -> Prop) (k : Z) (l : list PlayerInput) :
  Forall P l -> Forall P (ack_list k l).
Proof.
  induction l as [| i l IH]; intros Hall; [exact Hall |].
  cbn [ack_list]. destruct (PlayerInput.sequence i <=? k); [| exact Hall].
  apply IH. apply Forall_cons_1 in Hall as [_ Hall]. exact Hall.
Qed.

Lemma ack_loop_count (inputs : list PlayerInput) (k : Z) (count head : nat) :
  ((InputHistory.ack_loop inputs k head count).2 <= count)%nat.
Proof.
  revert head. induction count as [| c IH]; intros head; [reflexivity |].
  cbn [InputHistory.ack_loop].
  destruct (PlayerInput.sequence (inputs !!! head) <=? k); [| reflexivity].
  specialize (IH ((head + 1) mod INPUT_BUFFER_SIZE)%nat). lia.
Qed.

(** [acknowledgeUpTo] keeps the ring well formed and in order. *)
Lemma acknowledgeUpTo_keeps_order (k : Z) (h : InputHistory) :
  history_wf h -> history_sorted h ->
  history_wf (InputHistory.acknowledgeUpTo k h) /\
  history_sorted (InputHistory.acknowledgeUpTo k h).
Proof.
  intros Hwf Hs. split.
  - destruct h as [inputs states hd cnt]. destruct Hwf as (Hlen & Hhd & Hcnt).
    cbn [InputHistory.inputs InputHistory.head InputHistory.count] in *.
    unfold InputHistory.acknowledgeUpTo.
    cbn [InputHistory.inputs InputHistory.head InputHistory.count].
    pose proof (ack_loop_spec inputs states k cnt hd Hhd) as [Hhd' _].
    pose proof (ack_loop_count inputs k cnt hd) as Hc'.
    destruct (InputHistory.ack_loop inputs k hd cnt) as [hd' c'].
    cbn [fst snd] in *. unfold history_wf.
    cbn [InputHistory.inputs InputHistory.head InputHistory.count apply_update constant].
    repeat split; [exact Hlen | exact Hhd' | lia].
  - unfold history_sorted. rewrite acknowledgeUpTo_spec by apply Hwf.
    apply ack_list_keeps_sorted. exact Hs.
Qed.

Lemma sendInput_history (L : Libm) (input : PlayerInput) (c : Client) :
  Client.state_ c = CONNECTED ->
  exists seqInput predicted,
    PlayerInput.sequence seqInput = wrap32 (Client.inputSequence_ c + 1) /\
    Client.inputSequence_ (Client.sendInput input c) = wrap32 (Client.inputSequence_ c + 1) /\
    Client.inputHistory_ (Client.sendInput input c)
    = InputHistory.addInput seqInput predicted (Client.inputHistory_ c).
Proof.
  intros Hst. unfold Client.sendInput.
  destruct (decide (Client.state_ c = CONNECTED)) as [_ | Hn]; [| contradiction].
  destruct c. do 2 eexists. split; [| split]; [| reflexivity | reflexivity].
  reflexivity.
Qed.

(** [sendInput] numbers the inputs in increasing order, so the history it
    fills stays in sequence order (as long as the 32-bit counter does not
    wrap). *)
Lemma sendInput_keeps_order (L : Libm) (input : PlayerInput) (c : Client) :
  history_inv c ->
  0 <= Client.inputSequence_ c -> Client.inputSequence_ c + 1 < 2 ^ 32 ->
  history_inv (Client.sendInput input c).
Proof.
  intros (Hwf & Hs & Hall) H0 Hmax.
  destruct (decide (Client.state_ c = CONNECTED)) as [Hst | Hn].
  2: { unfold Client.sendInput.
       destruct (decide (Client.state_ c = CONNECTED)); [contradiction |].
       split; [exact Hwf | split; [exact Hs | exact Hall]]. }
  destruct (sendInput_history L input c Hst) as (seqInput & predicted & Hseq & Hn & Hh).
  rewrite wrap32_small in Hseq, Hn by (unfold is_u32; lia).
  unfold history_inv, history_sorted. rewrite Hn, Hh.
  rewrite getUnacknowledged_addInput by exact Hwf.
  assert (Sorted Z.le
            (sequences (if (InputHistory.count (Client.inputHistory_ c) <? INPUT_BUFFER_SIZE)%nat
                        then InputHistory.getUnacknowledged (Client.inputHistory_ c)
                        else drop 1 (InputHistory.getUnacknowledged (Client.inputHistory_ c))))
          /\ Forall (fun q => q <= Client.inputSequence_ c)
               (sequences (if (InputHistory.count (Client.inputHistory_ c) <? INPUT_BUFFER_SIZE)%nat
                           then InputHistory.getUnacknowledged (Client.inputHistory_ c)
                           else drop 1 (InputHistory.getUnacknowledged (Client.inputHistory_ c)))))
    as [Hs' Hall'].
  { destruct (InputHistory.count (Client.inputHistory_ c) <? INPUT_BUFFER_SIZE)%nat.
    - split; assumption.
    - unfold sequences. rewrite <- !skipn_map. split.
      + apply Sorted_le_drop1. exact Hs.
      + apply Forall_drop. exact Hall. }
  split; [| split].
  - destruct Hwf as (Hlen & Hhd & Hcnt). unfold InputHistory.addInput.
    destruct (Client.inputHistory_ c) as [inputs states hd cnt].
    cbn [InputHistory.inputs InputHistory.head InputHistory.count] in *.
    destruct (Nat.ltb_spec cnt INPUT_BUFFER_SIZE); unfold history_wf;
      cbn [InputHistory.inputs InputHistory.head InputHistory.count apply_update constant];
      rewrite length_insert;
      (split; [exact Hlen | split]); try lia.
    apply Nat.mod_upper_bound. discriminate.
  - unfold sequences. rewrite map_app. cbn [map]. rewrite Hseq.
    apply Sorted_le_snoc; [exact Hs' |].
    eapply Forall_impl; [exact Hall' |]. cbv beta. intros q Hq. lia.
  - unfold sequences. rewrite map_app. cbn [map]. rewrite Hseq.
    apply Forall_app. split.
    + eapply Forall_impl; [exact Hall' |]. cbv beta. intros q Hq. lia.
    + repeat constructor. lia.
Qed.

Lemma history_inv_connected (playerId tick : Z) : history_inv (connected_client playerId tick).
Proof.
  split; [| split].
  - repeat split; cbv; lia.
  - constructor.
  - constructor.
Qed.

Lemma sequences_Forall (n : Z) (l : list PlayerInput) :
  Forall (fun q => q <= n) (sequences l)
  <-> Forall (fun i => PlayerInput.sequence i <= n) l.
Proof. unfold sequences. apply List.Forall_map. Qed.

(** ** Comparisons of binary32 values *)

Lemma to_SF_one : F32.to_SF F32.one = S754_finite false 8388608 (-23).
Proof. vm_compute. reflexivity. Qed.

Lemma to_SF_c0_01 : F32.to_SF F32.c0_01 = S754_finite false 10737418 (-30).
Proof. vm_compute. reflexivity. Qed.


Lemma SFcompare_swap (x y : spec_float) :
  SFcompare y x = option_map CompOpp (SFcompare x y).
Proof.
  assert (forall p q, Pos.compare_cont Eq q p = CompOpp (Pos.compare_cont Eq p q)) as Hpos
    by (intros p q; apply (Pos.compare_antisym p q)).
  destruct x as [sx | sx | | sx mx ex], y as [sy | sy | | sy my ey];
    try destruct sx; try destruct sy; try reflexivity; cbn;
    rewrite (Z.compare_antisym ex ey); destruct (ex ?= ey); cbn; try reflexivity;
    rewrite (Hpos mx my); destruct (Pos.compare_cont Eq mx my); reflexivity.
Qed.

Lemma leb_ltb_false (a b : float) : F32.leb a b = true -> F32.ltb b a = false.
Proof.
  unfold F32.leb, F32.ltb, SFleb, SFltb.
  rewrite (SFcompare_swap (F32.to_SF a) (F32.to_SF b)).
  destruct (SFcompare (F32.to_SF a) (F32.to_SF b)) as [[| |] |]; cbn; congruence.
Qed.

Lemma leb_one_ltb_c0_01 (e : float) :
  F32.leb F32.one e = true -> F32.ltb F32.c0_01 e = true.
Proof.
  unfold F32.leb, F32.ltb, SFleb, SFltb.
  rewrite to_SF_one, to_SF_c0_01.
  destruct (F32.to_SF e) as [s | s | | s m ex]; try destruct s;
    cbn -[Z.compare Pos.compare_cont]; try congruence.
  destruct (Z.compare_spec (-23) ex) as [<- | Hlt | Hgt].
  - intros _. reflexivity.
  - intros _. assert ((-30 ?= ex) = Lt) as -> by (apply Z.compare_lt_iff; lia).
    reflexivity.
  - congruence.
Qed.

(** From here on the arithmetic of [F32] is kept folded: the properties
    below do not depend on how a sum or a product is rounded. *)
#[global] Opaque F32.to_SF F32.of_SF F32.add F32.sub F32.mul F32.div F32.sqrtf
  F32.of_Z F32.deg2rad F32.ltb F32.leb.

(** ** Reconciliation *)

(** C4. [reconcileState] for the authoritative state [s].  The error is
    the norm of [s.position - localState.position] as the code computes
    it in binary32: with [dx], [dy], [dz] the differences of the
    coordinates, [e = sqrtf(dx*dx + dy*dy + dz*dz)].  [corrected] is the
    state [s] with the inputs left in the history after
    [acknowledgeUpTo(s.lastProcessedInput)] re-applied in order.  The
    history is acknowledged up to [s.lastProcessedInput] in every case,
    before the error is looked at; the local position is unchanged if
    [e <= 0.01] (and also when [e] is not a number); it moves by
    [(corrected.position - localState.position) * 0.1] if
    [0.01 < e < 1.0]; it becomes [corrected.position] if [e >= 1.0]. *)
Theorem reconcileState_cases (L : Libm) (s : PlayerState) (c : Client) :
  let history := InputHistory.acknowledgeUpTo (PlayerState.lastProcessedInput s)
                   (Client.inputHistory_ c) in
  let p := PlayerState.position (Client.localState_ c) in
  let dx := F32.sub (Vec3.x (PlayerState.position s)) (Vec3.x p) in
  let dy := F32.sub (Vec3.y (PlayerState.position s)) (Vec3.y p) in
  let dz := F32.sub (Vec3.z (PlayerState.position s)) (Vec3.z p) in
  let e := F32.sqrtf (F32.add (F32.add (F32.mul dx dx) (F32.mul dy dy)) (F32.mul dz dz)) in
  let corrected := foldl Client.applyInputToState s (InputHistory.getUnacknowledged history) in
  let q := PlayerState.position corrected in
  let c' := Client.reconcileState s c in
  let p' := PlayerState.position (Client.localState_ c') in
  Client.inputHistory_ c' = history /\
  (F32.leb e F32.c0_01 = true -> p' = p) /\
  (F32.ltb F32.c0_01 e = true -> F32.ltb e F32.one = true ->
   p' = Vec3.add p (Vec3.scale (Vec3.sub q p) F32.c0_1)) /\
  (F32.leb F32.one e = true -> p' = q) /\
  (F32.ltb F32.c0_01 e = false -> p' = p).
Proof.
  destruct c as [so sa cst cpid ctick cls cR cB cis clst clrt ccst crtt
                   [lid ltk [px py pz] lyaw lpitch llpi]
                   csrv crem cint chist cclk csent cev].
  intros history p dx dy dz e corrected q c' p'.
  subst c' p'. unfold Client.reconcileState.
  cbn [Client.inputHistory_ Client.localState_ PlayerState.position
       Vec3.x Vec3.y Vec3.z] in history, p, dx, dy, dz.
  change (Client.errorMag s _) with e.
  fold history. fold corrected. fold q.
  split; [| split; [| split; [| split]]].
  - destruct (F32.ltb F32.c0_01 e); [destruct (F32.ltb e F32.one) |]; reflexivity.
  - intros He. rewrite (leb_ltb_false _ _ He). reflexivity.
  - intros H1 H2. rewrite H1, H2. reflexivity.
  - intros He. rewrite (leb_one_ltb_c0_01 _ He), (leb_ltb_false _ _ He). reflexivity.
  - intros He. rewrite He. reflexivity.
Qed.

Lemma reconcileState_inputSequence (L : Libm) (s : PlayerState) (c : Client) :
  Client.inputSequence_ (Client.reconcileState s c) = Client.inputSequence_ c.
Proof.
  destruct c. unfold Client.reconcileState.
  repeat match goal with |- context [if ?b then _ else _] => destruct b end;
    reflexivity.
Qed.

Lemma reconcileState_history (L : Libm) (s : PlayerState) (c : Client) :
  Client.inputHistory_ (Client.reconcileState s c)
  = InputHistory.acknowledgeUpTo (PlayerState.lastProcessedInput s) (Client.inputHistory_ c).
Proof.
  destruct c. unfold Client.reconcileState.
  repeat match goal with |- context [if ?b then _ else _] => destruct b end;
    reflexivity.
Qed.

(** Reconciliation keeps the client's history in order. *)
Lemma reconcileState_keeps_order (L : Libm) (s : PlayerState) (c : Client) :
  history_inv c -> history_inv (Client.reconcileState s c).
Proof.
  intros (Hwf & Hs & Hall).
  pose proof (reconcileState_history L s c) as Hh.
  destruct (acknowledgeUpTo_keeps_order (PlayerState.lastProcessedInput s) _ Hwf Hs)
    as [Hwf' Hs'].
  unfold history_inv. rewrite Hh, reconcileState_inputSequence.
  split; [exact Hwf' | split; [exact Hs' |]].
  rewrite acknowledgeUpTo_spec by apply Hwf.
  apply sequences_Forall, ack_list_keeps_Forall, sequences_Forall. exact Hall.
Qed.

(** ** The movement rule *)

Lemma key_down_testbit (keys i : Z) :
  0 <= i -> key_down keys (2 ^ i) = Z.testbit keys i.
Proof.
  intros Hi. unfold key_down.
  destruct (Z.testbit keys i) eqn:Hb.
  - apply negb_true_iff, Z.eqb_neq. intros Hz.
    apply (f_equal (fun v => Z.testbit v i)) in Hz.
    rewrite Z.land_spec, Hb, Z.pow2_bits_true, Z.bits_0 in Hz by lia. discriminate.
  - apply negb_false_iff, Z.eqb_eq. apply Z.bits_inj'. intros n Hn.
    rewrite Z.land_spec, Z.bits_0.
    destruct (Z.eq_dec n i) as [-> | Hne].
    + rewrite Hb. reflexivity.
    + rewrite Z.pow2_bits_false by lia. apply andb_false_r.
Qed.

Lemma client_rule_is_spec_rule (L : Libm) (s : PlayerState) (input : PlayerInput) :
  pose (Client.applyInputToState s input) = spec_applyInput s input.
Proof.
  unfold Client.applyInputToState, spec_applyInput, spec_moves, pose.
  cbn [foldl fst snd].
  rewrite <- !key_down_testbit by lia.
  change (2 ^ 0) with 1. change (2 ^ 1) with 2. change (2 ^ 2) with 4.
  change (2 ^ 3) with 8. change (2 ^ 4) with 16. change (2 ^ 5) with 32.
  destruct s as [pid tk [x y z] yw pt lpi].
  destruct (key_down (PlayerInput.keys input) 1);
    destruct (key_down (PlayerInput.keys input) 2);
    destruct (key_down (PlayerInput.keys input) 4);
    destruct (key_down (PlayerInput.keys input) 8);
    destruct (key_down (PlayerInput.keys input) 16);
    destruct (key_down (PlayerInput.keys input) 32).
  all: reflexivity.
Qed.
Lemma host_rule_is_client_rule (L : Libm) (h : Host) (id : Z) (s : PlayerState)
    (input : PlayerInput) :
  Host.players_ h !! id = Some s ->
  Host.applyInput id input h
  = h{{ Host.players_ :=
          <[id := (Client.applyInputToState s input){{
                    PlayerState.tick := Host.currentTick_ h }}]> (Host.players_ h) }}.
Proof.
  intros Hs. unfold Host.applyInput, Client.applyInputToState. rewrite Hs.
  destruct s as [pid tk [x y z] yw pt lpi].
  destruct (key_down (PlayerInput.keys input) 1);
    destruct (key_down (PlayerInput.keys input) 2);
    destruct (key_down (PlayerInput.keys input) 4);
    destruct (key_down (PlayerInput.keys input) 8);
    destruct (key_down (PlayerInput.keys input) 16);
    destruct (key_down (PlayerInput.keys input) 32).
  1: reflexivity.
  all: reflexivity.
Qed.
Lemma host_missing_player (L : Libm) (h : Host) (id : Z) (input : PlayerInput) :
  Host.players_ h !! id = None -> Host.applyInput id input h = h.
Proof. intros Hs. unfold Host.applyInput. rewrite Hs. reflexivity. Qed.

(** The client's rule reads position, yaw and pitch of the state and
    nothing else. *)
Lemma client_rule_pose (L : Libm) (s s' : PlayerState) (input : PlayerInput) :
  pose s = pose s' ->
  pose (Client.applyInputToState s input) = pose (Client.applyInputToState s' input).
Proof.
  intros Hp. rewrite !client_rule_is_spec_rule. unfold spec_applyInput.
  injection Hp as Hpos _ _. rewrite Hpos. reflexivity.
Qed.

Lemma host_fold_agrees (L : Libm) (inputs : list PlayerInput) (h : Host) (id : Z)
    (s0 s : PlayerState) :
  Host.players_ h !! id = Some s0 -> pose s0 = pose s ->
  exists s', Host.players_ (foldl (fun h i => Host.applyInput id i h) h inputs) !! id
             = Some s' /\
             pose s' = pose (foldl Client.applyInputToState s inputs).
Proof.
  revert h s0 s. induction inputs as [| input inputs IH]; intros h s0 s Hs Hp.
  - exists s0. split; assumption.
  - cbn [foldl]. rewrite (host_rule_is_client_rule L h id s0 input Hs).
    eapply IH.
    + destruct h. cbn [Host.players_ apply_update constant]. apply lookup_insert_eq.
    + transitivity (pose (Client.applyInputToState s0 input)).
      * destruct (Client.applyInputToState s0 input); reflexivity.
      * apply client_rule_pose. exact Hp.
Qed.

(** C1. For every player state and every input, [Host::applyInput] and
    [Client::applyInputToState] compute the same new position, yaw and
    pitch, which are those of the rule of the specification; hence a
    sequence of inputs (with strictly increasing sequence numbers, or any
    other) applied by the host to its copy of a starting state and by the
    client to its own leaves equal positions, yaws and pitches. *)
Theorem applyInput_host_client_agree (L : Libm) :
  (forall (h : Host) (id : Z) (s : PlayerState) (input : PlayerInput),
      Host.players_ h !! id = Some s ->
      exists s',
        Host.players_ (Host.applyInput id input h) !! id = Some s' /\
        pose s' = pose (Client.applyInputToState s input) /\
        pose s' = spec_applyInput s input) /\
  (forall (h : Host) (id : Z) (s : PlayerState) (inputs : list PlayerInput),
      Host.players_ h !! id = Some s ->
      exists s',
        Host.players_ (foldl (fun h i => Host.applyInput id i h) h inputs) !! id = Some s' /\
        pose s' = pose (foldl Client.applyInputToState s inputs)).
Proof.
  split.
  - intros h id s input Hs.
    destruct (host_fold_agrees L [input] h id s s Hs eq_refl) as (s' & Hs' & Hp).
    exists s'. cbn [foldl] in Hs', Hp. split; [exact Hs' | split; [exact Hp |]].
    rewrite Hp. apply client_rule_is_spec_rule.
  - intros h id s inputs Hs. apply (host_fold_agrees L inputs h id s s Hs eq_refl).
Qed.

(** *** The same through [processTick]

    [processTick] applies a queued input only when its sequence is above
    the connection's [lastProcessedInput]; a queue in strictly increasing
    order that starts above it is applied in full. *)

Lemma players_set (h : Host) (m : gmap Z PlayerState) :
  Host.players_ (h{{ Host.players_ := m }}) = m.
Proof. destruct h; reflexivity. Qed.

Lemma last_nonempty {A} (l : list A) (x d d' : A) :
  List.last (x :: l) d = List.last (x :: l) d'.
Proof.
  revert x. induction l as [| y l IH]; intros x; [reflexivity |].
  change (List.last (y :: l) d = List.last (y :: l) d'). apply IH.
Qed.

Lemma drainPending_matches_prediction (L : Libm) (inputs : list PlayerInput) (id : Z)
    (conn : Connection) (h : Host) (s0 s : PlayerState) :
  Host.players_ h !! id = Some s0 -> pose s0 = pose s ->
  increasing_above (Connection.lastProcessedInput conn) inputs ->
  exists s',
    Host.players_ (Host.drainPending id inputs conn h).2 !! id = Some s' /\
    pose s' = pose (foldl Client.applyInputToState s inputs) /\
    Connection.lastProcessedInput (Host.drainPending id inputs conn h).1
    = List.last (sequences inputs) (Connection.lastProcessedInput conn).
Proof.
  revert conn h s0 s. induction inputs as [| input inputs IH]; intros conn h s0 s Hs Hp Hinc.
  - exists s0. split; [exact Hs | split; [exact Hp | destruct conn; reflexivity]].
  - destruct Hinc as [Hlt Hinc]. cbn [Host.drainPending foldl].
    assert ((Connection.lastProcessedInput conn <? PlayerInput.sequence input) = true) as ->
      by (apply Z.ltb_lt; exact Hlt).
    rewrite (host_rule_is_client_rule L h id s0 input Hs).
    destruct h as [run tick nxt tacc sacc conns players clk snt evs].
    destruct conn as [pid addr st ls rs ab lrt lst rtt pend lpi].
    cbn [Host.players_ Host.currentTick_ Connection.lastProcessedInput
         apply_update constant fst snd] in *.
    rewrite lookup_insert_eq.
    set (s1 := (Client.applyInputToState s0 input){{ PlayerState.tick := tick }}).
    set (s2 := s1{{ PlayerState.lastProcessedInput := PlayerInput.sequence input }}).
    match goal with
    | |- context [Host.drainPending id inputs ?cc ?hh] =>
        destruct (IH cc hh s2 (Client.applyInputToState s input))
          as (s' & Hs' & Hp' & Hl')
    end.
    + cbn [Host.players_]. apply lookup_insert_eq.
    + transitivity (pose (Client.applyInputToState s0 input)).
      * subst s2 s1. destruct (Client.applyInputToState s0 input); reflexivity.
      * apply client_rule_pose. exact Hp.
    + exact Hinc.
    + exists s'. split; [exact Hs' | split; [exact Hp' |]].
      rewrite Hl'. unfold sequences. cbn [Connection.lastProcessedInput].
      destruct inputs as [| i2 inputs']; [reflexivity |]. cbn [map].
      match goal with
      | |- List.last ?l ?d = List.last (_ :: ?l) ?d' =>
          change (List.last l d = List.last l d')
      end.
      apply last_nonempty.
Qed.

(** An input whose sequence is not above [lastProcessedInput] is dropped
    as a duplicate: the players are left as they are. *)
Lemma drainPending_drops_stale (L : Libm) (input : PlayerInput) (id : Z)
    (conn : Connection) (h : Host) :
  PlayerInput.sequence input <= Connection.lastProcessedInput conn ->
  (Host.drainPending id [input] conn h).2 = h.
Proof.
  intros Hle. cbn [Host.drainPending].
  assert ((Connection.lastProcessedInput conn <? PlayerInput.sequence input) = false) as ->
    by (apply Z.ltb_ge; exact Hle).
  reflexivity.
Qed.

(** The prediction step of [sendInput]: the local state moves by the
    client's rule (the sequence number and the tick that [sendInput] puts
    in the input do not enter the rule). *)
Lemma sendInput_predicts (L : Libm) (input : PlayerInput) (c : Client) :
  Client.state_ c = CONNECTED ->
  pose (Client.localState_ (Client.sendInput input c))
  = pose (Client.applyInputToState (Client.localState_ c) input).
Proof.
  intros Hst. unfold Client.sendInput.
  destruct (decide (Client.state_ c = CONNECTED)) as [_ | Hn]; [| contradiction].
  destruct c as [so sa cst cpid ctick cls cR cB cis clst clrt ccst crtt cloc
                   csrv crem cint chist cclk csent cev].
  cbn [Client.localState_ Client.sendToServer apply_update constant
       Client.inputSequence_ Client.serverTick_ Client.sent].
  transitivity (pose (Client.applyInputToState cloc
                        (input{{ PlayerInput.sequence := wrap32 (cis + 1);
                                 PlayerInput.tick := ctick }}))).
  - destruct (Client.applyInputToState cloc _); reflexivity.
  - rewrite !client_rule_is_spec_rule. destruct input; reflexivity.
Qed.

(** ** Packets with a payload *)

(** C2. The packets that carry a payload are built around the constant
    22 while [writeHeader] emits 23 bytes.  The first INPUT packet of a
    connected client (one input, sequence 1): the datagram has 43 bytes,
    its [payloadSize] field is 21, which is the length minus 22 and not
    minus 23; the payload starts at offset 22, where the low byte of the
    input's sequence was written, and the last byte of the header then
    replaces it; a reader that takes the 23 header bytes and decodes the
    input from offset 23 gets sequence 0.  The STATE_UPDATE and the
    WORLD_SNAPSHOT of a host with one player have the same shape: 55 bytes
    with [payloadSize] 33, and 167 bytes with [payloadSize] 145. *)
Theorem payload_is_written_at_offset_22 :
  let c := @Client.sendInput example_libm (input_W 0) (connected_client 1 0) in
  let input := List.last (InputHistory.getUnacknowledged (Client.inputHistory_ c)) inhabitant in
  let dgram := List.last (Client.sent c) [] in
  let decoded := PacketBuffer.readHeader (received dgram) in
  let update := (List.last (Host.sent (Host.sendStateUpdates host_with_player))
                   (example_addr, [])).2 in
  let snapshot := (List.last (Host.sent host_with_player) (example_addr, [])).2 in
  (length dgram = 43%nat /\
   PacketHeader.type decoded.1 = PacketType.INPUT /\
   PacketHeader.payloadSize decoded.1 = 21 /\
   Z.of_nat (length dgram) - 23 = 20) /\
  (PlayerInput.sequence input = 1 /\
   input_bytes input !! 0%nat = Some 1 /\
   dgram !! 22%nat = Some 0 /\
   drop 23 dgram = drop 1 (input_bytes input) /\
   PlayerInput.sequence (PacketBuffer.readPlayerInput decoded.2).1 = 0) /\
  (length update = 55%nat /\
   PacketHeader.type (PacketBuffer.readHeader (received update)).1 = PacketType.STATE_UPDATE /\
   PacketHeader.payloadSize (PacketBuffer.readHeader (received update)).1 = 33) /\
  (length snapshot = 167%nat /\
   PacketHeader.type (PacketBuffer.readHeader (received snapshot)).1
   = PacketType.WORLD_SNAPSHOT /\
   PacketHeader.payloadSize (PacketBuffer.readHeader (received snapshot)).1 = 145).
Proof. vm_compute. repeat split; reflexivity. Qed.

(** The same INPUT datagram, received by the host the player is connected
    to: the input it carries never reaches the pending queue, because the
    sequence decoded from offset 23 is 0. *)
Lemma input_packet_is_lost_on_host :
  let c := @Client.sendInput example_libm (input_W 0) (connected_client 1 0) in
  let dgram := List.last (Client.sent c) [] in
  let h := Host.receivePackets F32.zero [(example_addr, dgram)] host_with_player in
  Connection.pendingInputs <$> (Host.connections_ h !! 1) = Some [].
Proof. vm_compute. reflexivity. Qed.

(** *** Every INPUT packet has this shape *)

Lemma foldl_writePlayerInput_put (ins : list PlayerInput) (b : PacketBuffer) :
  foldl (fun b input => PacketBuffer.writePlayerInput input b) b ins
  = put (concat (map input_bytes ins)) b.
Proof.
  revert b. induction ins as [| i ins IH]; intros b; [reflexivity |].
  cbn [foldl map concat]. rewrite IH, writePlayerInput_put, put_app. reflexivity.
Qed.

Lemma length_concat_input_bytes (ins : list PlayerInput) :
  length (concat (map input_bytes ins)) = (21 * length ins)%nat.
Proof.
  induction ins as [| i ins IH]; [reflexivity |].
  cbn [map concat]. rewrite length_app, IH, length_input_bytes. cbn [length]. lia.
Qed.

(** For a client whose counters are 32-bit values and whose history holds
    at least one input, the INPUT datagram [sendInput] builds is
    [22 + 21 k] bytes long for its [k] inputs, and the [payloadSize] a
    receiver decodes from it is that length minus 22. *)
Lemma inputBuffer_layout (c : Client) :
  let unacked := InputHistory.getUnacknowledged (Client.inputHistory_ c) in
  let k := Nat.min (length unacked) 5 in
  let b := Client.inputBuffer c in
  let dgram := take (PacketBuffer.writePos b) (PacketBuffer.data b) in
  is_u32 (Client.localSequence_ c) -> is_u32 (Client.remoteSequence_ c) ->
  is_u32 (Client.ackBits_ c) -> is_u32 (Client.serverTick_ c) ->
  (1 <= k)%nat ->
  length dgram = (22 + 21 * k)%nat /\
  PacketHeader.payloadSize (PacketBuffer.readHeader (received dgram)).1
  = Z.of_nat (length dgram) - 22.
Proof.
  intros unacked k b dgram Hls Hrs Hab Htk Hk.
  set (ins := drop (length unacked - k) unacked).
  assert (length ins = k) as Hins by (subst ins k; rewrite length_drop; lia).
  assert (k <= 5)%nat as Hk5 by (subst k; lia).
  set (payload := concat (map input_bytes ins)).
  assert (length payload = (21 * k)%nat) as Hpl
    by (subst payload; rewrite length_concat_input_bytes, Hins; reflexivity).
  subst dgram b. unfold Client.inputBuffer. fold unacked. fold k. fold ins.
  rewrite foldl_writePlayerInput_put. fold payload.
  set (b0 := new_buffer{{ PacketBuffer.writePos := _ }}).
  assert (room (length payload) b0) as Hr0.
  { split; [reflexivity |]. rewrite Hpl. change (PacketBuffer.writePos b0) with 22%nat.
    unfold MAX_PACKET_SIZE. lia. }
  rewrite (put_spec payload b0 Hr0).
  cbn [PacketBuffer.writePos PacketBuffer.data PacketBuffer.readPos apply_update constant].
  change (PacketBuffer.writePos b0) with 22%nat.
  change (PacketBuffer.writePos new_buffer) with 0%nat.
  change (PacketBuffer.readPos b0) with 0%nat.
  match goal with
  | |- context [PacketBuffer.writeHeader ?hd ?bb] => set (header := hd); set (b1 := bb)
  end.
  assert (PacketHeader.wf header) as Hwf.
  { subst header. unfold PacketHeader.wf.
    cbn [PacketHeader.magic PacketHeader.type PacketHeader.sequence PacketHeader.ack
         PacketHeader.ackBits PacketHeader.tick PacketHeader.payloadSize].
    split; [reflexivity |].
    split; [repeat (apply Forall_cons_2; [cbv; split; [discriminate | reflexivity] |]);
            apply Forall_nil_2 |].
    split; [cbv; split; [discriminate | reflexivity] |].
    repeat (split; [assumption |]).
    unfold is_u16, wrap16. apply Z.mod_pos_bound. lia. }
  assert (length (PacketBuffer.data b1) = MAX_PACKET_SIZE) as Hd1.
  { subst b1. cbn [PacketBuffer.data].
    rewrite !length_app, length_take, length_drop, Hpl.
    change (length (PacketBuffer.data b0)) with MAX_PACKET_SIZE.
    unfold MAX_PACKET_SIZE. lia. }
  assert (room (length (header_bytes header)) b1) as Hr1.
  { rewrite length_header_bytes by apply Hwf.
    split; [exact Hd1 | change (PacketBuffer.writePos b1) with 0%nat; unfold MAX_PACKET_SIZE; lia]. }
  rewrite (writeHeader_put header b1)
    by (first [apply Hwf | split; [exact Hd1 | change (PacketBuffer.writePos b1) with 0%nat;
                                               unfold MAX_PACKET_SIZE; lia]]).
  rewrite (put_spec _ b1 Hr1). cbv beta iota.
  change (PacketBuffer.writePos b1) with 0%nat.
  rewrite length_header_bytes by apply Hwf.
  rewrite take_0, app_nil_l, Nat.add_0_l.
  assert (length (take (22 + length payload)
                    (header_bytes header ++ drop 23 (PacketBuffer.data b1)))
          = (22 + 21 * k)%nat) as Hlen.
  { rewrite length_take, length_app, length_header_bytes, length_drop, Hd1, Hpl by apply Hwf.
    unfold MAX_PACKET_SIZE. lia. }
  split; [exact Hlen |].
  rewrite Hlen.
  assert (holds (received (take (22 + length payload)
                             (header_bytes header ++ drop 23 (PacketBuffer.data b1))))
                (header_bytes header ++ [])) as Hh.
  { rewrite app_nil_r. unfold received, recv_into, holds.
    cbn [PacketBuffer.writePos PacketBuffer.data PacketBuffer.readPos apply_update constant].
    rewrite (take_ge _ MAX_PACKET_SIZE) by (rewrite Hlen; unfold MAX_PACKET_SIZE; lia).
    rewrite Hlen, length_header_bytes by apply Hwf. split; [lia |].
    rewrite drop_0.
    rewrite take_app_ge by (rewrite length_header_bytes by apply Hwf; lia).
    rewrite <- app_assoc. eexists. reflexivity. }
  destruct (readHeader_holds header [] _ Hwf Hh) as (b' & -> & _).
  cbn [fst]. subst header. cbn [PacketHeader.payloadSize].
  unfold wrap16. rewrite Hpl, Z.mod_small; lia.
Qed.

(** ** The repository's own tests, run on the embedding *)

(** [testHeaderValidation]: the header of the test round-trips, and a
    buffer whose first byte is 'X' fails the magic check. *)
Example test_header_validation :
  let headerOut := PacketHeader.default{{
                     PacketHeader.type := PacketType.STATE_UPDATE;
                     PacketHeader.sequence := 12345;
                     PacketHeader.ack := 12340;
                     PacketHeader.ackBits := 0xFFFFFFFF;
                     PacketHeader.tick := 9999;
                     PacketHeader.payloadSize := 128 }} in
  let headerIn := (PacketBuffer.readHeader (PacketBuffer.writeHeader headerOut new_buffer)).1 in
  let bad := PacketBuffer.mk (<[0%nat := 88]> (PacketBuffer.data new_buffer)) 22 0 in
  headerIn = headerOut /\
  PacketHeader.isValid headerIn = true /\
  PacketHeader.isValid (PacketBuffer.readHeader bad).1 = false.
Proof. vm_compute. repeat split; reflexivity. Qed.

(** [testInterpolation]: states at ticks 100, 110, 120 with x = 0, 10, 20;
    at tick 105 the interpolated x is 5. *)
Example test_interpolation :
  let s := InterpolationState.addState (state_at 120 20)
             (InterpolationState.addState (state_at 110 10)
                (InterpolationState.addState (state_at 100 0) Client.new_interpolation)) in
  let r := InterpolationState.interpolate s 105 PlayerState.default in
  r.1 = true /\ Vec3.x (PlayerState.position r.2) = F32.of_Z 5 /\
  PlayerState.tick r.2 = 105.
Proof. vm_compute. repeat split; reflexivity. Qed.

(** [testInputHistory]: inputs 1..10, then [acknowledgeUpTo(5)] leaves
    6..10 in order. *)
Example test_input_history :
  let h := foldl (fun h n => InputHistory.addInput (input_W n) PlayerState.default h)
                 InputHistory.empty [1; 2; 3; 4; 5; 6; 7; 8; 9; 10] in
  length (InputHistory.getUnacknowledged h) = 10%nat /\
  sequences (InputHistory.getUnacknowledged (InputHistory.acknowledgeUpTo 5 h))
  = [6; 7; 8; 9; 10].
Proof. vm_compute. split; reflexivity. Qed.

(** Prediction responsiveness: [sendInput] with W held for 0.1 s at yaw 0
    moves the local player from x = 0 to x = 0.5 at once. *)
Example test_prediction :
  let c := @Client.sendInput example_libm (input_W 0) (connected_client 1 0) in
  Vec3.x (PlayerState.position (Client.localState_ c)) = F32.c0_5.
Proof. vm_compute. reflexivity. Qed.

(** ** Instances

    Each property above that has a premise, applied to concrete data. *)

Ltac in_range :=
  cbv; first [ split; [discriminate | reflexivity] | discriminate | reflexivity ].

Lemma codec_roundtrip_witness :
  let h := PacketHeader.default{{
             PacketHeader.type := PacketType.STATE_UPDATE;
             PacketHeader.sequence := 12345;
             PacketHeader.ack := 12340;
             PacketHeader.ackBits := 0xFFFFFFFF;
             PacketHeader.tick := 9999;
             PacketHeader.payloadSize := 128 }} in
  let i := input_W 7 in
  let s := state_at 200 10 in
  (PacketBuffer.readHeader (PacketBuffer.writeHeader h new_buffer)).1 = h /\
  (PacketBuffer.readPlayerInput (PacketBuffer.writePlayerInput i new_buffer)).1 = i /\
  (PacketBuffer.readPlayerState (PacketBuffer.writePlayerState s new_buffer)).1 = s.
Proof.
  intros h i s. apply (codec_roundtrip h i s new_buffer).
  - split; [reflexivity |].
    split; [change (Forall is_u8 [80; 85; 76; 83]);
            repeat (apply Forall_cons_2; [in_range |]); apply Forall_nil_2 |].
    repeat split; in_range.
  - repeat split; in_range.
  - repeat split; in_range.
  - repeat split; reflexivity.
Defined.

Lemma short_datagram_passes_magic_gate_witness :
  PacketHeader.isValid (PacketBuffer.readHeader (received [1])).1 = true.
Proof.
  apply (proj1 short_datagram_passes_magic_gate (received [1])). cbv. lia.
Defined.

Lemma bad_magic_is_dropped_witness :
  let dgram := [88; 85; 76; 83; 1] in
  Host.receivePackets F32.zero [(example_addr, dgram)] host_with_player = host_with_player /\
  @Client.receivePackets example_libm F32.zero [dgram] (connected_client 1 0)
  = connected_client 1 0.
Proof.
  intros dgram.
  assert (4 <= length dgram)%nat as Hlen by (cbv; lia).
  assert (take 4 dgram <> [80; 85; 76; 83]) as Hne by (cbv; discriminate).
  destruct (bad_magic_is_dropped dgram Hlen Hne) as (_ & Hhost & _ & Hclient).
  split; [apply Hhost | apply Hclient].
Defined.

Lemma updateAcks_spec_witness :
  let header := PacketHeader.default{{ PacketHeader.sequence := 12 }} in
  let conn := Connection.default{{ Connection.remoteSequence := 10;
                                   Connection.ackBits := 5 }} in
  Connection.ackBits (Host.updateAcks header conn) = 21 /\
  Connection.remoteSequence (Host.updateAcks header conn) = 12.
Proof.
  intros header conn.
  pose (c := new_client{{ Client.remoteSequence_ := 10; Client.ackBits_ := 5 }}).
  destruct (updateAcks_spec header conn c) as (_ & Hnew & _);
    [in_range | in_range | reflexivity | reflexivity |].
  apply Hnew; cbv; reflexivity.
Defined.

Lemma connect_accept_in_any_state_witness :
  let header := (PacketBuffer.readHeader (received accept_datagram)).1 in
  let buffer := (PacketBuffer.readHeader (received accept_datagram)).2 in
  Client.state_ (@Client.handlePacket example_libm header buffer F32.zero
                   (connected_client 1 0)) = CONNECTED /\
  @Client.update example_libm F32.zero [accept_datagram] new_client = new_client.
Proof.
  intros header buffer. split.
  - apply (proj1 (connect_accept_in_any_state example_libm) header buffer F32.zero
             (connected_client 1 0)).
    vm_compute. reflexivity.
  - apply (proj2 (connect_accept_in_any_state example_libm)). reflexivity.
Defined.

Lemma interpolate_freeze_witness :
  let s := InterpolationState.addState (state_at 110 10)
             (InterpolationState.addState (state_at 100 0) Client.new_interpolation) in
  InterpolationState.interpolate s 130 PlayerState.default = (true, state_at 110 10) /\
  InterpolationState.interpolate Client.new_interpolation 130 PlayerState.default
  = (false, PlayerState.default).
Proof.
  intros s. split.
  - apply (proj1 (interpolate_freeze s 130 PlayerState.default)); cbv; discriminate.
  - apply (proj2 (interpolate_freeze Client.new_interpolation 130 PlayerState.default)).
    cbv. reflexivity.
Defined.

Lemma acknowledgeUpTo_sorted_witness :
  let h := foldl (fun h n => InputHistory.addInput (input_W n) PlayerState.default h)
                 InputHistory.empty [1; 2; 3] in
  Forall (fun i => 2 < PlayerInput.sequence i)
         (InputHistory.getUnacknowledged (InputHistory.acknowledgeUpTo 2 h)).
Proof.
  intros h. apply (acknowledgeUpTo_sorted h 2).
  - cbv. lia.
  - unfold history_sorted. vm_compute.
    repeat (constructor; try discriminate).
Defined.

Lemma reconcileState_cases_witness :
  let c := predicting_client in
  let p := PlayerState.position (Client.localState_ c) in
  let far := server_state_off (F32.div (F32.of_Z 3) (F32.of_Z 5)) in
  let near := server_state_off (F32.div (F32.of_Z 3) (F32.of_Z 10)) in
  let same := server_state_off (F32.div (F32.of_Z 1) (F32.of_Z 256)) in
  let replayed (s : PlayerState) :=
    Vec3.add (PlayerState.position s) (Vec3.mk F32.c0_5 F32.zero F32.zero) in
  p = Vec3.mk (F32.of_Z 1) F32.c1_7 (F32.of_Z 5) /\
  map PlayerInput.sequence
      (InputHistory.getUnacknowledged
         (Client.inputHistory_ (@Client.reconcileState example_libm far c))) = [2] /\
  PlayerState.position (Client.localState_ (@Client.reconcileState example_libm far c))
  = replayed far /\
  PlayerState.position (Client.localState_ (@Client.reconcileState example_libm near c))
  = Vec3.add p (Vec3.scale (Vec3.sub (replayed near) p) F32.c0_1) /\
  PlayerState.position (Client.localState_ (@Client.reconcileState example_libm same c))
  = p.
Proof.
  intros c p far near same replayed. split; [vm_compute; reflexivity |]. split; [| split; [| split]].
  - destruct (reconcileState_cases example_libm far c) as (Hhist & _).
    rewrite Hhist. vm_compute. reflexivity.
  - destruct (reconcileState_cases example_libm far c) as (_ & _ & _ & Hsnap & _).
    rewrite Hsnap; vm_compute; reflexivity.
  - destruct (reconcileState_cases example_libm near c) as (_ & _ & Hblend & _).
    rewrite Hblend; vm_compute; reflexivity.
  - destruct (reconcileState_cases example_libm same c) as (_ & Hkeep & _).
    rewrite Hkeep; vm_compute; reflexivity.
Defined.

Lemma applyInput_host_client_agree_witness :
  let h := host_with_player in
  exists s',
    Host.players_ (@Host.applyInput example_libm 1 (input_W 1) h) !! 1 = Some s' /\
    pose s' = pose (@Client.applyInputToState example_libm (Host.spawn 1) (input_W 1)).
Proof.
  intros h.
  destruct (proj1 (applyInput_host_client_agree example_libm) h 1 (Host.spawn 1) (input_W 1))
    as (s' & Hs' & Hp & _).
  - vm_compute. reflexivity.
  - exists s'. split; assumption.
Defined.

(** * Further properties of the packet buffer *)

Lemma writeVec3_put (v : Vec3) (b : PacketBuffer) :
  PacketBuffer.writeVec3 v b = put (vec3_bytes v) b.
Proof.
  unfold PacketBuffer.writeVec3, PacketBuffer.writeFloat, vec3_bytes.
  rewrite !writeU32_put, !put_app. reflexivity.
Qed.

Lemma writeEntityState_put (e : EntityState) (b : PacketBuffer) :
  PacketBuffer.writeEntityState e b = put (entity_bytes e) b.
Proof.
  unfold PacketBuffer.writeEntityState, PacketBuffer.writeFloat, entity_bytes.
  rewrite !writeVec3_put, !writeU32_put, writeU8_put, !put_app. reflexivity.
Qed.

Lemma length_vec3_bytes (v : Vec3) : length (vec3_bytes v) = 12%nat.
Proof. reflexivity. Qed.

Lemma length_entity_bytes (e : EntityState) : length (entity_bytes e) = 37%nat.
Proof. reflexivity. Qed.

Lemma readVec3_holds_wf (v : Vec3) (bs : list Z) (b : PacketBuffer) :
  vec3_wf v -> holds b (vec3_bytes v ++ bs) ->
  exists b', PacketBuffer.readVec3 b = (v, b') /\ holds b' bs.
Proof.
  intros (Hx & Hy & Hz) Hh. unfold vec3_bytes in Hh. rewrite <- !app_assoc in Hh.
  exact (readVec3_holds _ _ _ Hx Hy Hz Hh).
Qed.

Lemma readEntityState_holds (e : EntityState) (bs : list Z) (b : PacketBuffer) :
  entity_wf e -> holds b (entity_bytes e ++ bs) ->
  exists b', PacketBuffer.readEntityState b = (e, b') /\ holds b' bs.
Proof.
  intros (Hid & Hty & Hp & Hv & Hyaw & Hpitch) Hh.
  unfold entity_bytes in Hh. rewrite <- !app_assoc in Hh.
  destruct (readU32_holds _ _ _ Hid Hh) as (b1 & E1 & H1).
  destruct (readU8_holds _ _ _ H1) as (b2 & E2 & H2).
  destruct (readVec3_holds_wf _ _ _ Hp H2) as (b3 & E3 & H3).
  destruct (readVec3_holds_wf _ _ _ Hv H3) as (b4 & E4 & H4).
  destruct (readU32_holds _ _ _ Hyaw H4) as (b5 & E5 & H5).
  destruct (readU32_holds _ _ _ Hpitch H5) as (b6 & E6 & H6).
  exists b6. split; [| exact H6].
  unfold PacketBuffer.readEntityState, PacketBuffer.readFloat.
  rewrite (bind_eq _ _ _ _ _ E1), (bind_eq _ _ _ _ _ E2), (bind_eq _ _ _ _ _ E3),
    (bind_eq _ _ _ _ _ E4), (bind_eq _ _ _ _ _ E5), (bind_eq _ _ _ _ _ E6).
  unfold PacketBuffer.ret. destruct e; reflexivity.
Qed.

(** ** Cursors of the read operations *)

Lemma read_in_bounds_ret {A} (a : A) : read_in_bounds (PacketBuffer.ret a).
Proof. intros b. unfold PacketBuffer.ret. cbn. repeat split; lia. Qed.

Lemma read_in_bounds_bind {A B} (m : PacketBuffer.Rd A) (k : A -> PacketBuffer.Rd B) :
  read_in_bounds m -> (forall a, read_in_bounds (k a)) ->
  read_in_bounds (PacketBuffer.bind m k).
Proof.
  intros Hm Hk b. unfold PacketBuffer.bind.
  specialize (Hm b). destruct (m b) as [a b1]. cbn [snd] in Hm.
  specialize (Hk a b1). destruct (k a b1) as [v b2]. cbn [snd] in *.
  destruct Hm as (D1 & W1 & R1 & B1), Hk as (D2 & W2 & R2 & B2).
  rewrite D2, D1, W2, W1. rewrite W1 in B2. repeat split; lia.
Qed.

Lemma advances_ret {A} (a : A) : advances 0 (PacketBuffer.ret a).
Proof. intros b _. unfold PacketBuffer.ret. cbn. lia. Qed.

Lemma advances_bind {A B} (n k : nat) (m : PacketBuffer.Rd A) (f : A -> PacketBuffer.Rd B) :
  read_in_bounds m -> advances n m -> (forall a, advances k (f a)) ->
  advances (n + k) (PacketBuffer.bind m f).
Proof.
  intros Hb Hm Hf b Hle. unfold PacketBuffer.bind.
  specialize (Hm b). specialize (Hb b). destruct (m b) as [a b1]. cbn [snd] in *.
  specialize (Hf a b1). destruct (f a b1) as [v b2]. cbn [snd] in *.
  destruct Hb as (_ & W1 & _ & _).
  rewrite Hf; rewrite Hm; lia.
Qed.

Lemma readU8_cursor : read_in_bounds PacketBuffer.readU8 /\ advances 1 PacketBuffer.readU8.
Proof.
  split.
  - intros [d w r]. unfold PacketBuffer.readU8.
    cbn [PacketBuffer.readPos PacketBuffer.writePos PacketBuffer.data].
    destruct (r <? w)%nat eqn:E; cbn; repeat split; try lia.
    apply Nat.ltb_lt in E. lia.
  - intros [d w r]. unfold PacketBuffer.readU8.
    cbn [PacketBuffer.readPos PacketBuffer.writePos PacketBuffer.data]. intros Hle.
    assert ((r <? w)%nat = true) as -> by (apply Nat.ltb_lt; lia). cbn. lia.
Qed.

Lemma readBytes_cursor (dst : list Z) (len : nat) :
  read_in_bounds (PacketBuffer.readBytes dst len) /\
  advances len (PacketBuffer.readBytes dst len).
Proof.
  split.
  - intros [d w r]. unfold PacketBuffer.readBytes.
    cbn [PacketBuffer.readPos PacketBuffer.writePos PacketBuffer.data].
    destruct (r + len <=? w)%nat eqn:E; cbn; repeat split; try lia.
    apply Nat.leb_le in E. lia.
  - intros [d w r]. unfold PacketBuffer.readBytes.
    cbn [PacketBuffer.readPos PacketBuffer.writePos PacketBuffer.data]. intros Hle.
    assert ((r + len <=? w)%nat = true) as -> by (apply Nat.leb_le; lia). reflexivity.
Qed.

Ltac cursor_step :=
  first
    [ assumption
    | apply read_in_bounds_ret
    | apply read_in_bounds_bind; [| intros ? ] ].

Lemma readU16_cursor : read_in_bounds PacketBuffer.readU16 /\ advances 2 PacketBuffer.readU16.
Proof.
  destruct readU8_cursor as [B A]. unfold PacketBuffer.readU16. split.
  - repeat cursor_step.
  - change 2%nat with (1 + (1 + 0))%nat.
    apply advances_bind; [exact B | exact A | intros ?].
    apply advances_bind; [exact B | exact A | intros ?]. apply advances_ret.
Qed.

Lemma readU32_cursor : read_in_bounds PacketBuffer.readU32 /\ advances 4 PacketBuffer.readU32.
Proof.
  destruct readU16_cursor as [B A]. unfold PacketBuffer.readU32. split.
  - repeat cursor_step.
  - change 4%nat with (2 + (2 + 0))%nat.
    apply advances_bind; [exact B | exact A | intros ?].
    apply advances_bind; [exact B | exact A | intros ?]. apply advances_ret.
Qed.

Lemma readVec3_cursor : read_in_bounds PacketBuffer.readVec3 /\ advances 12 PacketBuffer.readVec3.
Proof.
  destruct readU32_cursor as [B A].
  unfold PacketBuffer.readVec3, PacketBuffer.readFloat. split.
  - repeat cursor_step.
  - change 12%nat with (4 + (4 + (4 + 0)))%nat.
    repeat (apply advances_bind; [exact B | exact A | intros ?]). apply advances_ret.
Qed.

Lemma readHeader_cursor :
  read_in_bounds PacketBuffer.readHeader /\ advances 23 PacketBuffer.readHeader.
Proof.
  destruct readU8_cursor as [B8 A8], readU16_cursor as [B16 A16],
    readU32_cursor as [B32 A32].
  destruct (readBytes_cursor (PacketHeader.magic PacketHeader.default) 4) as [Bm Am].
  unfold PacketBuffer.readHeader. split.
  - repeat cursor_step.
  - change 23%nat with (4 + (1 + (4 + (4 + (4 + (4 + (2 + 0)))))))%nat.
    apply advances_bind; [exact Bm | exact Am | intros ?].
    apply advances_bind; [exact B8 | exact A8 | intros ?].
    do 4 (apply advances_bind; [exact B32 | exact A32 | intros ?]).
    apply advances_bind; [exact B16 | exact A16 | intros ?]. apply advances_ret.
Qed.

Lemma readPlayerInput_cursor :
  read_in_bounds PacketBuffer.readPlayerInput /\ advances 21 PacketBuffer.readPlayerInput.
Proof.
  destruct readU8_cursor as [B8 A8], readU32_cursor as [B32 A32].
  unfold PacketBuffer.readPlayerInput, PacketBuffer.readFloat. split.
  - repeat cursor_step.
  - change 21%nat with (4 + (4 + (1 + (4 + (4 + (4 + 0))))))%nat.
    do 2 (apply advances_bind; [exact B32 | exact A32 | intros ?]).
    apply advances_bind; [exact B8 | exact A8 | intros ?].
    do 3 (apply advances_bind; [exact B32 | exact A32 | intros ?]). apply advances_ret.
Qed.

Lemma readPlayerState_cursor :
  read_in_bounds PacketBuffer.readPlayerState /\ advances 32 PacketBuffer.readPlayerState.
Proof.
  destruct readVec3_cursor as [Bv Av], readU32_cursor as [B32 A32].
  unfold PacketBuffer.readPlayerState, PacketBuffer.readFloat. split.
  - repeat cursor_step.
  - change 32%nat with (4 + (4 + (12 + (4 + (4 + (4 + 0))))))%nat.
    do 2 (apply advances_bind; [exact B32 | exact A32 | intros ?]).
    apply advances_bind; [exact Bv | exact Av | intros ?].
    do 3 (apply advances_bind; [exact B32 | exact A32 | intros ?]). apply advances_ret.
Qed.

Lemma readEntityState_cursor :
  read_in_bounds PacketBuffer.readEntityState /\ advances 37 PacketBuffer.readEntityState.
Proof.
  destruct readVec3_cursor as [Bv Av], readU32_cursor as [B32 A32],
    readU8_cursor as [B8 A8].
  unfold PacketBuffer.readEntityState, PacketBuffer.readFloat. split.
  - repeat cursor_step.
  - change 37%nat with (4 + (1 + (12 + (12 + (4 + (4 + 0))))))%nat.
    apply advances_bind; [exact B32 | exact A32 | intros ?].
    apply advances_bind; [exact B8 | exact A8 | intros ?].
    do 2 (apply advances_bind; [exact Bv | exact Av | intros ?]).
    do 2 (apply advances_bind; [exact B32 | exact A32 | intros ?]). apply advances_ret.
Qed.

Lemma put_cursors (bs : list Z) (b : PacketBuffer) :
  room (length bs) b ->
  PacketBuffer.writePos (put bs b) = (PacketBuffer.writePos b + length bs)%nat /\
  PacketBuffer.readPos (put bs b) = PacketBuffer.readPos b.
Proof. intros Hr. rewrite (put_spec _ _ Hr). split; reflexivity. Qed.

(** X1.  An [EntityState] written at the write cursor of a buffer with
    room for it is read back unchanged from that position, and its
    encoding takes 37 bytes: 4 for the id, 1 for the type, 12 for each
    of position and velocity, 4 for each of yaw and pitch. *)
Theorem entity_state_roundtrip (e : EntityState) (b : PacketBuffer) :
  entity_wf e -> room 37 b -> PacketBuffer.readPos b = PacketBuffer.writePos b ->
  (PacketBuffer.readEntityState (PacketBuffer.writeEntityState e b)).1 = e /\
  PacketBuffer.size (PacketBuffer.writeEntityState e b)
  = (PacketBuffer.size b + 37)%nat /\
  PacketBuffer.readPos (PacketBuffer.readEntityState (PacketBuffer.writeEntityState e b)).2
  = PacketBuffer.size (PacketBuffer.writeEntityState e b).
Proof.
  intros Hwf Hroom Hpos.
  rewrite writeEntityState_put.
  assert (room (length (entity_bytes e)) b) as Hr by (rewrite length_entity_bytes; exact Hroom).
  pose proof (holds_put _ _ Hr Hpos) as Hh.
  destruct (put_cursors _ _ Hr) as [Hw Hrp].
  rewrite length_entity_bytes in Hw.
  generalize dependent (put (entity_bytes e) b). intros b1 Hh Hw Hrp.
  assert (holds b1 (entity_bytes e ++ [])) as Hh' by (rewrite app_nil_r; exact Hh).
  destruct (readEntityState_holds e [] _ Hwf Hh') as (b' & E & Hb').
  destruct readEntityState_cursor as [_ A].
  specialize (A b1). unfold PacketBuffer.size.
  split; [rewrite E; reflexivity |].
  split; [exact Hw |].
  rewrite A; lia.
Qed.

Lemma entity_state_roundtrip_witness :
  (PacketBuffer.readEntityState (PacketBuffer.writeEntityState Host.cube2 new_buffer)).1
  = Host.cube2 /\
  PacketBuffer.size (PacketBuffer.writeEntityState Host.cube2 new_buffer) = 37%nat.
Proof.
  assert (entity_wf Host.cube2) as Hwf by (repeat split; in_range).
  assert (room 37 new_buffer) as Hroom by (split; vm_compute; [reflexivity | lia]).
  destruct (entity_state_roundtrip Host.cube2 new_buffer Hwf Hroom eq_refl) as (H1 & H2 & _).
  exact (conj H1 H2).
Defined.

(** ** Cursors and capacity of the write operations *)

Lemma extends_refl (b : PacketBuffer) : room 0 b -> extends b b.
Proof. intros Hr. repeat split; try apply Hr; lia. Qed.

Lemma extends_trans (b1 b2 b3 : PacketBuffer) :
  extends b1 b2 -> extends b2 b3 -> extends b1 b3.
Proof.
  intros (R2 & P2 & W2 & T2) (R3 & P3 & W3 & T3).
  repeat split; try apply R3; try lia.
  rewrite <- T2.
  rewrite <- (Nat.min_l _ _ W2), <- !take_take, T3. reflexivity.
Qed.

Lemma writeU8_extends (v : Z) (b : PacketBuffer) : room 0 b -> extends b (PacketBuffer.writeU8 v b).
Proof.
  intros Hr. unfold PacketBuffer.writeU8.
  destruct (PacketBuffer.writePos b <? MAX_PACKET_SIZE)%nat eqn:E;
    [| apply extends_refl; exact Hr].
  apply Nat.ltb_lt in E. destruct Hr as [Hl Hw]. destruct b as [d w r].
  cbn [PacketBuffer.data PacketBuffer.writePos PacketBuffer.readPos] in *.
  unfold extends, room.
  cbn [PacketBuffer.data PacketBuffer.writePos PacketBuffer.readPos apply_update constant].
  rewrite length_insert, take_insert_ge by lia. repeat split; first [lia | exact Hl].
Qed.

Lemma put_extends (bs : list Z) (b : PacketBuffer) : room 0 b -> extends b (put bs b).
Proof.
  revert b. induction bs as [| v bs IH]; intros b Hr; [apply extends_refl; exact Hr |].
  change (put (v :: bs) b) with (put bs (PacketBuffer.writeU8 v b)).
  pose proof (writeU8_extends v b Hr) as H1.
  eapply extends_trans; [exact H1 |]. apply IH. apply H1.
Qed.

Lemma writeBytes_extends (src : list Z) (b : PacketBuffer) :
  room 0 b -> extends b (PacketBuffer.writeBytes src b).
Proof.
  intros Hr. unfold PacketBuffer.writeBytes.
  destruct (PacketBuffer.writePos b + length src <=? MAX_PACKET_SIZE)%nat eqn:E;
    [| apply extends_refl; exact Hr].
  apply Nat.leb_le in E. destruct Hr as [Hl Hw]. destruct b as [d w r].
  cbn [PacketBuffer.data PacketBuffer.writePos PacketBuffer.readPos] in *.
  unfold extends, room.
  cbn [PacketBuffer.data PacketBuffer.writePos PacketBuffer.readPos apply_update constant].
  rewrite !length_app, length_take, length_drop, Hl.
  rewrite take_app_le by (rewrite length_take; lia).
  rewrite take_take, Nat.min_id.
  repeat split; lia.
Qed.

Lemma writeHeader_as_put (h : PacketHeader) (b : PacketBuffer) :
  PacketBuffer.writeHeader h b
  = put ([PacketHeader.type h]
         ++ bytes32 (PacketHeader.sequence h) ++ bytes32 (PacketHeader.ack h)
         ++ bytes32 (PacketHeader.ackBits h) ++ bytes32 (PacketHeader.tick h)
         ++ bytes16 (PacketHeader.payloadSize h))
        (PacketBuffer.writeBytes (take 4 (PacketHeader.magic h)) b).
Proof.
  unfold PacketBuffer.writeHeader.
  rewrite writeU16_put, !writeU32_put, writeU8_put, !put_app. reflexivity.
Qed.

Lemma bytewise_put (op : write_op) (b : PacketBuffer) :
  bytewise op = true -> run_write op b = put (op_bytes op) b.
Proof.
  destruct op; intros Hb; try discriminate Hb; cbn [run_write op_bytes].
  - apply writeU8_put.
  - apply writeU16_put.
  - apply writeU32_put.
  - apply writeU32_put.
  - apply writeVec3_put.
  - apply writePlayerInput_put.
  - apply writePlayerState_put.
  - apply writeEntityState_put.
Qed.

Lemma run_write_extends (op : write_op) (b : PacketBuffer) :
  room 0 b -> extends b (run_write op b).
Proof.
  intros Hr. destruct (bytewise op) eqn:Hb.
  - rewrite (bytewise_put _ _ Hb). apply put_extends. exact Hr.
  - destruct op; try discriminate Hb; cbn [run_write].
    + apply writeBytes_extends. exact Hr.
    + rewrite writeHeader_as_put.
      pose proof (writeBytes_extends (take 4 (PacketHeader.magic h)) b Hr) as H1.
      eapply extends_trans; [exact H1 |]. apply put_extends. apply H1.
Qed.

Lemma put_full (bs : list Z) (b : PacketBuffer) :
  (MAX_PACKET_SIZE <= PacketBuffer.writePos b)%nat -> put bs b = b.
Proof.
  intros Hw. induction bs as [| v bs IH]; [reflexivity |].
  change (put (v :: bs) b) with (put bs (PacketBuffer.writeU8 v b)).
  unfold PacketBuffer.writeU8.
  assert ((PacketBuffer.writePos b <? MAX_PACKET_SIZE)%nat = false) as ->
    by (apply Nat.ltb_ge; exact Hw).
  exact IH.
Qed.

Lemma writeBytes_full (src : list Z) (b : PacketBuffer) :
  room 0 b -> (MAX_PACKET_SIZE < PacketBuffer.writePos b + length src)%nat ->
  PacketBuffer.writeBytes src b = b.
Proof.
  intros _ Hw. unfold PacketBuffer.writeBytes.
  assert ((PacketBuffer.writePos b + length src <=? MAX_PACKET_SIZE)%nat = false) as ->
    by (apply Nat.leb_gt; exact Hw).
  reflexivity.
Qed.

Lemma writeBytes_nil (b : PacketBuffer) : room 0 b -> PacketBuffer.writeBytes [] b = b.
Proof.
  intros [Hl Hw]. unfold PacketBuffer.writeBytes. cbn [length].
  rewrite Nat.add_0_r.
  assert ((PacketBuffer.writePos b <=? MAX_PACKET_SIZE)%nat = true) as ->
    by (apply Nat.leb_le; lia).
  destruct b as [d w r].
  cbn [PacketBuffer.data PacketBuffer.writePos PacketBuffer.readPos apply_update constant].
  rewrite app_nil_l, take_drop. reflexivity.
Qed.

(** X2.  Every write operation of the buffer is append-only: on a
    buffer whose write cursor is within the 1400-byte array it keeps the
    array size and the cursor within it, never moves the write cursor
    back, leaves the read cursor alone and does not touch a byte written
    before.  On a full buffer every write operation does nothing. *)
Theorem writes_are_append_only (op : write_op) (b : PacketBuffer) :
  room 0 b ->
  extends b (run_write op b) /\
  (PacketBuffer.writePos b = MAX_PACKET_SIZE -> run_write op b = b).
Proof.
  intros Hr. split; [apply run_write_extends; exact Hr |].
  intros Hfull. destruct (bytewise op) eqn:Hb.
  - rewrite (bytewise_put _ _ Hb). apply put_full. lia.
  - destruct op; try discriminate Hb; cbn [run_write].
    + destruct src as [| x src]; [apply writeBytes_nil; exact Hr |].
      apply writeBytes_full; [exact Hr |]. cbn [length]. lia.
    + rewrite writeHeader_as_put.
      destruct (take 4 (PacketHeader.magic h)) as [| x m] eqn:Em.
      * rewrite (writeBytes_nil _ Hr). apply put_full. lia.
      * rewrite (writeBytes_full _ _ Hr) by (cbn [length]; lia). apply put_full. lia.
Qed.

Lemma writes_are_append_only_witness :
  let b := PacketBuffer.writeU32 7 new_buffer in
  extends b (run_write (WriteHeader PacketHeader.default) b).
Proof.
  intros b.
  assert (room 0 b) as Hr by (split; vm_compute; [reflexivity | lia]).
  exact (proj1 (writes_are_append_only (WriteHeader PacketHeader.default) b Hr)).
Defined.

Lemma put_truncated (bs : list Z) (b : PacketBuffer) :
  room 0 b ->
  (MAX_PACKET_SIZE <= PacketBuffer.writePos b + length bs)%nat ->
  put bs b
  = PacketBuffer.mk
      (take (PacketBuffer.writePos b) (PacketBuffer.data b)
         ++ take (MAX_PACKET_SIZE - PacketBuffer.writePos b) bs)
      MAX_PACKET_SIZE (PacketBuffer.readPos b).
Proof.
  intros [Hl Hw] Hle.
  set (k := (MAX_PACKET_SIZE - PacketBuffer.writePos b)%nat).
  rewrite <- (take_drop k bs) at 1. rewrite put_app.
  assert (length (take k bs) = k) as Hk by (rewrite length_take; lia).
  assert (room (length (take k bs)) b) as Hr by (split; [exact Hl | rewrite Hk; lia]).
  rewrite (put_spec _ _ Hr), Hk.
  rewrite put_full by (cbn [PacketBuffer.writePos]; lia).
  replace (PacketBuffer.writePos b + k)%nat with MAX_PACKET_SIZE by lia.
  rewrite drop_ge by lia. rewrite app_nil_r. reflexivity.
Qed.

(** X3.  What a write operation stores.  When its bytes fit before the
    end of the array they are stored at the write cursor, which moves
    past them.  When they do not fit, [writeBytes] stores nothing, while
    an operation built on [writeU8] stores the bytes that fit and drops
    the rest without a trace: the write cursor stops at 1400. *)
Theorem write_layout (op : write_op) (b : PacketBuffer) :
  let n := length (op_bytes op) in
  let w := PacketBuffer.writePos b in
  room 0 b ->
  (match op with WriteHeader h => length (PacketHeader.magic h) = 4%nat | _ => True end) ->
  ((w + n <= MAX_PACKET_SIZE)%nat ->
   run_write op b
   = PacketBuffer.mk (take w (PacketBuffer.data b) ++ op_bytes op
                        ++ drop (w + n) (PacketBuffer.data b))
                     (w + n) (PacketBuffer.readPos b)) /\
  ((MAX_PACKET_SIZE < w + n)%nat ->
   match op with
   | WriteBytes _ => run_write op b = b
   | WriteHeader _ => True
   | _ =>
       run_write op b
       = PacketBuffer.mk (take w (PacketBuffer.data b)
                            ++ take (MAX_PACKET_SIZE - w) (op_bytes op))
                         MAX_PACKET_SIZE (PacketBuffer.readPos b)
   end).
Proof.
  intros n w Hr Hm. subst n w. split.
  - intros Hfit.
    assert (room (length (op_bytes op)) b) as Hroom by (split; [apply Hr | exact Hfit]).
    destruct (bytewise op) eqn:Hb.
    + rewrite (bytewise_put _ _ Hb). apply put_spec. exact Hroom.
    + destruct op; try discriminate Hb; cbn [run_write op_bytes] in *.
      * rewrite (writeBytes_put _ _ Hroom). apply put_spec. exact Hroom.
      * assert (room 4 b) as H4.
        { split; [apply Hr |]. rewrite (length_header_bytes _ Hm) in Hfit. lia. }
        rewrite (writeHeader_put _ _ Hm H4). apply put_spec. exact Hroom.
  - intros Hover.
    destruct op; cbn [run_write op_bytes] in *; try exact I;
      try (apply writeBytes_full; [exact Hr | exact Hover]);
      rewrite ?writeU8_put, ?writeU16_put, ?writeU32_put, ?writeVec3_put,
        ?writePlayerInput_put, ?writePlayerState_put, ?writeEntityState_put;
      unfold PacketBuffer.writeFloat; rewrite ?writeU32_put;
      apply put_truncated; try exact Hr; lia.
Qed.

Lemma write_layout_witness :
  let b := new_buffer{{ PacketBuffer.writePos := 1398%nat }} in
  PacketBuffer.writeU32 0x04030201 b
  = PacketBuffer.mk (take 1398 (PacketBuffer.data b) ++ [1; 2]) MAX_PACKET_SIZE 0.
Proof.
  intros b.
  assert (room 0 b) as Hr by (split; vm_compute; [reflexivity | lia]).
  assert ((MAX_PACKET_SIZE < PacketBuffer.writePos b + length (op_bytes (WriteU32 0x04030201)))%nat)
    as Hover by (vm_compute; lia).
  exact (proj2 (write_layout (WriteU32 0x04030201) b Hr I) Hover).
Defined.

(** X4.  Every read operation leaves the bytes and the write cursor of
    the buffer alone and moves the read cursor forward without passing
    the write cursor; when the bytes it asks for are all before the
    write cursor it moves the read cursor by exactly their number:
    1, 2 and 4 for the integers, 12 for a [Vec3], 23 for a header, 21 for
    a [PlayerInput], 32 for a [PlayerState], 37 for an [EntityState]. *)
Theorem reads_stay_in_bounds :
  (read_in_bounds PacketBuffer.readU8 /\ advances 1 PacketBuffer.readU8) /\
  (read_in_bounds PacketBuffer.readU16 /\ advances 2 PacketBuffer.readU16) /\
  (read_in_bounds PacketBuffer.readU32 /\ advances 4 PacketBuffer.readU32) /\
  (read_in_bounds PacketBuffer.readFloat /\ advances 4 PacketBuffer.readFloat) /\
  (read_in_bounds PacketBuffer.readVec3 /\ advances 12 PacketBuffer.readVec3) /\
  (forall dst len, read_in_bounds (PacketBuffer.readBytes dst len) /\
                   advances len (PacketBuffer.readBytes dst len)) /\
  (read_in_bounds PacketBuffer.readHeader /\ advances 23 PacketBuffer.readHeader) /\
  (read_in_bounds PacketBuffer.readPlayerInput /\ advances 21 PacketBuffer.readPlayerInput) /\
  (read_in_bounds PacketBuffer.readPlayerState /\ advances 32 PacketBuffer.readPlayerState) /\
  (read_in_bounds PacketBuffer.readEntityState /\ advances 37 PacketBuffer.readEntityState).
Proof.
  split; [exact readU8_cursor |].
  split; [exact readU16_cursor |].
  split; [exact readU32_cursor |].
  split; [exact readU32_cursor |].
  split; [exact readVec3_cursor |].
  split; [exact readBytes_cursor |].
  split; [exact readHeader_cursor |].
  split; [exact readPlayerInput_cursor |].
  split; [exact readPlayerState_cursor | exact readEntityState_cursor].
Qed.

Lemma readU16_past (b : PacketBuffer) :
  (PacketBuffer.writePos b <= PacketBuffer.readPos b)%nat ->
  PacketBuffer.readU16 b = (0, b).
Proof.
  intros Hw. unfold PacketBuffer.readU16.
  rewrite (bind_eq _ _ _ _ _ (readU8_past b Hw)), (bind_eq _ _ _ _ _ (readU8_past b Hw)).
  reflexivity.
Qed.

Lemma readU32_past (b : PacketBuffer) :
  (PacketBuffer.writePos b <= PacketBuffer.readPos b)%nat ->
  PacketBuffer.readU32 b = (0, b).
Proof.
  intros Hw. unfold PacketBuffer.readU32.
  rewrite (bind_eq _ _ _ _ _ (readU16_past b Hw)), (bind_eq _ _ _ _ _ (readU16_past b Hw)).
  reflexivity.
Qed.

Lemma readVec3_past (b : PacketBuffer) :
  (PacketBuffer.writePos b <= PacketBuffer.readPos b)%nat ->
  PacketBuffer.readVec3 b = (Vec3.zero, b).
Proof.
  intros Hw. unfold PacketBuffer.readVec3, PacketBuffer.readFloat.
  rewrite !(bind_eq _ _ _ _ _ (readU32_past b Hw)). reflexivity.
Qed.

(** X5.  Reading from an exhausted buffer (read cursor at or past the
    write cursor) yields zeros and moves nothing: every integer is 0,
    every structure has all its fields 0, and [readBytes] leaves its
    destination as it was, so that [readHeader] returns a header with
    the magic of a default-constructed header, which is valid, and
    type 0. *)
Theorem reads_of_exhausted_buffer (b : PacketBuffer) :
  (PacketBuffer.writePos b <= PacketBuffer.readPos b)%nat ->
  PacketBuffer.readU8 b = (0, b) /\
  PacketBuffer.readU16 b = (0, b) /\
  PacketBuffer.readU32 b = (0, b) /\
  PacketBuffer.readFloat b = (F32.zero, b) /\
  PacketBuffer.readVec3 b = (Vec3.zero, b) /\
  (forall dst len, (0 < len)%nat -> PacketBuffer.readBytes dst len b = (dst, b)) /\
  PacketBuffer.readHeader b = (PacketHeader.mk [80; 85; 76; 83] 0 0 0 0 0 0, b) /\
  PacketHeader.isValid (PacketBuffer.readHeader b).1 = true /\
  PacketBuffer.readPlayerInput b = (PlayerInput.mk 0 0 0 F32.zero F32.zero F32.zero, b) /\
  PacketBuffer.readPlayerState b = (PlayerState.default, b) /\
  PacketBuffer.readEntityState b
  = (EntityState.mk 0 0 Vec3.zero Vec3.zero F32.zero F32.zero, b).
Proof.
  intros Hw.
  pose proof (readU8_past b Hw) as H8.
  pose proof (readU16_past b Hw) as H16.
  pose proof (readU32_past b Hw) as H32.
  pose proof (readVec3_past b Hw) as Hv.
  assert (forall dst len, (0 < len)%nat -> PacketBuffer.readBytes dst len b = (dst, b)) as Hb.
  { intros dst len Hlen. apply readBytes_short. lia. }
  assert (PacketBuffer.readHeader b = (PacketHeader.mk [80; 85; 76; 83] 0 0 0 0 0 0, b)) as Hh.
  { unfold PacketBuffer.readHeader.
    rewrite (bind_eq _ _ _ _ _ (Hb _ 4%nat ltac:(lia))), (bind_eq _ _ _ _ _ H8),
      !(bind_eq _ _ _ _ _ H32), (bind_eq _ _ _ _ _ H16). reflexivity. }
  repeat split; try assumption.
  - rewrite Hh. reflexivity.
  - unfold PacketBuffer.readPlayerInput, PacketBuffer.readFloat.
    rewrite !(bind_eq _ _ _ _ _ H32), (bind_eq _ _ _ _ _ H8), !(bind_eq _ _ _ _ _ H32).
    reflexivity.
  - unfold PacketBuffer.readPlayerState, PacketBuffer.readFloat.
    rewrite !(bind_eq _ _ _ _ _ H32), (bind_eq _ _ _ _ _ Hv), !(bind_eq _ _ _ _ _ H32).
    reflexivity.
  - unfold PacketBuffer.readEntityState, PacketBuffer.readFloat.
    rewrite (bind_eq _ _ _ _ _ H32), (bind_eq _ _ _ _ _ H8), !(bind_eq _ _ _ _ _ Hv),
      !(bind_eq _ _ _ _ _ H32). reflexivity.
Qed.

Lemma reads_of_exhausted_buffer_witness :
  let b := (PacketBuffer.readHeader (received request_datagram)).2 in
  PacketBuffer.readU32 b = (0, b) /\
  PacketBuffer.readPlayerState b = (PlayerState.default, b).
Proof.
  intros b.
  assert ((PacketBuffer.writePos b <= PacketBuffer.readPos b)%nat) as Hw
    by (vm_compute; lia).
  destruct (reads_of_exhausted_buffer b Hw) as (_ & _ & H32 & _ & _ & _ & _ & _ & _ & Hs & _).
  exact (conj H32 Hs).
Defined.

(** * Further properties of the reliability layer *)

Lemma testbit_one (i : Z) : 0 <= i -> Z.testbit 1 i = (i =? 0).
Proof.
  intros Hi. change 1 with (2 ^ 0). rewrite Z.pow2_bits_eqb by lia.
  destruct (Z.eqb_spec 0 i), (Z.eqb_spec i 0); try reflexivity; lia.
Qed.

Lemma testbit_wrap32 (a i : Z) : 0 <= i < 32 -> Z.testbit (wrap32 a) i = Z.testbit a i.
Proof. intros Hi. unfold wrap32. apply Z.mod_pow2_bits_low. lia. Qed.

(** Both peers apply the same update to the pair of [remoteSequence] and
    [ackBits]. *)
Lemma client_acks_as_connection (header : PacketHeader) (c : Client) (conn : Connection) :
  connection_acks conn = client_acks c ->
  client_acks (Client.updateAcks header c)
  = connection_acks (Host.updateAcks header conn).
Proof.
  destruct conn as [pid addr st ls R B lrt lst rtt pend lpi].
  destruct c as [so sa cst cpid ctick cls cR cB cis clst clrt ccst crtt cloc csrv crem cint chist cclk csent cev].
  unfold connection_acks, client_acks. cbn -[Z.shiftl Z.lor Z.pow]. intros [= -> ->].
  unfold Host.updateAcks, Client.updateAcks.
  cbn -[Z.shiftl Z.lor Z.pow wrap32 Z.ltb].
  repeat match goal with
         | |- context [if ?c then _ else _] => destruct c
         end; reflexivity.
Qed.

Lemma host_acks_sound (header : PacketHeader) (conn : Connection) :
  let S := PacketHeader.sequence header in
  let R := Connection.remoteSequence conn in
  let conn' := Host.updateAcks header conn in
  is_u32 S -> is_u32 R ->
  (connection_acks conn').1 = Z.max R S /\
  (forall q, recorded (connection_acks conn') q ->
             q = S \/ recorded (connection_acks conn) q) /\
  (forall q, recorded (connection_acks conn) q ->
             (connection_acks conn').1 - q < 32 ->
             recorded (connection_acks conn') q) /\
  (S <> R -> (connection_acks conn').1 - S < 32 -> recorded (connection_acks conn') S).
Proof.
  destruct conn as [pid addr st ls R B lrt lst rtt pend lpi].
  destruct header as [mg ty S ak ab tk ps].
  cbn -[Z.shiftl Z.lor Z.pow]. intros HS HR.
  unfold Host.updateAcks, connection_acks, recorded. unfold is_u32 in HS, HR.
  cbn -[Z.shiftl Z.lor Z.pow wrap32 Z.ltb].
  destruct (Z.ltb_spec R S) as [Hlt | Hge].
  - rewrite (wrap32_small (S - R)) by (unfold is_u32; lia).
    destruct (Z.ltb_spec (S - R) 32) as [Hsh | Hsh];
      cbn -[Z.shiftl Z.lor Z.pow wrap32].
    + split; [lia |]. split; [| split].
      * intros q (i & Hi & Hb & ->).
        rewrite Z.lor_spec, testbit_wrap32, Z.shiftl_spec, testbit_one in Hb by lia.
        destruct (Z.eqb_spec i 0) as [-> | Hne]; [left; lia |].
        rewrite orb_false_r in Hb. right.
        destruct (Z.lt_ge_cases (i - (S - R)) 0) as [Hneg | Hpos].
        { rewrite Z.testbit_neg_r in Hb by lia. discriminate Hb. }
        exists (i - (S - R)). repeat split; try lia. exact Hb.
      * intros q (j & Hj & Hb & ->) Hwin.
        exists (j + (S - R)). repeat split; try lia.
        rewrite Z.lor_spec, testbit_wrap32, Z.shiftl_spec by lia.
        replace (j + (S - R) - (S - R)) with j by lia. rewrite Hb. reflexivity.
      * intros _ _. exists 0. repeat split; try lia.
        rewrite Z.lor_spec, testbit_one by lia. apply orb_true_r.
    + split; [lia |]. split; [| split].
      * intros q (i & Hi & Hb & ->). rewrite testbit_one in Hb by lia.
        apply Z.eqb_eq in Hb. left. lia.
      * intros q (j & Hj & Hb & ->) Hwin. lia.
      * intros _ _. exists 0. repeat split; try lia.
  - destruct (Z.ltb_spec S R) as [Hlt | Hge'].
    + rewrite (wrap32_small (R - S)) by (unfold is_u32; lia).
      destruct (Z.ltb_spec (R - S) 32) as [Hd | Hd]; cbn -[Z.shiftl Z.lor Z.pow wrap32].
      * rewrite wrap32_bit by lia.
        split; [lia |]. split; [| split].
        -- intros q (i & Hi & Hb & ->).
           rewrite Z.lor_spec, Z.pow2_bits_eqb in Hb by lia.
           destruct (Z.eqb_spec (R - S) i) as [E | Hne]; [left; lia |].
           rewrite orb_false_r in Hb. right. exists i. repeat split; try lia. exact Hb.
        -- intros q (j & Hj & Hb & ->) _.
           exists j. repeat split; try lia. rewrite Z.lor_spec, Hb. reflexivity.
        -- intros _ _. exists (R - S). repeat split; try lia.
           rewrite Z.lor_spec, Z.pow2_bits_true by lia. apply orb_true_r.
      * split; [lia |]. split; [| split].
        -- intros q Hq. right. exact Hq.
        -- intros q Hq _. exact Hq.
        -- intros _ Hwin. lia.
    + cbn -[Z.shiftl Z.lor Z.pow wrap32].
      split; [lia |]. split; [| split].
      * intros q Hq. right. exact Hq.
      * intros q Hq _. exact Hq.
      * intros Hne. lia.
Qed.

(** X6.  The ack bitfield is a sound record of what arrived.  After
    [updateAcks] on a packet numbered [S], on the host and on the client
    alike: the remote sequence is the larger of its old value and [S];
    every sequence number the new state reports as received is [S] or
    one the old state reported; no number the old state reported is
    lost while it is within 31 of the new remote sequence; and [S]
    itself is reported when it differs from the old remote sequence and
    is within 31 of the new one. *)
Theorem ack_bits_record_received (header : PacketHeader) :
  let S := PacketHeader.sequence header in
  is_u32 S ->
  (forall conn : Connection,
      let R := Connection.remoteSequence conn in
      let old := connection_acks conn in
      let new := connection_acks (Host.updateAcks header conn) in
      is_u32 R ->
      new.1 = Z.max R S /\
      (forall q, recorded new q -> q = S \/ recorded old q) /\
      (forall q, recorded old q -> new.1 - q < 32 -> recorded new q) /\
      (S <> R -> new.1 - S < 32 -> recorded new S)) /\
  (forall c : Client,
      let R := Client.remoteSequence_ c in
      let old := client_acks c in
      let new := client_acks (Client.updateAcks header c) in
      is_u32 R ->
      new.1 = Z.max R S /\
      (forall q, recorded new q -> q = S \/ recorded old q) /\
      (forall q, recorded old q -> new.1 - q < 32 -> recorded new q) /\
      (S <> R -> new.1 - S < 32 -> recorded new S)).
Proof.
  intros S HS. split.
  - intros conn R old new HR. exact (host_acks_sound header conn HS HR).
  - intros c R old new HR.
    set (conn := Connection.default{{ Connection.remoteSequence := Client.remoteSequence_ c;
                                      Connection.ackBits := Client.ackBits_ c }}).
    assert (connection_acks conn = client_acks c) as Hc by reflexivity.
    subst new old. rewrite (client_acks_as_connection header c conn Hc), <- Hc.
    exact (host_acks_sound header conn HS HR).
Qed.

Lemma ack_bits_record_received_witness :
  let header := PacketHeader.default{{ PacketHeader.sequence := 12 }} in
  let conn := Connection.default{{ Connection.remoteSequence := 10;
                                   Connection.ackBits := 5 }} in
  connection_acks (Host.updateAcks header conn) = (12, 21) /\
  recorded (connection_acks (Host.updateAcks header conn)) 12 /\
  recorded (connection_acks (Host.updateAcks header conn)) 8.
Proof.
  intros header conn.
  assert (is_u32 (PacketHeader.sequence header)) as HS by in_range.
  assert (is_u32 (Connection.remoteSequence conn)) as HR by in_range.
  destruct (proj1 (ack_bits_record_received header HS) conn HR) as (_ & _ & Hkeep & Hnew).
  split; [reflexivity |]. split.
  - apply Hnew; [discriminate | reflexivity].
  - apply Hkeep; [| reflexivity].
    exists 2. repeat split; discriminate.
Defined.

(** * Further properties of the input history *)

Lemma addInput_wf (i : PlayerInput) (p : PlayerState) (h : InputHistory) :
  history_wf h -> history_wf (InputHistory.addInput i p h).
Proof.
  destruct h as [inputs states hd cnt]. unfold history_wf, InputHistory.addInput.
  cbn [InputHistory.inputs InputHistory.head InputHistory.count].
  intros (Hlen & Hhd & Hcnt).
  destruct (Nat.ltb_spec cnt INPUT_BUFFER_SIZE) as [Hlt | Hge];
    cbn [InputHistory.inputs InputHistory.head InputHistory.count apply_update constant];
    rewrite length_insert; repeat split; try assumption; try lia.
  apply Nat.mod_upper_bound. discriminate.
Qed.

(** X7.  The input history is a ring of the 64 newest inputs: [addInput]
    appends the input to the unacknowledged inputs, dropping the oldest
    one when 64 are stored already, and keeps the ring well formed. *)
Theorem addInput_keeps_newest (i : PlayerInput) (p : PlayerState) (h : InputHistory) :
  history_wf h ->
  let h' := InputHistory.addInput i p h in
  history_wf h' /\
  InputHistory.getUnacknowledged h'
  = (if (InputHistory.count h <? INPUT_BUFFER_SIZE)%nat
     then InputHistory.getUnacknowledged h
     else drop 1 (InputHistory.getUnacknowledged h)) ++ [i] /\
  InputHistory.count h' = Nat.min (S (InputHistory.count h)) INPUT_BUFFER_SIZE.
Proof.
  intros Hwf h'. split; [apply addInput_wf; exact Hwf |].
  split; [apply getUnacknowledged_addInput; exact Hwf |].
  subst h'. destruct h as [inputs states hd cnt]. destruct Hwf as (_ & _ & Hcnt).
  unfold InputHistory.addInput.
  cbn [InputHistory.inputs InputHistory.head InputHistory.count] in *.
  destruct (Nat.ltb_spec cnt INPUT_BUFFER_SIZE) as [Hlt | Hge];
    cbn [InputHistory.inputs InputHistory.head InputHistory.count apply_update constant];
    lia.
Qed.

Lemma addInput_keeps_newest_witness :
  let h := foldl (fun h n => InputHistory.addInput (input_W n) PlayerState.default h)
                 InputHistory.empty [1; 2; 3] in
  sequences (InputHistory.getUnacknowledged
               (InputHistory.addInput (input_W 4) PlayerState.default h))
  = [1; 2; 3; 4].
Proof.
  intros h.
  assert (history_wf h) as Hwf by (repeat split; vm_compute; lia).
  destruct (addInput_keeps_newest (input_W 4) PlayerState.default h Hwf) as (_ & E & _).
  rewrite E. reflexivity.
Defined.

Lemma ack_list_suffix (k : Z) (l : list PlayerInput) : exists n, ack_list k l = drop n l.
Proof.
  induction l as [| i l IH]; [exists 0%nat; reflexivity |].
  cbn [ack_list]. destruct (PlayerInput.sequence i <=? k).
  - destruct IH as [n E]. exists (S n). exact E.
  - exists 0%nat. reflexivity.
Qed.

Lemma ack_loop_stops (inputs : list PlayerInput) (k : Z) (count head : nat) :
  let hc := InputHistory.ack_loop inputs k head count in
  hc.2 = 0%nat \/
  (exists c, hc.2 = S c /\ k < PlayerInput.sequence (inputs !!! hc.1)).
Proof.
  revert head. induction count as [| c IH]; intros head; [left; reflexivity |].
  cbn [InputHistory.ack_loop].
  destruct (Z.leb_spec (PlayerInput.sequence (inputs !!! head)) k) as [Hle | Hgt].
  - apply IH.
  - right. exists c. split; [reflexivity | exact Hgt].
Qed.

(** X8.  An acknowledgement removes a prefix of the unacknowledged
    inputs and nothing else: [acknowledgeUpTo k] drops inputs from the
    oldest on until one is numbered above [k]; it does not touch the
    stored inputs or predicted states; and an acknowledgement that is
    older (not above [k]) changes nothing when it arrives afterwards. *)
Theorem acknowledgeUpTo_drops_prefix (k : Z) (h : InputHistory) :
  (InputHistory.head h < INPUT_BUFFER_SIZE)%nat ->
  let h' := InputHistory.acknowledgeUpTo k h in
  InputHistory.inputs h' = InputHistory.inputs h /\
  InputHistory.predictedStates h' = InputHistory.predictedStates h /\
  InputHistory.getUnacknowledged h' = ack_list k (InputHistory.getUnacknowledged h) /\
  (exists n, InputHistory.getUnacknowledged h' = drop n (InputHistory.getUnacknowledged h)) /\
  (InputHistory.count h' <= InputHistory.count h)%nat /\
  (forall k', k' <= k -> InputHistory.acknowledgeUpTo k' h' = h').
Proof.
  intros Hhd h'.
  pose proof (acknowledgeUpTo_spec k h Hhd) as Hspec. fold h' in Hspec.
  assert (InputHistory.inputs h' = InputHistory.inputs h /\
          InputHistory.predictedStates h' = InputHistory.predictedStates h /\
          (InputHistory.count h' <= InputHistory.count h)%nat /\
          (forall k', k' <= k -> InputHistory.acknowledgeUpTo k' h' = h')) as (Hi & Hp & Hc & Hold).
  { subst h'. clear Hspec. destruct h as [inputs states hd cnt].
    unfold InputHistory.acknowledgeUpTo.
    cbn [InputHistory.inputs InputHistory.head InputHistory.count].
    pose proof (ack_loop_count inputs k cnt hd) as Hc'.
    pose proof (ack_loop_stops inputs k cnt hd) as Hstop.
    destruct (InputHistory.ack_loop inputs k hd cnt) as [hd' c'].
    cbn [fst snd] in *.
    cbn [InputHistory.inputs InputHistory.predictedStates InputHistory.head
           InputHistory.count apply_update constant].
    repeat split; try reflexivity; try lia.
    intros k' Hk'.
    destruct Hstop as [-> | (c & -> & Hgt)]; [reflexivity |].
    cbn [InputHistory.ack_loop].
    assert ((PlayerInput.sequence (inputs !!! hd') <=? k') = false) as ->
      by (apply Z.leb_gt; lia).
    reflexivity. }
  repeat split; try assumption.
  rewrite Hspec. apply ack_list_suffix.
Qed.

Lemma acknowledgeUpTo_drops_prefix_witness :
  let h := foldl (fun h n => InputHistory.addInput (input_W n) PlayerState.default h)
                 InputHistory.empty [1; 2; 3; 4] in
  let h' := InputHistory.acknowledgeUpTo 3 h in
  sequences (InputHistory.getUnacknowledged h') = [4] /\
  InputHistory.acknowledgeUpTo 2 h' = h'.
Proof.
  intros h h'.
  assert ((InputHistory.head h < INPUT_BUFFER_SIZE)%nat) as Hhd by (vm_compute; lia).
  destruct (acknowledgeUpTo_drops_prefix 3 h Hhd) as (_ & _ & E & _ & _ & Hold).
  split.
  - fold h' in E. rewrite E. reflexivity.
  - apply Hold. discriminate.
Defined.

(** * Further properties of the interpolation buffer *)

Lemma wrap32_pred_succ (c : Z) : is_u32 c -> wrap32 (wrap32 (c + 1) - 1) = c.
Proof.
  intros Hc. unfold wrap32. rewrite Zminus_mod_idemp_l.
  replace (c + 1 - 1) with c by lia. apply Z.mod_small. exact Hc.
Qed.

Lemma addState_newest (st : PlayerState) (s : InterpolationState) :
  length (InterpolationState.states s) = STATE_BUFFER_SIZE ->
  is_u32 (InterpolationState.count s) ->
  InterpolationState.newest (InterpolationState.addState st s) = st.
Proof.
  destruct s as [states count]. unfold InterpolationState.newest, InterpolationState.addState.
  cbn [InterpolationState.states InterpolationState.count apply_update constant].
  intros Hlen Hc. rewrite (wrap32_pred_succ _ Hc).
  apply list_lookup_total_insert_eq. rewrite Hlen.
  pose proof (Z.mod_pos_bound count 128 ltac:(lia)) as Hm.
  unfold STATE_BUFFER_SIZE. lia.
Qed.

Lemma scan_here (s : InterpolationState) (t : Z) (n : nat) :
  PlayerState.tick (InterpolationState.newest s) <= t ->
  InterpolationState.scan s t 0 (S n) = Some (InterpolationState.newest s, None).
Proof.
  intros Ht. unfold InterpolationState.newest in *. cbn [InterpolationState.scan].
  rewrite Z.sub_0_r.
  assert ((PlayerState.tick
             (InterpolationState.states s
                !!! Z.to_nat (wrap32 (InterpolationState.count s - 1) mod 128))
           <=? t) = true) as -> by (apply Z.leb_le; exact Ht).
  reflexivity.
Qed.

(** X9.  [addState] stores the state in the slot [count mod 128] and
    nowhere else, and the stored state is the newest one from then on;
    when the buffer held a state already, interpolating at or after the
    tick of the stored state yields exactly that state. *)
Theorem addState_is_newest (st : PlayerState) (s : InterpolationState)
    (targetTick : Z) (out : PlayerState) :
  length (InterpolationState.states s) = STATE_BUFFER_SIZE ->
  is_u32 (InterpolationState.count s) ->
  let s' := InterpolationState.addState st s in
  InterpolationState.newest s' = st /\
  (forall j : nat, j <> Z.to_nat (InterpolationState.count s mod 128) ->
     InterpolationState.states s' !!! j = InterpolationState.states s !!! j) /\
  (1 <= InterpolationState.count s < 2 ^ 32 - 1 ->
   PlayerState.tick st <= targetTick ->
   InterpolationState.interpolate s' targetTick out = (true, st)).
Proof.
  intros Hlen Hc s'.
  pose proof (addState_newest st s Hlen Hc) as Hnew. fold s' in Hnew.
  split; [exact Hnew |]. split.
  - intros j Hj. subst s'. destruct s as [states count].
    unfold InterpolationState.addState.
    cbn [InterpolationState.states InterpolationState.count apply_update constant] in *.
    apply list_lookup_total_insert_ne. intros E. apply Hj. symmetry. exact E.
  - intros Hcount Ht.
    assert (InterpolationState.count s' = InterpolationState.count s + 1) as Hcnt.
    { subst s'. destruct s as [states count]. unfold InterpolationState.addState.
      cbn [InterpolationState.states InterpolationState.count apply_update constant] in *.
      apply wrap32_small. unfold is_u32. lia. }
    unfold InterpolationState.interpolate.
    assert ((InterpolationState.count s' <? 2) = false) as -> by (apply Z.ltb_ge; lia).
    destruct (Z.to_nat (Z.min (InterpolationState.count s') 128)) as [| n] eqn:En; [lia |].
    rewrite scan_here by (rewrite Hnew; exact Ht).
    rewrite Hnew. reflexivity.
Qed.

Lemma addState_is_newest_witness :
  let s := InterpolationState.addState (state_at 100 0) Client.new_interpolation in
  InterpolationState.interpolate (InterpolationState.addState (state_at 110 10) s)
    115 PlayerState.default
  = (true, state_at 110 10).
Proof.
  intros s.
  assert (length (InterpolationState.states s) = STATE_BUFFER_SIZE) as Hlen by reflexivity.
  assert (is_u32 (InterpolationState.count s)) as Hc by in_range.
  destruct (addState_is_newest (state_at 110 10) s 115 PlayerState.default Hlen Hc)
    as (_ & _ & H).
  apply H.
  - split; [discriminate | reflexivity].
  - discriminate.
Defined.

Lemma scan_none (s : InterpolationState) (t : Z) (n : nat) (i : Z) :
  (forall j, i <= j < i + Z.of_nat n ->
     t < PlayerState.tick
           (InterpolationState.states s
              !!! Z.to_nat (wrap32 (InterpolationState.count s - 1 - j) mod 128))) ->
  InterpolationState.scan s t i n = None.
Proof.
  revert i. induction n as [| n IH]; intros i Hall; [reflexivity |].
  cbn [InterpolationState.scan].
  assert ((PlayerState.tick
             (InterpolationState.states s
                !!! Z.to_nat (wrap32 (InterpolationState.count s - 1 - i) mod 128))
           <=? t) = false) as ->.
  { apply Z.leb_gt. apply Hall. lia. }
  apply IH. intros j Hj. apply Hall. lia.
Qed.

Lemma scan_found (s : InterpolationState) (t : Z) (n : nat) (i : Z)
    (before : PlayerState) (after : option PlayerState) :
  InterpolationState.scan s t i n = Some (before, after) ->
  PlayerState.tick before <= t.
Proof.
  revert i. induction n as [| n IH]; intros i; [discriminate |].
  cbn [InterpolationState.scan].
  destruct (Z.leb_spec
              (PlayerState.tick
                 (InterpolationState.states s
                    !!! Z.to_nat (wrap32 (InterpolationState.count s - 1 - i) mod 128)))
              t) as [Hle | Hgt].
  - intros [= <- _]. exact Hle.
  - apply IH.
Qed.

Lemma interpolate_true_tick (s : InterpolationState) (targetTick : Z)
    (out r : PlayerState) :
  InterpolationState.interpolate s targetTick out = (true, r) ->
  PlayerState.tick r <= targetTick.
Proof.
  unfold InterpolationState.interpolate.
  destruct (InterpolationState.count s <? 2); [discriminate |].
  destruct (InterpolationState.scan s targetTick 0
              (Z.to_nat (Z.min (InterpolationState.count s) 128)))
    as [[before [after |]] |] eqn:Es; try discriminate.
  - intros [= <-]. cbn [PlayerState.tick]. lia.
  - intros [= <-]. exact (scan_found _ _ _ _ _ _ Es).
Qed.

Lemma interpolate_newest (s : InterpolationState) (targetTick : Z) (out : PlayerState) :
  2 <= InterpolationState.count s ->
  PlayerState.tick (InterpolationState.newest s) <= targetTick ->
  InterpolationState.interpolate s targetTick out = (true, InterpolationState.newest s).
Proof.
  intros Hc Ht. unfold InterpolationState.interpolate.
  assert ((InterpolationState.count s <? 2) = false) as -> by (apply Z.ltb_ge; lia).
  destruct (Z.to_nat (Z.min (InterpolationState.count s) 128)) as [| n] eqn:En; [lia |].
  rewrite scan_here by exact Ht. reflexivity.
Qed.

Lemma interpolate_few (s : InterpolationState) (targetTick : Z) (out : PlayerState) :
  InterpolationState.count s < 2 ->
  InterpolationState.interpolate s targetTick out = (false, out).
Proof.
  intros Hc. unfold InterpolationState.interpolate.
  assert ((InterpolationState.count s <? 2) = true) as -> by (apply Z.ltb_lt; lia).
  reflexivity.
Qed.

(** X10.  Interpolation never runs ahead of the target tick and never
    invents a result.  When [interpolate] succeeds the state it returns
    has a tick at or below the target tick; when it fails [out] is left
    as it was; and it fails whenever every state the buffer still holds
    has a tick above the target tick. *)
Theorem interpolate_never_ahead (s : InterpolationState) (targetTick : Z)
    (out : PlayerState) :
  (forall r, InterpolationState.interpolate s targetTick out = (true, r) ->
             PlayerState.tick r <= targetTick) /\
  (forall r, InterpolationState.interpolate s targetTick out = (false, r) -> r = out) /\
  ((forall i, 0 <= i < Z.min (InterpolationState.count s) 128 ->
      targetTick < PlayerState.tick
                     (InterpolationState.states s
                        !!! Z.to_nat (wrap32 (InterpolationState.count s - 1 - i) mod 128))) ->
   InterpolationState.interpolate s targetTick out = (false, out)).
Proof.
  unfold InterpolationState.interpolate.
  destruct (InterpolationState.count s <? 2) eqn:Ec.
  { repeat split; try reflexivity; intros r [= E]; try discriminate; congruence. }
  split; [| split].
  - intros r Hr. apply (interpolate_true_tick s targetTick out r).
    unfold InterpolationState.interpolate. rewrite Ec. exact Hr.
  - intros r.
    destruct (InterpolationState.scan s targetTick 0
                (Z.to_nat (Z.min (InterpolationState.count s) 128)))
      as [[before [after |]] |]; try discriminate.
    intros [= <-]. reflexivity.
  - intros Hall. rewrite scan_none; [reflexivity |].
    intros j Hj. apply Hall. apply Z.ltb_ge in Ec. lia.
Qed.

Lemma interpolate_never_ahead_witness :
  let s := InterpolationState.addState (state_at 110 10)
             (InterpolationState.addState (state_at 100 0) Client.new_interpolation) in
  InterpolationState.interpolate s 95 PlayerState.default = (false, PlayerState.default).
Proof.
  intros s.
  apply (proj2 (proj2 (interpolate_never_ahead s 95 PlayerState.default))).
  intros i Hi.
  assert (i = 0 \/ i = 1) as [-> | ->] by (change (Z.min (InterpolationState.count s) 128) with 2 in Hi; lia);
    reflexivity.
Defined.

(** * Loops over the connections *)

Lemma foldl_prefix_ind {A B} (f : A -> B -> A) (P : list B -> A -> Prop)
    (l : list B) (a : A) :
  P [] a ->
  (forall pre x suf a', l = pre ++ x :: suf -> P pre a' -> P (pre ++ [x]) (f a' x)) ->
  P l (foldl f a l).
Proof.
  intros H0 Hstep.
  assert (forall suf pre a', l = pre ++ suf -> P pre a' -> P l (foldl f a' suf)) as Hgen.
  { induction suf as [| x suf IH]; intros pre a' El Hp.
    - rewrite app_nil_r in El. subst pre. exact Hp.
    - cbn [foldl]. apply (IH (pre ++ [x])).
      + rewrite <- app_assoc. exact El.
      + apply (Hstep pre x suf); assumption. }
  apply (Hgen l [] a); [reflexivity | exact H0].
Qed.

Lemma map_to_list_split {A} (m : gmap Z A) (pre suf : list (Z * A)) (k : Z) (v : A) :
  map_to_list m = pre ++ (k, v) :: suf ->
  m !! k = Some v /\ (k ∉ pre.*1) /\ (k ∉ suf.*1).
Proof.
  intros E. pose proof (NoDup_fst_map_to_list m) as Hnd.
  rewrite E, fmap_app, fmap_cons in Hnd. cbn [fst] in Hnd.
  apply NoDup_app in Hnd as (_ & Hdis & Hnd').
  apply NoDup_cons in Hnd' as [Hsuf _].
  split; [| split].
  - apply elem_of_map_to_list. rewrite E. apply elem_of_app. right. left.
  - intros Hin. apply (Hdis k Hin). left.
  - exact Hsuf.
Qed.

(** Induction over [for_each_connection]: [P] holds of the connections
    visited so far and the host as the loop has left it. *)
Lemma for_each_connection_ind (body : Z -> Connection -> Host -> Connection * Host)
    (P : list (Z * Connection) -> Host -> Prop) (h : Host) :
  P [] h ->
  (forall pre k conn suf h',
      map_to_list (Host.connections_ h) = pre ++ (k, conn) :: suf ->
      P pre h' ->
      P (pre ++ [(k, conn)])
        ((body k conn h').2{{ Host.connections_ :=
            <[k := (body k conn h').1]> (Host.connections_ (body k conn h').2) }})) ->
  P (map_to_list (Host.connections_ h)) (Host.for_each_connection body h).
Proof.
  intros H0 Hstep. unfold Host.for_each_connection.
  apply foldl_prefix_ind; [exact H0 |].
  intros pre [k conn] suf h' El Hp. cbn [fst snd].
  specialize (Hstep pre k conn suf h' El Hp).
  destruct (body k conn h') as [c' h'']. exact Hstep.
Qed.

Lemma lookup_foldl_insert {A} (g : Z -> A -> A) (l : list (Z * A)) (m : gmap Z A) (k : Z) :
  NoDup l.*1 ->
  foldl (fun m kv => <[kv.1 := g kv.1 kv.2]> m) m l !! k
  = match (list_to_map l : gmap Z A) !! k with
    | Some c => Some (g k c)
    | None => m !! k
    end.
Proof.
  revert m. induction l as [| [k0 c0] l IH]; intros m Hnd; [reflexivity |].
  rewrite fmap_cons in Hnd. apply NoDup_cons in Hnd as [Hk0 Hnd].
  cbn [foldl fst snd list_to_map foldr]. rewrite (IH _ Hnd).
  destruct (decide (k = k0)) as [-> | Hne].
  - rewrite (not_elem_of_list_to_map_1 _ _ Hk0), !lookup_insert_eq. reflexivity.
  - rewrite !lookup_insert_ne by (intros E; apply Hne; symmetry; exact E). reflexivity.
Qed.

Lemma foldl_insert_map_to_list {A} (g : Z -> A -> A) (m : gmap Z A) :
  foldl (fun m kv => <[kv.1 := g kv.1 kv.2]> m) m (map_to_list m)
  = map_imap (fun k c => Some (g k c)) m.
Proof.
  apply map_eq. intros k.
  rewrite lookup_foldl_insert by apply NoDup_fst_map_to_list.
  rewrite list_to_map_to_list, map_lookup_imap.
  destruct (m !! k); reflexivity.
Qed.

Lemma map_imap_fmap {A} (g : A -> A) (m : gmap Z A) :
  map_imap (fun _ c => Some (g c)) m = g <$> m.
Proof.
  apply map_eq. intros k. rewrite map_lookup_imap, lookup_fmap.
  destruct (m !! k); reflexivity.
Qed.

(** A loop whose body sends packets and changes nothing of the host but
    the connection it visits. *)
Lemma for_each_sends (f : Z -> Connection -> Connection)
    (out : Z -> Connection -> list (sockaddr_in * list Z))
    (body : Z -> Connection -> Host -> Connection * Host) (h : Host) :
  (forall k conn h',
      Host.connections_ h !! k = Some conn ->
      Host.currentTick_ h' = Host.currentTick_ h ->
      Host.players_ h' = Host.players_ h ->
      body k conn h' = (f k conn, h'{{ Host.sent := Host.sent h' ++ out k conn }})) ->
  Host.for_each_connection body h
  = h{{ Host.connections_ := map_imap (fun k c => Some (f k c)) (Host.connections_ h);
        Host.sent := Host.sent h ++ broadcast out (Host.connections_ h) }}.
Proof.
  intros Hbody.
  rewrite <- foldl_insert_map_to_list. unfold broadcast.
  apply (for_each_connection_ind body
           (fun pre h' =>
              h' = h{{ Host.connections_ :=
                         foldl (fun m kv => <[kv.1 := f kv.1 kv.2]> m) (Host.connections_ h) pre;
                       Host.sent := Host.sent h
                                    ++ concat (map (fun kv => out kv.1 kv.2) pre) }})).
  - destruct h. cbn. rewrite app_nil_r. reflexivity.
  - intros pre k conn suf h' El ->.
    destruct (map_to_list_split _ _ _ _ _ El) as (Hk & _ & _).
    rewrite (Hbody k conn _ Hk); [| destruct h; reflexivity | destruct h; reflexivity].
    rewrite foldl_app, map_app, concat_app. cbn [foldl map concat fst snd].
    destruct h. cbn. rewrite app_nil_r, <- app_assoc. reflexivity.
Qed.

Lemma sent_nil (h : Host) : h{{ Host.sent := Host.sent h ++ [] }} = h.
Proof. destruct h. cbn. rewrite app_nil_r. reflexivity. Qed.

Lemma address_next_sequence (conn : Connection) :
  Connection.address (next_sequence conn) = Connection.address conn.
Proof. destruct conn. reflexivity. Qed.

Lemma broadcastEntityDestroy_spec (entityId : Z) (h : Host) :
  Host.broadcastEntityDestroy entityId h
  = h{{ Host.connections_ := after_broadcast <$> Host.connections_ h;
        Host.sent :=
          Host.sent h
          ++ broadcast (fun _ c =>
                          if decide (Connection.state c = CONNECTED)
                          then [(Connection.address c,
                                 destroy_datagram entityId (Host.currentTick_ h)
                                   (next_sequence c))]
                          else [])
                       (Host.connections_ h) }}.
Proof.
  unfold Host.broadcastEntityDestroy.
  rewrite (for_each_sends (fun _ c => after_broadcast c)
             (fun _ c =>
                if decide (Connection.state c = CONNECTED)
                then [(Connection.address c,
                       destroy_datagram entityId (Host.currentTick_ h) (next_sequence c))]
                else [])).
  - rewrite map_imap_fmap. reflexivity.
  - intros k conn h' _ Ht _. unfold after_broadcast.
    destruct (decide (Connection.state conn = CONNECTED)) as [Hc | Hc].
    + unfold Host.sendTo, destroy_datagram, datagram. fold (next_sequence conn).
      rewrite Ht, address_next_sequence. reflexivity.
    + rewrite sent_nil. reflexivity.
Qed.

Lemma broadcastEntityCreate_spec (entityId : Z) (s : PlayerState) (h : Host) :
  Host.players_ h !! entityId = Some s ->
  Host.broadcastEntityCreate entityId h
  = h{{ Host.connections_ :=
          map_imap (fun k c => Some (if k =? entityId then c else after_broadcast c))
                   (Host.connections_ h);
        Host.sent :=
          Host.sent h
          ++ broadcast (fun k c =>
                          if decide (Connection.state c = CONNECTED) then
                            if k =? entityId then [] else
                            [(Connection.address c,
                              create_datagram entityId (Host.currentTick_ h)
                                (PlayerState.position s) (next_sequence c))]
                          else [])
                       (Host.connections_ h) }}.
Proof.
  intros Hs. unfold Host.broadcastEntityCreate.
  apply (for_each_sends (fun k c => if k =? entityId then c else after_broadcast c)).
  intros k conn h' _ Ht Hp. unfold after_broadcast.
  destruct (decide (Connection.state conn = CONNECTED)) as [Hc | Hc].
  - destruct (k =? entityId); [rewrite sent_nil; reflexivity |].
    unfold Host.players_at. rewrite Hp, Hs.
    unfold Host.sendTo, create_datagram, datagram. fold (next_sequence conn).
    rewrite Ht, address_next_sequence. reflexivity.
  - rewrite sent_nil. destruct (k =? entityId); reflexivity.
Qed.

Lemma stateUpdateBuffer_frame (conn : Connection) (h h' : Host) :
  Host.currentTick_ h' = Host.currentTick_ h ->
  Host.players_ h' = Host.players_ h ->
  Host.stateUpdateBuffer conn h' = Host.stateUpdateBuffer conn h.
Proof. intros Ht Hp. unfold Host.stateUpdateBuffer. rewrite Ht, Hp. reflexivity. Qed.

Lemma sendStateUpdates_spec (h : Host) :
  Host.sendStateUpdates h
  = h{{ Host.connections_ := after_broadcast <$> Host.connections_ h;
        Host.sent :=
          Host.sent h
          ++ broadcast (fun _ c =>
                          if decide (Connection.state c = CONNECTED)
                          then [(Connection.address c,
                                 datagram (Host.stateUpdateBuffer (next_sequence c) h))]
                          else [])
                       (Host.connections_ h) }}.
Proof.
  unfold Host.sendStateUpdates.
  rewrite (for_each_sends (fun _ c => after_broadcast c)
             (fun _ c =>
                if decide (Connection.state c = CONNECTED)
                then [(Connection.address c,
                       datagram (Host.stateUpdateBuffer (next_sequence c) h))]
                else [])).
  - rewrite map_imap_fmap. reflexivity.
  - intros k conn h' _ Ht Hp. unfold after_broadcast.
    destruct (decide (Connection.state conn = CONNECTED)) as [Hc | Hc].
    + fold (next_sequence conn).
      rewrite (stateUpdateBuffer_frame _ h h' Ht Hp).
      unfold Host.sendTo, datagram. rewrite address_next_sequence. reflexivity.
    + rewrite sent_nil. reflexivity.
Qed.

Lemma sendDisconnect_all_spec (h : Host) :
  Host.for_each_connection (fun id conn h => Host.sendDisconnect conn h) h
  = h{{ Host.connections_ := next_sequence <$> Host.connections_ h;
        Host.sent :=
          Host.sent h
          ++ broadcast (fun _ c =>
                          [(Connection.address c, disconnect_datagram (next_sequence c))])
                       (Host.connections_ h) }}.
Proof.
  rewrite (for_each_sends (fun _ c => next_sequence c)
             (fun _ c => [(Connection.address c, disconnect_datagram (next_sequence c))])).
  - rewrite map_imap_fmap. reflexivity.
  - intros k conn h' _ _ _.
    unfold Host.sendDisconnect, Host.sendTo, disconnect_datagram, datagram.
    fold (next_sequence conn). rewrite address_next_sequence. reflexivity.
Qed.

Lemma broadcast_elem (out : Z -> Connection -> list (sockaddr_in * list Z))
    (conns : gmap Z Connection) (k : Z) (c : Connection) (x : sockaddr_in * list Z) :
  conns !! k = Some c -> x ∈ out k c -> x ∈ broadcast out conns.
Proof.
  intros Hk Hx. unfold broadcast. apply list_elem_of_In, in_concat.
  exists (out k c). split; [| apply list_elem_of_In; exact Hx].
  apply in_map_iff. exists (k, c). split; [reflexivity |].
  apply list_elem_of_In, elem_of_map_to_list. exact Hk.
Qed.

(** X11.  [handleDisconnect] removes the player and the connection
    stored under the connection's player id and leaves the other
    players alone; every CONNECTED peer, the leaving one included,
    is sent one ENTITY_DESTROY packet for that id and takes a sequence
    number for it; [onPlayerDisconnected] is called once. *)
Theorem handleDisconnect_removes_player (conn : Connection) (h : Host) :
  let id := Connection.playerId conn in
  let h' := Host.handleDisconnect conn h in
  Host.players_ h' = delete id (Host.players_ h) /\
  Host.connections_ h' = delete id (after_broadcast <$> Host.connections_ h) /\
  Host.events h' = Host.events h ++ [Host.PlayerDisconnected id] /\
  (forall k c, Host.connections_ h !! k = Some c -> Connection.state c = CONNECTED ->
     (Connection.address c, destroy_datagram id (Host.currentTick_ h) (next_sequence c))
     ∈ Host.sent h') /\
  (length (Host.sent h')
   = length (Host.sent h)
     + length (List.filter (fun kv => bool_decide (Connection.state kv.2 = CONNECTED))
                           (map_to_list (Host.connections_ h))))%nat /\
  Host.currentTick_ h' = Host.currentTick_ h /\
  Host.nextPlayerId_ h' = Host.nextPlayerId_ h.
Proof.
  intros id h'. subst h'. unfold Host.handleDisconnect. fold id.
  rewrite broadcastEntityDestroy_spec.
  set (out := fun (_ : Z) (c : Connection) =>
                if decide (Connection.state c = CONNECTED)
                then [(Connection.address c,
                       destroy_datagram id (Host.currentTick_ h) (next_sequence c))]
                else []).
  assert (length (broadcast out (Host.connections_ h))
          = length (List.filter (fun kv => bool_decide (Connection.state kv.2 = CONNECTED))
                                (map_to_list (Host.connections_ h)))) as Hlen.
  { unfold broadcast. induction (map_to_list (Host.connections_ h)) as [| [k c] l IH];
      [reflexivity |].
    cbn [map concat List.filter fst snd]. rewrite length_app, IH. subst out. cbv beta.
    destruct (decide (Connection.state c = CONNECTED)) as [Hc | Hc].
    - rewrite (bool_decide_eq_true_2 _ Hc). reflexivity.
    - rewrite (bool_decide_eq_false_2 _ Hc). reflexivity. }
  destruct h as [run tick next tacc sacc conns players clk snt evs].
  cbn [Host.running_ Host.currentTick_ Host.nextPlayerId_ Host.tickAccumulator_
       Host.snapshotAccumulator_ Host.connections_ Host.players_ Host.clock Host.sent
       Host.events apply_update constant] in *.
  repeat split; try reflexivity.
  - intros k c Hk Hc. apply elem_of_app. right.
    apply (broadcast_elem out conns k c); [exact Hk |].
    subst out. cbv beta. destruct (decide (Connection.state c = CONNECTED)); [left | contradiction].
  - rewrite length_app, Hlen. reflexivity.
Qed.

(** X12.  [sendStateUpdates] sends one STATE_UPDATE packet to every
    CONNECTED peer, which takes the next sequence number for it, and
    changes nothing else: connections that are not CONNECTED, the
    players, the tick and the callbacks are left alone. *)
Theorem sendStateUpdates_effects (h : Host) :
  let h' := Host.sendStateUpdates h in
  Host.connections_ h' = after_broadcast <$> Host.connections_ h /\
  Host.sent h'
  = Host.sent h
    ++ broadcast (fun _ c =>
                    if decide (Connection.state c = CONNECTED)
                    then [(Connection.address c,
                           datagram (Host.stateUpdateBuffer (next_sequence c) h))]
                    else [])
                 (Host.connections_ h) /\
  (forall k c, Host.connections_ h !! k = Some c -> Connection.state c <> CONNECTED ->
     Host.connections_ h' !! k = Some c) /\
  (forall k c, Host.connections_ h !! k = Some c -> Connection.state c = CONNECTED ->
     Host.connections_ h' !! k = Some (next_sequence c) /\
     (Connection.address c, datagram (Host.stateUpdateBuffer (next_sequence c) h))
     ∈ Host.sent h') /\
  Host.players_ h' = Host.players_ h /\
  Host.currentTick_ h' = Host.currentTick_ h /\
  Host.events h' = Host.events h.
Proof.
  intros h'. subst h'. rewrite sendStateUpdates_spec.
  set (out := fun (_ : Z) (c : Connection) =>
                if decide (Connection.state c = CONNECTED)
                then [(Connection.address c,
                       datagram (Host.stateUpdateBuffer (next_sequence c) h))]
                else []).
  destruct h as [run tick next tacc sacc conns players clk snt evs].
  cbn [Host.running_ Host.currentTick_ Host.nextPlayerId_ Host.tickAccumulator_
       Host.snapshotAccumulator_ Host.connections_ Host.players_ Host.clock Host.sent
       Host.events apply_update constant] in *.
  repeat split; try reflexivity.
  - intros k c Hk Hc. rewrite lookup_fmap, Hk. cbn [fmap option_fmap option_map].
    unfold after_broadcast. destruct (decide (Connection.state c = CONNECTED));
      [contradiction | reflexivity].
  - rewrite lookup_fmap, H. cbn [fmap option_fmap option_map].
    unfold after_broadcast. destruct (decide (Connection.state c = CONNECTED));
      [reflexivity | contradiction].
  - apply elem_of_app. right.
    apply (broadcast_elem out conns k c); [assumption |].
    subst out. cbv beta. destruct (decide (Connection.state c = CONNECTED));
      [left | contradiction].
Qed.

(** X13.  [stop] forgets every connection and every player and clears
    [running_]; when the socket is open it first sends one DISCONNECT
    packet to every connection, whatever its state, and when the socket
    is closed it sends nothing. *)
Theorem stop_clears_host (socket_open : bool) (h : Host) :
  let h' := Host.stop socket_open h in
  Host.connections_ h' = ∅ /\
  Host.players_ h' = ∅ /\
  Host.running_ h' = false /\
  Host.sent h'
  = Host.sent h
    ++ (if socket_open
        then broadcast (fun _ c =>
                          [(Connection.address c, disconnect_datagram (next_sequence c))])
                       (Host.connections_ h)
        else []) /\
  (length (Host.sent h')
   = length (Host.sent h) + (if socket_open then size (Host.connections_ h) else 0))%nat /\
  Host.events h' = Host.events h.
Proof.
  intros h'. subst h'. unfold Host.stop.
  assert (forall l : list (Z * Connection),
             length (concat (map (fun kv : Z * Connection =>
                                    [(Connection.address kv.2,
                                      disconnect_datagram (next_sequence kv.2))]) l))
             = length l) as Hlen.
  { induction l as [| x l IH]; [reflexivity |]. cbn [map concat]. rewrite length_app, IH.
    reflexivity. }
  destruct socket_open.
  - rewrite sendDisconnect_all_spec.
    destruct h as [run tick next tacc sacc conns players clk snt evs].
    cbn [Host.running_ Host.currentTick_ Host.nextPlayerId_ Host.tickAccumulator_
         Host.snapshotAccumulator_ Host.connections_ Host.players_ Host.clock Host.sent
         Host.events apply_update constant] in *.
    repeat split; try reflexivity.
    rewrite length_app. unfold broadcast. cbn [fst snd].
    rewrite Hlen, length_map_to_list. reflexivity.
  - destruct h as [run tick next tacc sacc conns players clk snt evs].
    cbn [Host.running_ Host.currentTick_ Host.nextPlayerId_ Host.tickAccumulator_
         Host.snapshotAccumulator_ Host.connections_ Host.players_ Host.clock Host.sent
         Host.events apply_update constant] in *.
    rewrite app_nil_r. repeat split; try reflexivity. lia.
Qed.

(** * Further properties of the host *)

Lemma addressEqual_eq (a b : sockaddr_in) : addressEqual a b = true <-> a = b.
Proof.
  destruct a as [aa ap], b as [ba bp]. unfold addressEqual. cbn [sin_addr sin_port].
  rewrite andb_true_iff, !Z.eqb_eq. split.
  - intros [-> ->]. reflexivity.
  - intros [= -> ->]. split; reflexivity.
Qed.

Lemma findConnection_Some (addr : sockaddr_in) (h : Host) (k : Z) (c : Connection) :
  Host.findConnection addr h = Some (k, c) ->
  Host.connections_ h !! k = Some c /\ Connection.address c = addr.
Proof.
  unfold Host.findConnection. intros Hf. apply find_some in Hf as [Hin Ha].
  cbn [snd] in Ha. split.
  - apply elem_of_map_to_list, list_elem_of_In. exact Hin.
  - apply addressEqual_eq. exact Ha.
Qed.

Lemma findConnection_None (addr : sockaddr_in) (h : Host) :
  Host.findConnection addr h = None ->
  forall k c, Host.connections_ h !! k = Some c -> Connection.address c <> addr.
Proof.
  unfold Host.findConnection. intros Hf k c Hk E.
  pose proof (find_none _ _ Hf (k, c)) as Hn. cbn [snd] in Hn.
  rewrite (proj2 (addressEqual_eq _ _) E) in Hn.
  enough (true = false) by discriminate. apply Hn.
  apply list_elem_of_In, elem_of_map_to_list. exact Hk.
Qed.

(** X14.  [findConnection] finds a connection by its remote address:
    what it returns is stored in [connections_] under the returned key
    and has the address asked for; it returns nothing only when no
    stored connection has that address; and [addressEqual] is equality
    of IP address and port. *)
Theorem findConnection_spec (addr : sockaddr_in) (h : Host) :
  (forall a b, addressEqual a b = true <-> a = b) /\
  (forall k c, Host.findConnection addr h = Some (k, c) ->
     Host.connections_ h !! k = Some c /\ Connection.address c = addr) /\
  (Host.findConnection addr h = None ->
   forall k c, Host.connections_ h !! k = Some c -> Connection.address c <> addr) /\
  (forall k c, Host.connections_ h !! k = Some c -> Connection.address c = addr ->
     exists k' c', Host.findConnection addr h = Some (k', c')).
Proof.
  split; [exact addressEqual_eq |].
  split; [intros k c; apply findConnection_Some |].
  split; [apply findConnection_None |].
  intros k c Hk Ha.
  destruct (Host.findConnection addr h) as [[k' c'] |] eqn:Hf.
  - exists k', c'. reflexivity.
  - exfalso. exact (findConnection_None addr h Hf k c Hk Ha).
Qed.

(** X15.  What the host ignores.  A packet from an address that has no
    connection changes nothing unless it is a CONNECT_REQUEST; a packet
    of a type other than CONNECT_REQUEST, DISCONNECT, HEARTBEAT, ACK and
    INPUT changes nothing, whoever sends it; and an INPUT packet from a
    peer whose connection is not CONNECTED changes nothing. *)
Theorem host_ignores_packet (header : PacketHeader) (buffer : PacketBuffer)
    (fromAddr : sockaddr_in) (now : float) (h : Host) :
  let type := PacketHeader.type header in
  (Host.findConnection fromAddr h = None -> type <> PacketType.CONNECT_REQUEST ->
   Host.handlePacket header buffer fromAddr now h = h) /\
  (type <> PacketType.CONNECT_REQUEST -> type <> PacketType.DISCONNECT ->
   type <> PacketType.HEARTBEAT -> type <> PacketType.ACK -> type <> PacketType.INPUT ->
   Host.handlePacket header buffer fromAddr now h = h) /\
  (forall k c, Host.findConnection fromAddr h = Some (k, c) ->
     Connection.state c <> CONNECTED -> type = PacketType.INPUT ->
     Host.handlePacket header buffer fromAddr now h = h).
Proof.
  intros type. subst type. unfold Host.handlePacket. split; [| split].
  - intros Hf Hty. rewrite Hf.
    destruct (Z.eqb_spec (PacketHeader.type header) PacketType.CONNECT_REQUEST);
      [contradiction |].
    repeat match goal with
           | |- context [if ?c then _ else _] => destruct c
           end; reflexivity.
  - intros H1 H2 H3 H4 H5.
    destruct (Z.eqb_spec (PacketHeader.type header) PacketType.CONNECT_REQUEST);
      [contradiction |].
    destruct (Z.eqb_spec (PacketHeader.type header) PacketType.DISCONNECT);
      [contradiction |].
    destruct (Z.eqb_spec (PacketHeader.type header) PacketType.HEARTBEAT);
      [contradiction |].
    destruct (Z.eqb_spec (PacketHeader.type header) PacketType.ACK);
      [contradiction |].
    destruct (Z.eqb_spec (PacketHeader.type header) PacketType.INPUT);
      [contradiction |].
    reflexivity.
  - intros k c Hf Hc Hty. rewrite Hf, Hty. cbn [Z.eqb PacketType.INPUT PacketType.CONNECT_REQUEST
      PacketType.DISCONNECT PacketType.HEARTBEAT PacketType.ACK Pos.eqb orb].
    destruct (decide (Connection.state c = CONNECTED)); [contradiction | reflexivity].
Qed.

(** X16.  A CONNECT_REQUEST from a peer that is connected already does
    not create a second player: the host answers with one more
    CONNECT_ACCEPT for the same player id, on which the connection takes
    a sequence number and notes the send time, and the players, the next
    player id, the other connections and the callbacks are left alone. *)
Theorem connect_request_from_connected_peer (fromAddr : sockaddr_in) (now : float)
    (h : Host) (k : Z) (existing : Connection) :
  Host.findConnection fromAddr h = Some (k, existing) ->
  Connection.state existing = CONNECTED ->
  let h' := Host.handleConnectRequest fromAddr now h in
  Host.players_ h' = Host.players_ h /\
  Host.nextPlayerId_ h' = Host.nextPlayerId_ h /\
  Host.events h' = Host.events h /\
  Host.connections_ h'
  = <[k := (next_sequence existing){{ Connection.lastSendTime := Host.clock h }}]>
      (Host.connections_ h) /\
  Host.sent h'
  = Host.sent h
    ++ [(fromAddr, connect_accept_datagram (Host.currentTick_ h) (next_sequence existing))].
Proof.
  intros Hf Hc h'. subst h'.
  destruct (findConnection_Some _ _ _ _ Hf) as [_ Ha].
  unfold Host.handleConnectRequest. rewrite Hf.
  destruct (decide (Connection.state existing = CONNECTED)); [| contradiction].
  unfold Host.sendConnectAccept, Host.sendTo, Host.getTime, connect_accept_datagram, datagram.
  fold (next_sequence existing).
  replace (Connection.playerId existing) with (Connection.playerId (next_sequence existing))
    by (destruct existing; reflexivity).
  rewrite address_next_sequence, Ha.
  destruct h as [run tick next tacc sacc conns players clk snt evs].
  cbn [Host.running_ Host.currentTick_ Host.nextPlayerId_ Host.tickAccumulator_
       Host.snapshotAccumulator_ Host.connections_ Host.players_ Host.clock Host.sent
       Host.events apply_update constant].
  repeat split; reflexivity.
Qed.

Lemma connect_request_from_connected_peer_witness :
  let h := host_with_player in
  let h' := Host.handleConnectRequest example_addr F32.zero h in
  Host.players_ h' = Host.players_ h /\
  Host.nextPlayerId_ h' = Host.nextPlayerId_ h /\
  length (Host.sent h') = S (length (Host.sent h)).
Proof.
  intros h h'.
  assert (exists c, Host.findConnection example_addr h = Some (1, c)
                    /\ Connection.state c = CONNECTED) as (c & Hf & Hc).
  { eexists. split; vm_compute; reflexivity. }
  destruct (connect_request_from_connected_peer example_addr F32.zero h 1 c Hf Hc)
    as (Hp & Hn & _ & _ & Hs).
  split; [exact Hp |]. split; [exact Hn |].
  fold h' in Hs. rewrite Hs, length_app. cbn [length]. lia.
Defined.

Lemma sendConnectAccept_spec (conn : Connection) (h : Host) :
  Host.sendConnectAccept conn h
  = ((next_sequence conn){{ Connection.lastSendTime := Host.clock h }},
     h{{ Host.sent := Host.sent h
                      ++ [(Connection.address conn,
                           connect_accept_datagram (Host.currentTick_ h)
                             (next_sequence conn))] }}).
Proof.
  unfold Host.sendConnectAccept, Host.sendTo, Host.getTime, connect_accept_datagram, datagram.
  fold (next_sequence conn).
  replace (Connection.playerId conn) with (Connection.playerId (next_sequence conn))
    by (destruct conn; reflexivity).
  rewrite address_next_sequence.
  destruct h. reflexivity.
Qed.

Lemma sendWorldSnapshot_spec (conn : Connection) (h : Host) :
  Host.sendWorldSnapshot conn h
  = (next_sequence conn,
     h{{ Host.sent := Host.sent h
                      ++ [(Connection.address conn,
                           datagram (Host.worldSnapshotBuffer (next_sequence conn) h))] }}).
Proof.
  unfold Host.sendWorldSnapshot, Host.sendTo, datagram. fold (next_sequence conn).
  rewrite address_next_sequence. reflexivity.
Qed.

Lemma connect_accept_datagram_ext (tick : Z) (c c' : Connection) :
  Connection.playerId c = Connection.playerId c' ->
  Connection.localSequence c = Connection.localSequence c' ->
  connect_accept_datagram tick c = connect_accept_datagram tick c'.
Proof. intros Hp Hs. unfold connect_accept_datagram. rewrite Hp, Hs. reflexivity. Qed.

Lemma createPlayer_effects (fromAddr : sockaddr_in) (now : float) (h : Host) :
  let id := Host.nextPlayerId_ h in
  let h' := Host.createPlayer fromAddr now h in
  Host.nextPlayerId_ h' = wrap32 (id + 1) /\
  Host.players_ h' = <[id := Host.spawn id]> (Host.players_ h) /\
  (exists c',
      Host.connections_ h' !! id = Some c' /\
      Connection.playerId c' = id /\ Connection.address c' = fromAddr /\
      Connection.state c' = CONNECTED /\ Connection.localSequence c' = 2 /\
      Connection.remoteSequence c' = 0 /\ Connection.lastReceiveTime c' = now /\
      (Host.connections_ h !! id = None ->
       Connection.pendingInputs c' = [] /\ Connection.lastProcessedInput c' = 0 /\
       Connection.ackBits c' = 0)) /\
  (forall k, k <> id ->
     Host.connections_ h' !! k = after_broadcast <$> Host.connections_ h !! k) /\
  Host.events h' = Host.events h ++ [Host.PlayerConnected id] /\
  (exists snapshot others,
      Host.sent h'
      = Host.sent h
        ++ (fromAddr,
            connect_accept_datagram (Host.currentTick_ h)
              (Connection.default{{ Connection.playerId := id;
                                    Connection.localSequence := 1 }}))
           :: (fromAddr, snapshot) :: others) /\
  (forall k c, k <> id -> Host.connections_ h !! k = Some c ->
     Connection.state c = CONNECTED ->
     (Connection.address c,
      create_datagram id (Host.currentTick_ h) (PlayerState.position (Host.spawn id))
        (next_sequence c)) ∈ Host.sent h') /\
  Host.currentTick_ h' = Host.currentTick_ h.
Proof.
  intros id h'. subst id h'.
  unfold Host.createPlayer. cbv zeta.
  rewrite sendConnectAccept_spec. cbv iota.
  rewrite sendWorldSnapshot_spec. cbv iota.
  erewrite (broadcastEntityCreate_spec _ (Host.spawn (Host.nextPlayerId_ h))).
  2:{ destruct h as [run tick next tacc sacc conns players clk snt evs].
      cbn [Host.running_ Host.currentTick_ Host.nextPlayerId_ Host.tickAccumulator_
           Host.snapshotAccumulator_ Host.connections_ Host.players_ Host.clock Host.sent
           Host.events apply_update constant]. apply lookup_insert_eq. }
  destruct h as [run tick next tacc sacc conns players clk snt evs].
  cbn [Host.running_ Host.currentTick_ Host.nextPlayerId_ Host.tickAccumulator_
       Host.snapshotAccumulator_ Host.connections_ Host.players_ Host.clock Host.sent
       Host.events apply_update constant].
  set (out := fun (k : Z) (c : Connection) =>
                if decide (Connection.state c = CONNECTED) then
                  if k =? next then [] else
                  [(Connection.address c,
                    create_datagram next tick (PlayerState.position (Host.spawn next))
                      (next_sequence c))]
                else []).
  assert (exists d, default Connection.default (conns !! next) = d /\
                    (conns !! next = None -> d = Connection.default)) as (d & -> & Hd).
  { eexists. split; [reflexivity |]. intros ->. reflexivity. }
  destruct d as [pid addr st ls R B lrt lst rtt pend lpi].
  unfold next_sequence at 1 2 3 4 5.
  cbn [Connection.playerId Connection.address Connection.state Connection.localSequence
       Connection.remoteSequence Connection.ackBits Connection.lastReceiveTime
       Connection.lastSendTime Connection.rtt Connection.pendingInputs
       Connection.lastProcessedInput apply_update constant].
  split; [reflexivity |]. split; [reflexivity |].
  split.
  { eexists. rewrite map_lookup_imap, lookup_insert_eq. cbn [mbind option_bind].
    rewrite Z.eqb_refl. split; [reflexivity |].
    cbn [Connection.playerId Connection.address Connection.state Connection.localSequence
         Connection.remoteSequence Connection.ackBits Connection.lastReceiveTime
         Connection.pendingInputs Connection.lastProcessedInput].
    do 6 (split; [reflexivity |]).
    intros Hn. specialize (Hd Hn). unfold Connection.default in Hd.
    injection Hd as -> -> -> -> -> -> -> -> -> -> ->. repeat split; reflexivity. }
  split.
  { intros k Hk. rewrite map_lookup_imap, !lookup_insert_ne
      by (intros E; apply Hk; symmetry; exact E).
    destruct (conns !! k); cbn [mbind option_bind fmap option_fmap option_map];
      [| reflexivity].
    destruct (Z.eqb_spec k next); [contradiction | reflexivity]. }
  split; [reflexivity |].
  split.
  { eexists. eexists. rewrite <- !app_assoc. cbn [app]. f_equal. }
  split; [| reflexivity].
  intros k c Hk Hc Hst. apply elem_of_app. right.
  apply (broadcast_elem out _ k c).
  - rewrite !lookup_insert_ne by (intros E; apply Hk; symmetry; exact E). exact Hc.
  - subst out. cbv beta.
    destruct (decide (Connection.state c = CONNECTED)); [| contradiction].
    destruct (Z.eqb_spec k next); [contradiction | left].
Qed.

(** The two datagrams that answer the request: the CONNECT_ACCEPT, and
    the WORLD_SNAPSHOT built once the new player is stored. *)
Lemma createPlayer_snapshot (fromAddr : sockaddr_in) (now : float) (h : Host) :
  let id := Host.nextPlayerId_ h in
  exists conn hs others,
    Host.sent (Host.createPlayer fromAddr now h)
    = Host.sent h
      ++ (fromAddr,
          connect_accept_datagram (Host.currentTick_ h)
            (Connection.default{{ Connection.playerId := id;
                                  Connection.localSequence := 1 }}))
         :: (fromAddr, datagram (Host.worldSnapshotBuffer conn hs)) :: others /\
    Connection.localSequence conn = 2 /\
    Host.currentTick_ hs = Host.currentTick_ h /\
    Host.players_ hs = <[id := Host.spawn id]> (Host.players_ h).
Proof.
  intros id. subst id.
  unfold Host.createPlayer. cbv zeta.
  rewrite sendConnectAccept_spec. cbv iota.
  rewrite sendWorldSnapshot_spec. cbv iota.
  erewrite (broadcastEntityCreate_spec _ (Host.spawn (Host.nextPlayerId_ h))).
  2:{ destruct h as [run tick next tacc sacc conns players clk snt evs].
      cbn [Host.running_ Host.currentTick_ Host.nextPlayerId_ Host.tickAccumulator_
           Host.snapshotAccumulator_ Host.connections_ Host.players_ Host.clock Host.sent
           Host.events apply_update constant]. apply lookup_insert_eq. }
  destruct h as [run tick next tacc sacc conns players clk snt evs].
  cbn [Host.running_ Host.currentTick_ Host.nextPlayerId_ Host.tickAccumulator_
       Host.snapshotAccumulator_ Host.connections_ Host.players_ Host.clock Host.sent
       Host.events apply_update constant].
  destruct (default Connection.default (conns !! next))
    as [pid addr st ls R B lrt lst rtt pend lpi].
  unfold next_sequence at 1 2 3 4 5.
  cbn [Connection.playerId Connection.address Connection.state Connection.localSequence
       Connection.remoteSequence Connection.ackBits Connection.lastReceiveTime
       Connection.lastSendTime Connection.rtt Connection.pendingInputs
       Connection.lastProcessedInput apply_update constant].
  eexists. eexists. eexists.
  split; [rewrite <- !app_assoc; cbn [app]; reflexivity |].
  cbn [Host.currentTick_ Host.players_ Connection.localSequence].
  split; [reflexivity |]. split; reflexivity.
Qed.

Lemma handleConnectRequest_creates (fromAddr : sockaddr_in) (now : float) (h : Host) :
  (forall k c, Host.findConnection fromAddr h = Some (k, c) ->
     Connection.state c <> CONNECTED) ->
  Host.handleConnectRequest fromAddr now h = Host.createPlayer fromAddr now h.
Proof.
  intros Hnew. unfold Host.handleConnectRequest.
  destruct (Host.findConnection fromAddr h) as [[k c] |] eqn:Hf; [| reflexivity].
  destruct (decide (Connection.state c = CONNECTED)) as [Hc | Hc]; [| reflexivity].
  exfalso. exact (Hnew k c eq_refl Hc).
Qed.

(** X17.  A CONNECT_REQUEST from an address that has no CONNECTED
    connection creates a player: the host allocates [nextPlayerId_] as
    its id and increments the counter, stores the player at the spawn
    position, stores a CONNECTED connection for the address, answers
    with a CONNECT_ACCEPT numbered 1 that carries the id and the current
    tick, then a WORLD_SNAPSHOT numbered 2 of the players with the new
    one among them, sends an ENTITY_CREATE for the new player to every
    other CONNECTED peer, and calls [onPlayerConnected] once. *)
Theorem connect_request_from_new_peer (fromAddr : sockaddr_in) (now : float) (h : Host) :
  (forall k c, Host.findConnection fromAddr h = Some (k, c) ->
     Connection.state c <> CONNECTED) ->
  let id := Host.nextPlayerId_ h in
  let h' := Host.handleConnectRequest fromAddr now h in
  Host.nextPlayerId_ h' = wrap32 (id + 1) /\
  Host.players_ h' = <[id := Host.spawn id]> (Host.players_ h) /\
  (exists c',
      Host.connections_ h' !! id = Some c' /\
      Connection.playerId c' = id /\ Connection.address c' = fromAddr /\
      Connection.state c' = CONNECTED /\ Connection.localSequence c' = 2 /\
      Connection.remoteSequence c' = 0 /\ Connection.lastReceiveTime c' = now /\
      (Host.connections_ h !! id = None ->
       Connection.pendingInputs c' = [] /\ Connection.lastProcessedInput c' = 0 /\
       Connection.ackBits c' = 0)) /\
  (forall k, k <> id ->
     Host.connections_ h' !! k = after_broadcast <$> Host.connections_ h !! k) /\
  Host.events h' = Host.events h ++ [Host.PlayerConnected id] /\
  (exists conn hs others,
      Host.sent h'
      = Host.sent h
        ++ (fromAddr,
            connect_accept_datagram (Host.currentTick_ h)
              (Connection.default{{ Connection.playerId := id;
                                    Connection.localSequence := 1 }}))
           :: (fromAddr, datagram (Host.worldSnapshotBuffer conn hs)) :: others /\
      Connection.localSequence conn = 2 /\
      Host.currentTick_ hs = Host.currentTick_ h /\
      Host.players_ hs = <[id := Host.spawn id]> (Host.players_ h)) /\
  (forall k c, k <> id -> Host.connections_ h !! k = Some c ->
     Connection.state c = CONNECTED ->
     (Connection.address c,
      create_datagram id (Host.currentTick_ h) (PlayerState.position (Host.spawn id))
        (next_sequence c)) ∈ Host.sent h') /\
  Host.currentTick_ h' = Host.currentTick_ h.
Proof.
  intros Hnew id h'.
  subst h'. rewrite (handleConnectRequest_creates fromAddr now h Hnew).
  destruct (createPlayer_effects fromAddr now h)
    as (Hnext & Hplayers & Hconn & Hothers & Hevents & _ & Hcreate & Htick).
  exact (conj Hnext (conj Hplayers (conj Hconn (conj Hothers (conj Hevents
           (conj (createPlayer_snapshot fromAddr now h) (conj Hcreate Htick))))))).
Qed.

Lemma connect_request_from_new_peer_witness :
  let h' := Host.handleConnectRequest example_addr F32.zero new_host in
  Host.nextPlayerId_ h' = 2 /\
  Host.players_ h' = <[1 := Host.spawn 1]> ∅ /\
  Host.events h' = [Host.PlayerConnected 1].
Proof.
  intros h'.
  assert (forall k c, Host.findConnection example_addr new_host = Some (k, c) ->
            Connection.state c <> CONNECTED) as Hnew by (intros k c; discriminate).
  destruct (connect_request_from_new_peer example_addr F32.zero new_host Hnew)
    as (Hn & Hp & _ & _ & He & _).
  exact (conj Hn (conj Hp He)).
Defined.

(** * Datagrams on the wire *)

Lemma room_new_buffer (n : nat) : (n <= MAX_PACKET_SIZE)%nat -> room n new_buffer.
Proof. intros Hn. split; [reflexivity | exact Hn]. Qed.

Lemma datagram_put (bs : list Z) :
  (length bs <= MAX_PACKET_SIZE)%nat -> datagram (put bs new_buffer) = bs.
Proof.
  intros Hlen. unfold datagram.
  rewrite (put_spec bs new_buffer (room_new_buffer _ Hlen)).
  cbn [PacketBuffer.writePos PacketBuffer.data].
  change (PacketBuffer.writePos new_buffer) with 0%nat.
  rewrite take_0, app_nil_l, Nat.add_0_l. apply take_app_length.
Qed.

Lemma received_holds (d : list Z) :
  (length d <= MAX_PACKET_SIZE)%nat -> holds (received d) d.
Proof.
  intros Hlen. unfold received, recv_into, holds.
  cbn [PacketBuffer.writePos PacketBuffer.data PacketBuffer.readPos apply_update constant].
  rewrite (take_ge d MAX_PACKET_SIZE) by exact Hlen.
  split; [lia |]. rewrite drop_0. eexists. reflexivity.
Qed.

Lemma control_header_wf (ty sq ak ab tk ps : Z) :
  is_u8 ty -> is_u32 sq -> is_u32 ak -> is_u32 ab -> is_u32 tk -> is_u16 ps ->
  PacketHeader.wf (PacketHeader.mk [80; 85; 76; 83] ty sq ak ab tk ps).
Proof.
  intros Hty Hsq Hak Hab Htk Hps. unfold PacketHeader.wf.
  cbn [PacketHeader.magic PacketHeader.type PacketHeader.sequence PacketHeader.ack
       PacketHeader.ackBits PacketHeader.tick PacketHeader.payloadSize].
  split; [reflexivity |].
  split; [repeat (apply Forall_cons_2; [cbv; split; [discriminate | reflexivity] |]);
          apply Forall_nil_2 |].
  repeat split; first [apply Hty | apply Hsq | apply Hak | apply Hab | apply Htk | apply Hps].
Qed.

Lemma is_u32_wrap32 (x : Z) : is_u32 (wrap32 x).
Proof. unfold is_u32, wrap32. apply Z.mod_pos_bound. lia. Qed.

(** A packet made of a header and a payload, as the receiver decodes it. *)
Lemma packet_decodes (hdr : PacketHeader) (payload : list Z) :
  PacketHeader.wf hdr -> (length payload <= 1377)%nat ->
  datagram (put payload (PacketBuffer.writeHeader hdr new_buffer))
  = header_bytes hdr ++ payload /\
  exists b', PacketBuffer.readHeader (received (header_bytes hdr ++ payload)) = (hdr, b')
             /\ holds b' payload.
Proof.
  intros Hwf Hlen.
  assert (length (header_bytes hdr) = 23%nat) as Hhb by (apply length_header_bytes, Hwf).
  rewrite (writeHeader_put hdr new_buffer)
    by (first [apply Hwf | apply room_new_buffer; unfold MAX_PACKET_SIZE; lia]).
  rewrite <- put_app.
  rewrite datagram_put by (rewrite length_app, Hhb; unfold MAX_PACKET_SIZE; lia).
  split; [reflexivity |].
  apply readHeader_holds; [exact Hwf |].
  apply received_holds. rewrite length_app, Hhb. unfold MAX_PACKET_SIZE. lia.
Qed.

Lemma put_nil (b : PacketBuffer) : put [] b = b.
Proof. reflexivity. Qed.

Lemma header_only_decodes (hdr : PacketHeader) :
  PacketHeader.wf hdr ->
  datagram (PacketBuffer.writeHeader hdr new_buffer) = header_bytes hdr /\
  length (header_bytes hdr) = 23%nat /\
  (PacketBuffer.readHeader (received (header_bytes hdr))).1 = hdr.
Proof.
  intros Hwf.
  destruct (packet_decodes hdr [] Hwf ltac:(cbn; lia)) as (Ed & b' & Er & _).
  rewrite put_nil, app_nil_r in Ed. rewrite app_nil_r in Er.
  split; [exact Ed |]. split; [apply length_header_bytes, Hwf |].
  rewrite Er. reflexivity.
Qed.

Lemma packet_magic (hdr : PacketHeader) (payload : list Z) :
  PacketHeader.magic hdr = [80; 85; 76; 83] ->
  (4 <= length (header_bytes hdr ++ payload))%nat /\
  take 4 (header_bytes hdr ++ payload) = [80; 85; 76; 83].
Proof.
  intros Hm. unfold header_bytes. rewrite Hm. split; [| reflexivity].
  cbn [take app length]. lia.
Qed.

(** X18.  The control packets of the client.  [sendConnectRequest],
    [sendHeartbeat] and [sendDisconnect] each send one 23-byte datagram
    whose header a receiver decodes with the next sequence number of the
    client; the heartbeat carries the client's [remoteSequence_] and
    [ackBits_] as acknowledgement, while CONNECT_REQUEST and DISCONNECT
    carry no acknowledgement (both fields 0); the tick and the payload
    size are 0 in all three. *)
Theorem client_control_packets (c : Client) :
  is_u32 (Client.remoteSequence_ c) -> is_u32 (Client.ackBits_ c) ->
  let sq := wrap32 (Client.localSequence_ c + 1) in
  let decoded (c' : Client) :=
    (PacketBuffer.readHeader (received (List.last (Client.sent c') []))).1 in
  (Client.localSequence_ (Client.sendConnectRequest c) = sq /\
   length (Client.sent (Client.sendConnectRequest c)) = S (length (Client.sent c)) /\
   length (List.last (Client.sent (Client.sendConnectRequest c)) []) = 23%nat /\
   decoded (Client.sendConnectRequest c)
   = PacketHeader.mk [80; 85; 76; 83] PacketType.CONNECT_REQUEST sq 0 0 0 0) /\
  (Client.localSequence_ (Client.sendHeartbeat c) = sq /\
   length (Client.sent (Client.sendHeartbeat c)) = S (length (Client.sent c)) /\
   length (List.last (Client.sent (Client.sendHeartbeat c)) []) = 23%nat /\
   decoded (Client.sendHeartbeat c)
   = PacketHeader.mk [80; 85; 76; 83] PacketType.HEARTBEAT sq
       (Client.remoteSequence_ c) (Client.ackBits_ c) 0 0) /\
  (Client.localSequence_ (Client.sendDisconnect c) = sq /\
   length (Client.sent (Client.sendDisconnect c)) = S (length (Client.sent c)) /\
   length (List.last (Client.sent (Client.sendDisconnect c)) []) = 23%nat /\
   decoded (Client.sendDisconnect c)
   = PacketHeader.mk [80; 85; 76; 83] PacketType.DISCONNECT sq 0 0 0 0).
Proof.
  intros HR HB sq decoded. subst decoded. cbv beta.
  assert (is_u32 sq) as Hsq by apply is_u32_wrap32.
  assert (is_u32 0) as H0 by in_range.
  assert (is_u16 0) as H0' by in_range.
  split; [| split].
  - destruct (header_only_decodes (PacketHeader.mk [80; 85; 76; 83] PacketType.CONNECT_REQUEST sq 0 0 0 0))
      as (Ed & Hl & Hd); [apply control_header_wf; try assumption; in_range |].
    destruct c as [so sa cst cpid ctick cls cR cB cis clst clrt ccst crtt cloc csrv crem cint chist cclk csent cev].
    unfold Client.sendConnectRequest, Client.sendToServer, Client.getTime.
    cbn [Client.localSequence_ Client.sent Client.clock apply_update constant] in *.
    rewrite last_last, length_app. cbn [length].
    unfold PacketHeader.default.
    cbn [PacketHeader.magic PacketHeader.type PacketHeader.sequence PacketHeader.ack
         PacketHeader.ackBits PacketHeader.tick PacketHeader.payloadSize].
    unfold datagram in Ed. fold sq. rewrite Ed.
    split; [reflexivity |]. split; [lia |]. split; [exact Hl | exact Hd].
  - destruct (header_only_decodes (PacketHeader.mk [80; 85; 76; 83] PacketType.HEARTBEAT sq
                      (Client.remoteSequence_ c) (Client.ackBits_ c) 0 0))
      as (Ed & Hl & Hd); [apply control_header_wf; try assumption; in_range |].
    destruct c as [so sa cst cpid ctick cls cR cB cis clst clrt ccst crtt cloc csrv crem cint chist cclk csent cev].
    unfold Client.sendHeartbeat, Client.sendToServer, Client.getTime.
    cbn [Client.localSequence_ Client.remoteSequence_ Client.ackBits_ Client.sent
         Client.clock apply_update constant] in *.
    rewrite last_last, length_app. cbn [length].
    unfold PacketHeader.default.
    cbn [PacketHeader.magic PacketHeader.type PacketHeader.sequence PacketHeader.ack
         PacketHeader.ackBits PacketHeader.tick PacketHeader.payloadSize].
    unfold datagram in Ed. fold sq. rewrite Ed.
    split; [reflexivity |]. split; [lia |]. split; [exact Hl | exact Hd].
  - destruct (header_only_decodes (PacketHeader.mk [80; 85; 76; 83] PacketType.DISCONNECT sq 0 0 0 0))
      as (Ed & Hl & Hd); [apply control_header_wf; try assumption; in_range |].
    destruct c as [so sa cst cpid ctick cls cR cB cis clst clrt ccst crtt cloc csrv crem cint chist cclk csent cev].
    unfold Client.sendDisconnect, Client.sendToServer.
    cbn [Client.localSequence_ Client.sent Client.clock apply_update constant] in *.
    rewrite last_last, length_app. cbn [length].
    unfold PacketHeader.default.
    cbn [PacketHeader.magic PacketHeader.type PacketHeader.sequence PacketHeader.ack
         PacketHeader.ackBits PacketHeader.tick PacketHeader.payloadSize].
    unfold datagram in Ed. fold sq. rewrite Ed.
    split; [reflexivity |]. split; [lia |]. split; [exact Hl | exact Hd].
Qed.

Lemma client_control_packets_witness :
  let c := connected_client 1 0 in
  (PacketBuffer.readHeader (received (List.last (Client.sent (Client.sendHeartbeat c)) []))).1
  = PacketHeader.mk [80; 85; 76; 83] PacketType.HEARTBEAT 2 1 1 0 0.
Proof.
  intros c.
  assert (is_u32 (Client.remoteSequence_ c)) as HR by in_range.
  assert (is_u32 (Client.ackBits_ c)) as HB by in_range.
  destruct (client_control_packets c HR HB) as (_ & (_ & _ & _ & H) & _).
  exact H.
Defined.

(** * The connection handshake, end to end *)

Lemma client_dispatch (L : Libm) (hdr : PacketHeader) (payload : list Z)
    (now : float) (c : Client) :
  PacketHeader.wf hdr -> PacketHeader.magic hdr = [80; 85; 76; 83] ->
  (length payload <= 1377)%nat -> Client.socket_ c = true ->
  exists b',
    holds b' payload /\
    Client.receivePackets now [header_bytes hdr ++ payload] c
    = Client.handlePacket hdr b' now c.
Proof.
  intros Hwf Hm Hlen Hso.
  destruct (packet_decodes hdr payload Hwf Hlen) as (_ & b' & Er & Hh).
  destruct (packet_magic hdr payload Hm) as [H4 Ht].
  exists b'. split; [exact Hh |].
  unfold Client.receivePackets.
  rewrite (proj2 (valid_magic_is_dispatched _ H4 Ht) L now [] new_buffer c Hso).
  fold (received (header_bytes hdr ++ payload)). rewrite Er. reflexivity.
Qed.

Lemma host_dispatch (hdr : PacketHeader) (payload : list Z)
    (now : float) (fromAddr : sockaddr_in) (h : Host) :
  PacketHeader.wf hdr -> PacketHeader.magic hdr = [80; 85; 76; 83] ->
  (length payload <= 1377)%nat ->
  exists b',
    holds b' payload /\
    Host.receivePackets now [(fromAddr, header_bytes hdr ++ payload)] h
    = Host.handlePacket hdr b' fromAddr now h.
Proof.
  intros Hwf Hm Hlen.
  destruct (packet_decodes hdr payload Hwf Hlen) as (_ & b' & Er & Hh).
  destruct (packet_magic hdr payload Hm) as [H4 Ht].
  exists b'. split; [exact Hh |].
  unfold Host.receivePackets.
  rewrite (proj1 (valid_magic_is_dispatched _ H4 Ht) now fromAddr [] new_buffer h).
  fold (received (header_bytes hdr ++ payload)). rewrite Er. reflexivity.
Qed.

Lemma connect_accept_bytes (tick : Z) (conn : Connection) :
  is_u32 tick -> is_u32 (Connection.localSequence conn) ->
  connect_accept_datagram tick conn
  = header_bytes (PacketHeader.mk [80; 85; 76; 83] PacketType.CONNECT_ACCEPT
                    (Connection.localSequence conn) 0 0 tick 0)
    ++ (bytes32 (Connection.playerId conn) ++ bytes32 tick).
Proof.
  intros Htk Hls. unfold connect_accept_datagram.
  rewrite !writeU32_put, <- put_app.
  refine (proj1 (packet_decodes _ _ _ _)).
  - apply control_header_wf; try assumption; in_range.
  - rewrite length_app, !length_bytes32. lia.
Qed.

Lemma handleConnectAccept_decodes (L : Libm) (hdr : PacketHeader) (b : PacketBuffer)
    (now : float) (c : Client) (playerId tick : Z) :
  PacketHeader.type hdr = PacketType.CONNECT_ACCEPT ->
  is_u32 playerId -> is_u32 tick ->
  holds b (bytes32 playerId ++ bytes32 tick) ->
  let c' := Client.handlePacket hdr b now c in
  Client.state_ c' = CONNECTED /\ Client.playerId_ c' = playerId /\
  Client.serverTick_ c' = tick /\
  PlayerState.position (Client.localState_ c') = Client.spawn_position /\
  PlayerState.playerId (Client.localState_ c') = playerId /\
  Client.events c' = Client.events c ++ [Client.Connected playerId].
Proof.
  intros Hty Hp Ht Hh c'. subst c'.
  destruct (readU32_holds _ _ _ Hp Hh) as (b1 & E1 & H1).
  rewrite <- (app_nil_r (bytes32 tick)) in H1.
  destruct (readU32_holds _ _ _ Ht H1) as (b2 & E2 & _).
  unfold Client.handlePacket. rewrite Hty.
  change (PacketType.CONNECT_ACCEPT =? PacketType.CONNECT_ACCEPT) with true. cbv iota.
  unfold Client.handleConnectAccept. rewrite E1, E2.
  pose proof (updateAcks_frame hdr (c{{ Client.lastReceiveTime_ := now }})) as (_ & _ & Hev).
  destruct (Client.updateAcks hdr (c{{ Client.lastReceiveTime_ := now }}))
    as [so sa cst cpid ctick cls cR cB cis clst clrt ccst crtt cloc csrv crem cint chist cclk csent cev].
  destruct c. cbn in Hev. subst cev. cbn. repeat split; reflexivity.
Qed.

(** X19.  The handshake, end to end.  A client calls [connect]; the
    host receives the CONNECT_REQUEST it sent from an address that has
    no connection yet; the client receives the first datagram the host
    sent back.  Then the client is CONNECTED with the player id the host
    allocated and the host's tick, the host stores a player under that
    id, and both sides place the player at the same spawn position. *)
Theorem handshake_end_to_end (L : Libm) (server peer : sockaddr_in) (now now' : float)
    (h : Host) (c : Client) :
  (forall k conn, Host.findConnection peer h = Some (k, conn) ->
     Connection.state conn <> CONNECTED) ->
  is_u32 (Host.nextPlayerId_ h) -> is_u32 (Host.currentTick_ h) ->
  let c1 := Client.connect server c in
  let request := List.last (Client.sent c1) [] in
  let h' := Host.receivePackets now [(peer, request)] h in
  exists accept rest,
    Host.sent h' = Host.sent h ++ (peer, accept) :: rest /\
    let c2 := Client.receivePackets now' [accept] c1 in
    Client.state_ c1 = CONNECTING /\
    Client.state_ c2 = CONNECTED /\
    Client.playerId_ c2 = Host.nextPlayerId_ h /\
    Client.serverTick_ c2 = Host.currentTick_ h /\
    Host.players_ h' !! Client.playerId_ c2 = Some (Host.spawn (Client.playerId_ c2)) /\
    PlayerState.position (Client.localState_ c2)
    = PlayerState.position (Host.spawn (Client.playerId_ c2)) /\
    Client.events c2 = Client.events c1 ++ [Client.Connected (Host.nextPlayerId_ h)] /\
    Host.events h' = Host.events h ++ [Host.PlayerConnected (Host.nextPlayerId_ h)].
Proof.
  intros Hnew Hid Htk c1 request h'.
  (* the request as the client sends it *)
  set (sq := wrap32 (Client.localSequence_ c + 1)).
  set (rq := PacketHeader.mk [80; 85; 76; 83] PacketType.CONNECT_REQUEST sq 0 0 0 0).
  assert (PacketHeader.wf rq) as Hrq
    by (apply control_header_wf; try apply is_u32_wrap32; in_range).
  assert (Client.state_ c1 = CONNECTING /\ Client.socket_ c1 = true /\
          request = header_bytes rq ++ []) as (Hst1 & Hso1 & Ereq).
  { subst request c1. destruct (header_only_decodes rq Hrq) as (Ed & _ & _).
    unfold datagram in Ed. rewrite app_nil_r.
    destruct c as [so sa cst cpid ctick cls cR cB cis clst clrt ccst crtt cloc csrv crem cint chist cclk csent cev].
    unfold Client.connect, Client.sendConnectRequest, Client.sendToServer, Client.getTime.
    cbn [Client.localSequence_ Client.sent Client.clock Client.state_ Client.socket_
         apply_update constant] in *.
    rewrite last_last. unfold PacketHeader.default.
    cbn [PacketHeader.magic PacketHeader.type PacketHeader.sequence PacketHeader.ack
         PacketHeader.ackBits PacketHeader.tick PacketHeader.payloadSize].
    fold sq. fold rq. rewrite Ed. repeat split; reflexivity. }
  (* the host dispatches it to [handleConnectRequest] *)
  destruct (host_dispatch rq [] now peer h Hrq eq_refl ltac:(cbn; lia)) as (b' & _ & Eh).
  assert (h' = Host.createPlayer peer now h) as Eh'.
  { subst h'. rewrite Ereq, Eh. unfold Host.handlePacket.
    change (PacketHeader.type rq =? PacketType.CONNECT_REQUEST) with true. cbv iota.
    apply handleConnectRequest_creates. exact Hnew. }
  destruct (createPlayer_effects peer now h)
    as (_ & Hpl & _ & _ & Hev & (snapshot & others & Hsent) & _).
  rewrite <- Eh' in Hpl, Hev, Hsent.
  eexists. eexists. split; [exact Hsent |].
  (* the client decodes the CONNECT_ACCEPT *)
  set (conn := Connection.default{{ Connection.playerId := Host.nextPlayerId_ h;
                                    Connection.localSequence := 1 }}).
  rewrite (connect_accept_bytes (Host.currentTick_ h) conn Htk ltac:(in_range)).
  set (ac := PacketHeader.mk [80; 85; 76; 83] PacketType.CONNECT_ACCEPT
               (Connection.localSequence conn) 0 0 (Host.currentTick_ h) 0).
  assert (PacketHeader.wf ac) as Hac
    by (apply control_header_wf; try assumption; in_range).
  destruct (client_dispatch L ac (bytes32 (Connection.playerId conn)
                                   ++ bytes32 (Host.currentTick_ h))
              now' c1 Hac eq_refl ltac:(rewrite length_app, !length_bytes32; lia) Hso1)
    as (b2 & Hh2 & Ec).
  cbv zeta. rewrite Ec.
  destruct (handleConnectAccept_decodes L ac b2 now' c1 (Host.nextPlayerId_ h)
              (Host.currentTick_ h) eq_refl Hid Htk Hh2)
    as (Hs & Hp & Ht & Hpos & _ & Hevc).
  rewrite Hp, Hs, Ht, Hpos, Hevc, Hpl, lookup_insert_eq.
  repeat split; try reflexivity; assumption.
Qed.

Lemma handshake_end_to_end_witness :
  let c1 := Client.connect example_addr new_client in
  let h' := Host.receivePackets F32.zero
              [(example_addr2, List.last (Client.sent c1) [])] new_host in
  exists accept rest,
    Host.sent h' = (example_addr2, accept) :: rest /\
    Client.state_ (@Client.receivePackets example_libm F32.zero [accept] c1) = CONNECTED /\
    Client.playerId_ (@Client.receivePackets example_libm F32.zero [accept] c1) = 1.
Proof.
  intros c1 h'.
  assert (forall k conn, Host.findConnection example_addr2 new_host = Some (k, conn) ->
            Connection.state conn <> CONNECTED) as Hnew by (intros k conn; discriminate).
  assert (is_u32 (Host.nextPlayerId_ new_host)) as Hid by in_range.
  assert (is_u32 (Host.currentTick_ new_host)) as Htk by in_range.
  destruct (handshake_end_to_end example_libm example_addr example_addr2 F32.zero F32.zero
              new_host new_client Hnew Hid Htk)
    as (accept & rest & Hs & _ & Hc & Hp & _).
  exists accept, rest. exact (conj Hs (conj Hc Hp)).
Defined.

(** * Timeouts *)

Lemma removePlayer_spec (h : Host) (id : Z) :
  Host.removePlayer h id
  = h{{ Host.connections_ := delete id (after_broadcast <$> Host.connections_ h);
        Host.players_ := delete id (Host.players_ h);
        Host.sent :=
          Host.sent h
          ++ broadcast (fun _ c =>
                          if decide (Connection.state c = CONNECTED)
                          then [(Connection.address c,
                                 destroy_datagram id (Host.currentTick_ h)
                                   (next_sequence c))]
                          else [])
                       (Host.connections_ h);
        Host.events := Host.events h ++ [Host.PlayerDisconnected id] }}.
Proof.
  unfold Host.removePlayer. rewrite broadcastEntityDestroy_spec.
  destruct h. reflexivity.
Qed.






(** * The simulation tick *)

Lemma last_cons_default {A} (x d : A) (l : list A) : List.last (x :: l) d = List.last l x.
Proof.
  revert x d. induction l as [| y l IH]; intros x d; [reflexivity |].
  change (List.last (x :: y :: l) d) with (List.last (y :: l) d).
  rewrite IH. symmetry. apply IH.
Qed.

Lemma simulate_eq (L : Libm) (tick : Z) (s : PlayerState) (i : PlayerInput) :
  ((Client.applyInputToState s i){{ PlayerState.tick := tick }}){{
     PlayerState.lastProcessedInput := PlayerInput.sequence i }}
  = simulate tick s i.
Proof. unfold simulate. destruct (Client.applyInputToState s i). reflexivity. Qed.

Lemma drainPending_spec (L : Libm) (id : Z) (l : list PlayerInput)
    (conn : Connection) (h : Host) :
  Host.drainPending id l conn h
  = (conn{{ Connection.pendingInputs := [];
            Connection.lastProcessedInput :=
              List.last (sequences (accepted (Connection.lastProcessedInput conn) l))
                        (Connection.lastProcessedInput conn) }},
     match Host.players_ h !! id with
     | Some s =>
         h{{ Host.players_ :=
               <[id := foldl (simulate (Host.currentTick_ h)) s
                         (accepted (Connection.lastProcessedInput conn) l)]>
                 (Host.players_ h) }}
     | None => h
     end).
Proof.
  revert conn h. induction l as [| i l IH]; intros conn h.
  - cbn [Host.drainPending accepted sequences map List.last foldl].
    destruct (Host.players_ h !! id) as [s |] eqn:Es.
    + rewrite (insert_id _ _ _ Es). destruct conn, h. reflexivity.
    + destruct conn. reflexivity.
  - cbn [Host.drainPending accepted].
    destruct (Connection.lastProcessedInput conn <? PlayerInput.sequence i) eqn:Ei.
    + destruct (Host.players_ h !! id) as [s |] eqn:Es.
      * rewrite (host_rule_is_client_rule L h id s i Es).
        destruct h as [run tick next tacc sacc conns players clk snt evs].
        destruct conn as [pid addr st ls R B lrt lst rtt pend lpi].
        cbn [Host.players_ Host.currentTick_ Connection.lastProcessedInput
             apply_update constant fst snd] in *.
        rewrite lookup_insert_eq, IH.
        cbn [Host.players_ Host.currentTick_ Connection.lastProcessedInput
             apply_update constant fst snd].
        rewrite lookup_insert_eq, !insert_insert_eq.
        cbn [sequences map foldl]. rewrite last_cons_default.
        rewrite <- simulate_eq. reflexivity.
      * rewrite (host_missing_player L h id i Es), Es, IH, Es.
        cbn [sequences map]. rewrite last_cons_default.
        destruct conn. reflexivity.
    + apply IH.
Qed.

Lemma accepted_increasing (floor : Z) (l : list PlayerInput) :
  increasing_above floor (accepted floor l).
Proof.
  revert floor. induction l as [| i l IH]; intros floor; cbn [accepted]; [exact I |].
  destruct (Z.ltb_spec floor (PlayerInput.sequence i)) as [Hlt | Hge]; [| apply IH].
  cbn [increasing_above]. split; [exact Hlt | apply IH].
Qed.

Lemma accepted_sublist (floor : Z) (l : list PlayerInput) : sublist (accepted floor l) l.
Proof.
  revert floor. induction l as [| i l IH]; intros floor; cbn [accepted]; [constructor |].
  destruct (floor <? PlayerInput.sequence i).
  - apply sublist_skip, IH.
  - apply sublist_cons, IH.
Qed.

Lemma accepted_covers (floor : Z) (l : list PlayerInput) :
  floor <= List.last (sequences (accepted floor l)) floor /\
  Forall (fun i => PlayerInput.sequence i
                   <= List.last (sequences (accepted floor l)) floor) l.
Proof.
  revert floor. induction l as [| i l IH]; intros floor; cbn [accepted].
  - split; [cbn; lia | apply Forall_nil_2].
  - destruct (Z.ltb_spec floor (PlayerInput.sequence i)) as [Hlt | Hge].
    + cbn [sequences map]. rewrite last_cons_default.
      destruct (IH (PlayerInput.sequence i)) as [H1 H2].
      split; [unfold sequences in H1; lia |].
      apply Forall_cons_2; [exact H1 | exact H2].
    + destruct (IH floor) as [H1 H2]. split; [exact H1 |].
      apply Forall_cons_2; [lia | exact H2].
Qed.

Lemma foldl_simulate_pose (L : Libm) (tick : Z) (l : list PlayerInput) (s s' : PlayerState) :
  pose s = pose s' ->
  pose (foldl (simulate tick) s l) = pose (foldl Client.applyInputToState s' l).
Proof.
  revert s s'. induction l as [| i l IH]; intros s s' Hp; [exact Hp |].
  cbn [foldl]. apply IH.
  transitivity (pose (Client.applyInputToState s i)).
  - unfold simulate, pose. destruct (Client.applyInputToState s i). reflexivity.
  - apply client_rule_pose. exact Hp.
Qed.

(** X21.  The input queue of a connection is drained exactly once and
    in order.  [processTick]'s loop over the pending inputs applies the
    inputs numbered above every input applied before them and drops the
    others, so that a sequence number is never applied twice even when
    the queue holds it several times; what it computes for the player
    is what client-side prediction computes from the applied inputs;
    afterwards the queue is empty, [lastProcessedInput] has not
    decreased and is at or above every input that was queued; and no
    other player is touched. *)
Theorem drainPending_applies_once (L : Libm) (id : Z) (l : list PlayerInput)
    (conn : Connection) (h : Host) :
  let r := Host.drainPending id l conn h in
  let applied := accepted (Connection.lastProcessedInput conn) l in
  r.1 = conn{{ Connection.pendingInputs := [];
               Connection.lastProcessedInput :=
                 List.last (sequences applied) (Connection.lastProcessedInput conn) }} /\
  Host.players_ r.2 !! id
  = (fun s => foldl (simulate (Host.currentTick_ h)) s applied) <$> Host.players_ h !! id /\
  (forall s, Host.players_ h !! id = Some s ->
     exists s', Host.players_ r.2 !! id = Some s' /\
                pose s' = pose (foldl Client.applyInputToState s applied)) /\
  (forall k, k <> id -> Host.players_ r.2 !! k = Host.players_ h !! k) /\
  increasing_above (Connection.lastProcessedInput conn) applied /\
  sublist applied l /\
  Connection.lastProcessedInput conn <= Connection.lastProcessedInput r.1 /\
  Forall (fun i => PlayerInput.sequence i <= Connection.lastProcessedInput r.1) l /\
  pending_fresh r.1.
Proof.
  intros r applied. subst r. rewrite drainPending_spec. fold applied. cbn [fst snd].
  destruct (accepted_covers (Connection.lastProcessedInput conn) l) as [Hge Hall].
  fold applied in Hge, Hall.
  assert (Host.players_
            match Host.players_ h !! id with
            | Some s =>
                h{{ Host.players_ :=
                      <[id := foldl (simulate (Host.currentTick_ h)) s applied]>
                        (Host.players_ h) }}
            | None => h
            end
          = match Host.players_ h !! id with
            | Some s => <[id := foldl (simulate (Host.currentTick_ h)) s applied]>
                          (Host.players_ h)
            | None => Host.players_ h
            end) as Ep.
  { destruct (Host.players_ h !! id); [destruct h |]; reflexivity. }
  rewrite Ep. clear Ep.
  split; [reflexivity |].
  split.
  { destruct (Host.players_ h !! id) as [s |] eqn:Es.
    - rewrite lookup_insert_eq. reflexivity.
    - rewrite Es. reflexivity. }
  split.
  { intros s Es. rewrite Es, lookup_insert_eq. eexists. split; [reflexivity |].
    apply foldl_simulate_pose. reflexivity. }
  split.
  { intros k Hk. destruct (Host.players_ h !! id) as [s |]; [| reflexivity].
    apply lookup_insert_ne. intros E. apply Hk. symmetry. exact E. }
  split; [apply accepted_increasing |].
  split; [apply accepted_sublist |].
  destruct conn as [pid addr st ls R B lrt lst rtt pend lpi].
  cbn [Connection.lastProcessedInput Connection.pendingInputs apply_update constant] in *.
  split; [exact Hge |]. split; [exact Hall |].
  unfold pending_fresh. cbn [Connection.pendingInputs]. apply Forall_nil_2.
Qed.

Lemma lookup_foldl_adjust {A B} (F : A -> B -> B) (l : list (Z * A)) (m : gmap Z B) (k : Z) :
  NoDup l.*1 ->
  foldl (fun m kv => match m !! kv.1 with
                     | Some s => <[kv.1 := F kv.2 s]> m
                     | None => m
                     end) m l !! k
  = match (list_to_map l : gmap Z A) !! k with
    | Some c => F c <$> m !! k
    | None => m !! k
    end.
Proof.
  revert m. induction l as [| [k0 c0] l IH]; intros m Hnd; [reflexivity |].
  rewrite fmap_cons in Hnd. apply NoDup_cons in Hnd as [Hk0 Hnd].
  cbn [foldl fst snd list_to_map foldr]. rewrite (IH _ Hnd).
  destruct (decide (k = k0)) as [-> | Hne].
  - rewrite (not_elem_of_list_to_map_1 _ _ Hk0), lookup_insert_eq.
    destruct (m !! k0) as [s |] eqn:Es.
    + rewrite lookup_insert_eq. reflexivity.
    + rewrite Es. reflexivity.
  - rewrite lookup_insert_ne by (intros E; apply Hne; symmetry; exact E).
    assert (match m !! k0 with
            | Some s => <[k0 := F c0 s]> m
            | None => m
            end !! k = m !! k) as ->.
    { destruct (m !! k0); [| reflexivity].
      apply lookup_insert_ne. intros E. apply Hne. symmetry. exact E. }
    reflexivity.
Qed.

Lemma processTick_effects (L : Libm) (h : Host) :
  let T := wrap32 (Host.currentTick_ h + 1) in
  let h' := Host.processTick h in
  Host.currentTick_ h' = T /\
  Host.connections_ h' = drained <$> Host.connections_ h /\
  (forall k,
     Host.players_ h' !! k
     = match Host.connections_ h !! k with
       | Some c =>
           (fun s => foldl (simulate T) s
                       (accepted (Connection.lastProcessedInput c)
                                 (Connection.pendingInputs c)))
           <$> Host.players_ h !! k
       | None => Host.players_ h !! k
       end) /\
  Host.sent h' = Host.sent h /\
  Host.events h' = Host.events h /\
  Host.nextPlayerId_ h' = Host.nextPlayerId_ h /\
  Host.tickAccumulator_ h' = Host.tickAccumulator_ h.
Proof.
  intros T h'. subst h'. unfold Host.processTick.
  set (h0 := h{{ Host.currentTick_ := wrap32 (Host.currentTick_ h + 1) }}).
  set (F := fun (c : Connection) (s : PlayerState) =>
              foldl (simulate T) s
                (accepted (Connection.lastProcessedInput c) (Connection.pendingInputs c))).
  assert (Host.connections_ h0 = Host.connections_ h) as Ec0 by (destruct h; reflexivity).
  assert (Host.players_ h0 = Host.players_ h) as Ep0 by (destruct h; reflexivity).
  pose proof (for_each_connection_ind
                (fun id conn h => Host.drainPending id (Connection.pendingInputs conn) conn h)
                (fun pre h' =>
                   Host.currentTick_ h' = T /\
                   Host.connections_ h'
                   = foldl (fun m kv => <[kv.1 := drained kv.2]> m) (Host.connections_ h) pre /\
                   Host.players_ h'
                   = foldl (fun m kv => match m !! kv.1 with
                                        | Some s => <[kv.1 := F kv.2 s]> m
                                        | None => m
                                        end) (Host.players_ h) pre /\
                   Host.sent h' = Host.sent h /\ Host.events h' = Host.events h /\
                   Host.nextPlayerId_ h' = Host.nextPlayerId_ h /\
                   Host.tickAccumulator_ h' = Host.tickAccumulator_ h)
                h0) as Hind.
  cbv beta in Hind.
  destruct Hind as (Ht & Hc & Hp & Hs & He & Hn & Ha).
  - subst h0. destruct h. cbn. repeat split; reflexivity.
  - intros pre k conn suf h' _ (Ht & Hc & Hp & Hs & He & Hn & Ha).
    rewrite drainPending_spec. cbn [fst snd]. fold (drained conn).
    rewrite !foldl_app. cbn [foldl fst snd]. rewrite <- Hc, <- Hp, Ht.
    fold (F conn).
    destruct (Host.players_ h' !! k) as [s |] eqn:Es;
      destruct h'; cbn in *; repeat split; assumption.
  - rewrite Ec0 in Hc, Hp.
    split; [exact Ht |].
    split; [rewrite Hc, (foldl_insert_map_to_list (fun _ c => drained c));
            apply (map_imap_fmap drained) |].
    split; [| repeat split; assumption].
    intros k. rewrite Hp, lookup_foldl_adjust by apply NoDup_fst_map_to_list.
    rewrite list_to_map_to_list. reflexivity.
Qed.

(** X22.  One simulation tick.  [processTick] advances the tick by one
    (modulo 2^32), drains the input queue of every connection, and moves
    the player of every connection by the inputs it applied, stamped
    with the new tick; players without a connection, the packets sent
    and the callbacks are left alone. *)
Theorem processTick_spec (L : Libm) (h : Host) :
  let T := wrap32 (Host.currentTick_ h + 1) in
  let h' := Host.processTick h in
  Host.currentTick_ h' = T /\
  Host.connections_ h' = drained <$> Host.connections_ h /\
  (forall k,
     Host.players_ h' !! k
     = match Host.connections_ h !! k with
       | Some c =>
           (fun s => foldl (simulate T) s
                       (accepted (Connection.lastProcessedInput c)
                                 (Connection.pendingInputs c)))
           <$> Host.players_ h !! k
       | None => Host.players_ h !! k
       end) /\
  Host.sent h' = Host.sent h /\
  Host.events h' = Host.events h /\
  Host.nextPlayerId_ h' = Host.nextPlayerId_ h /\
  Host.tickAccumulator_ h' = Host.tickAccumulator_ h.
Proof. exact (processTick_effects L h). Qed.
(** * Queueing inputs *)

(** The loop of [handleInput] appends the inputs it decodes that are
    numbered above [lastProcessedInput], in the order of the packet. *)
Lemma readInputs_queue (n : nat) (conn : Connection) (buffer : PacketBuffer) :
  (Host.readInputs n conn buffer).1
  = conn{{ Connection.pendingInputs :=
             Connection.pendingInputs conn
             ++ List.filter (fun i => Connection.lastProcessedInput conn
                                      <? PlayerInput.sequence i)
                            (decoded_inputs n buffer) }}.
Proof.
  revert conn buffer. induction n as [| n IH]; intros conn buffer.
  - cbn [Host.readInputs decoded_inputs List.filter fst]. rewrite app_nil_r.
    destruct conn; reflexivity.
  - cbn [Host.readInputs decoded_inputs].
    destruct (PacketBuffer.readPlayerInput buffer) as [input b1].
    cbn [List.filter].
    destruct (Z.ltb_spec (Connection.lastProcessedInput conn) (PlayerInput.sequence input))
      as [Hlt | Hge].
    + rewrite IH.
      destruct conn as [pid addr st ls R B lrt lst rtt pend lpi].
      cbn [Connection.pendingInputs Connection.lastProcessedInput apply_update constant].
      rewrite <- app_assoc. reflexivity.
    + apply IH.
Qed.

Lemma length_decoded_inputs (n : nat) (buffer : PacketBuffer) :
  length (decoded_inputs n buffer) = n.
Proof.
  revert buffer. induction n as [| n IH]; intros buffer; [reflexivity |].
  cbn [decoded_inputs]. destruct (PacketBuffer.readPlayerInput buffer) as [input b1].
  cbn [length]. rewrite IH. reflexivity.
Qed.

(** Decoding gives back the inputs whose encodings the buffer holds at
    its read cursor. *)
Lemma decoded_inputs_holds (l : list PlayerInput) (rest : list Z) (buffer : PacketBuffer) :
  Forall PlayerInput.wf l ->
  holds buffer (concat (map input_bytes l) ++ rest) ->
  decoded_inputs (length l) buffer = l.
Proof.
  revert buffer. induction l as [| i l IH]; intros buffer Hwf Hh; [reflexivity |].
  apply Forall_cons_1 in Hwf. destruct Hwf as [Hi Hl].
  cbn [map concat] in Hh. rewrite <- app_assoc in Hh.
  destruct (readPlayerInput_holds i _ buffer Hi Hh) as (b' & E & Hh').
  cbn [length decoded_inputs]. rewrite E. f_equal. apply IH; assumption.
Qed.

Lemma updateAcks_queue (header : PacketHeader) (conn : Connection) :
  Connection.pendingInputs (Host.updateAcks header conn) = Connection.pendingInputs conn /\
  Connection.lastProcessedInput (Host.updateAcks header conn)
  = Connection.lastProcessedInput conn.
Proof.
  unfold Host.updateAcks.
  repeat match goal with
         | |- context [if ?c then _ else _] => destruct c
         end; destruct conn; split; reflexivity.
Qed.

Lemma Forall_filter_fresh (floor : Z) (l : list PlayerInput) :
  Forall (fun i => floor < PlayerInput.sequence i)
         (List.filter (fun i => floor <? PlayerInput.sequence i) l).
Proof.
  induction l as [| i l IH]; [apply Forall_nil_2 |].
  cbn [List.filter]. destruct (Z.ltb_spec floor (PlayerInput.sequence i)).
  - apply Forall_cons_2; assumption.
  - exact IH.
Qed.

(** X23.  The host queues fresh inputs only.  An INPUT packet from a
    CONNECTED peer makes the host decode [payloadSize / 21] inputs from
    the payload, one after the other, and append to the connection's
    queue, in that order, exactly those numbered above
    [lastProcessedInput]; when the payload holds the encodings of that
    many inputs, the decoded inputs are those inputs.  The connection is
    stamped with the receive time and its acknowledgement state is
    updated; nothing else of the host changes: no player moves (inputs
    take effect at the next tick), no other connection is touched,
    nothing is sent and no callback is called; [lastProcessedInput] is
    unchanged, and a queue whose inputs are all numbered above it stays
    so. *)
Theorem input_packet_queues_fresh (header : PacketHeader) (buffer : PacketBuffer)
    (fromAddr : sockaddr_in) (now : float) (h : Host) (k : Z) (conn : Connection) :
  Host.findConnection fromAddr h = Some (k, conn) ->
  Connection.state conn = CONNECTED ->
  PacketHeader.type header = PacketType.INPUT ->
  let n := Z.to_nat (PacketHeader.payloadSize header / 21) in
  let decoded := decoded_inputs n buffer in
  let new := List.filter (fun i => Connection.lastProcessedInput conn
                                   <? PlayerInput.sequence i) decoded in
  let conn' := (Host.updateAcks header (conn{{ Connection.lastReceiveTime := now }})){{
                 Connection.pendingInputs := Connection.pendingInputs conn ++ new }} in
  let h' := Host.handlePacket header buffer fromAddr now h in
  h' = h{{ Host.connections_ := <[k := conn']> (Host.connections_ h) }} /\
  length decoded = n /\
  (forall l rest, Forall PlayerInput.wf l -> length l = n ->
     holds buffer (concat (map input_bytes l) ++ rest) -> decoded = l) /\
  Forall (fun i => Connection.lastProcessedInput conn < PlayerInput.sequence i) new /\
  Z.of_nat (length new) <= Z.max 0 (PacketHeader.payloadSize header / 21) /\
  Connection.lastProcessedInput conn' = Connection.lastProcessedInput conn /\
  (pending_fresh conn -> pending_fresh conn') /\
  Host.players_ h' = Host.players_ h /\
  Host.sent h' = Host.sent h /\
  Host.events h' = Host.events h.
Proof.
  intros Hf Hc Hty n decoded new conn' h'.
  assert (h' = h{{ Host.connections_ := <[k := conn']> (Host.connections_ h) }}) as Eh.
  { subst h'. unfold Host.handlePacket. rewrite Hf, Hty.
    change (PacketType.INPUT =? PacketType.CONNECT_REQUEST) with false.
    change (PacketType.INPUT =? PacketType.DISCONNECT) with false.
    change ((PacketType.INPUT =? PacketType.HEARTBEAT) || (PacketType.INPUT =? PacketType.ACK))
      with false.
    change (PacketType.INPUT =? PacketType.INPUT) with true. cbv iota.
    destruct (decide (Connection.state conn = CONNECTED)) as [_ | Hn]; [| contradiction].
    unfold Host.handleInput. fold n.
    set (c1 := Host.updateAcks header (conn{{ Connection.lastReceiveTime := now }})).
    destruct (updateAcks_queue header (conn{{ Connection.lastReceiveTime := now }}))
      as [Hpend Hlpi].
    fold c1 in Hpend, Hlpi.
    assert (Connection.pendingInputs c1 = Connection.pendingInputs conn) as Hp1
      by (rewrite Hpend; destruct conn; reflexivity).
    assert (Connection.lastProcessedInput c1 = Connection.lastProcessedInput conn) as Hl1
      by (rewrite Hlpi; destruct conn; reflexivity).
    pose proof (readInputs_queue n c1 buffer) as E.
    destruct (Host.readInputs n c1 buffer) as [c2 b'].
    cbn [fst] in E. subst c2. rewrite Hp1, Hl1.
    fold decoded. fold new. fold conn'. destruct h; reflexivity. }
  split; [exact Eh |].
  split; [apply length_decoded_inputs |].
  split.
  { intros l rest Hwf Hlen Hh. subst decoded. rewrite <- Hlen.
    exact (decoded_inputs_holds l rest buffer Hwf Hh). }
  split; [apply Forall_filter_fresh |].
  split.
  { pose proof (filter_length_le
                  (fun i => Connection.lastProcessedInput conn <? PlayerInput.sequence i)
                  decoded) as Hle.
    fold new in Hle. pose proof (length_decoded_inputs n buffer) as Hn.
    fold decoded in Hn. subst n. lia. }
  assert (Connection.lastProcessedInput conn' = Connection.lastProcessedInput conn) as Hlpi'.
  { subst conn'.
    destruct (updateAcks_queue header (conn{{ Connection.lastReceiveTime := now }}))
      as [_ Hlpi].
    destruct (Host.updateAcks header (conn{{ Connection.lastReceiveTime := now }})).
    cbn [Connection.lastProcessedInput apply_update constant] in *.
    rewrite Hlpi. destruct conn; reflexivity. }
  split; [exact Hlpi' |].
  split.
  { unfold pending_fresh. intros Hold. rewrite Hlpi'.
    replace (Connection.pendingInputs conn') with (Connection.pendingInputs conn ++ new)
      by (subst conn';
          destruct (Host.updateAcks header (conn{{ Connection.lastReceiveTime := now }}));
          reflexivity).
    apply Forall_app. split; [exact Hold | apply Forall_filter_fresh]. }
  rewrite Eh. destruct h. split; [reflexivity |]. split; reflexivity.
Qed.

Lemma input_packet_queues_fresh_witness :
  let header := PacketHeader.default{{ PacketHeader.type := PacketType.INPUT;
                                       PacketHeader.sequence := 2;
                                       PacketHeader.payloadSize := 63 }} in
  let buffer := foldl (fun b i => PacketBuffer.writePlayerInput i b) new_buffer
                      [input_W 0; input_W 1; input_W 2] in
  let h' := Host.handlePacket header buffer example_addr F32.zero host_with_player in
  decoded_inputs 3 buffer = [input_W 0; input_W 1; input_W 2] /\
  Host.players_ h' = Host.players_ host_with_player /\
  (Connection.pendingInputs <$> Host.connections_ h' !! 1)
  = Some [input_W 1; input_W 2].
Proof.
  intros header buffer h'.
  pose (conn := ltac:(let v := eval vm_compute in
                                (Host.findConnection example_addr host_with_player) in
                      match v with Some (_, ?c) => exact c end) : Connection).
  assert (Host.findConnection example_addr host_with_player = Some (1, conn)) as Hf
    by (vm_compute; reflexivity).
  assert (Connection.state conn = CONNECTED) as Hc by reflexivity.
  destruct (input_packet_queues_fresh header buffer example_addr F32.zero host_with_player
              1 conn Hf Hc eq_refl)
    as (Eh & _ & Hdec & _ & _ & _ & _ & Hp & _).
  split.
  { apply (Hdec [input_W 0; input_W 1; input_W 2] []).
    - repeat constructor; vm_compute; congruence.
    - reflexivity.
    - vm_compute. split; [lia | eexists; reflexivity]. }
  split; [exact Hp |].
  subst h'. rewrite Eh.
  cbn [Host.connections_ apply_update constant].
  rewrite lookup_insert_eq. vm_compute. reflexivity.
Defined.

(** * The update loop of the host *)

Lemma createPlayer_accumulator (fromAddr : sockaddr_in) (now : float) (h : Host) :
  Host.tickAccumulator_ (Host.createPlayer fromAddr now h) = Host.tickAccumulator_ h.
Proof.
  unfold Host.createPlayer. cbv zeta.
  rewrite sendConnectAccept_spec. cbv iota.
  rewrite sendWorldSnapshot_spec. cbv iota.
  erewrite (broadcastEntityCreate_spec _ (Host.spawn (Host.nextPlayerId_ h))).
  2:{ destruct h as [run tick next tacc sacc conns players clk snt evs].
      cbn [Host.running_ Host.currentTick_ Host.nextPlayerId_ Host.tickAccumulator_
           Host.snapshotAccumulator_ Host.connections_ Host.players_ Host.clock Host.sent
           Host.events apply_update constant]. apply lookup_insert_eq. }
  destruct h. reflexivity.
Qed.

Lemma handlePacket_accumulator (header : PacketHeader) (buffer : PacketBuffer)
    (fromAddr : sockaddr_in) (now : float) (h : Host) :
  Host.tickAccumulator_ (Host.handlePacket header buffer fromAddr now h)
  = Host.tickAccumulator_ h.
Proof.
  unfold Host.handlePacket.
  destruct (PacketHeader.type header =? PacketType.CONNECT_REQUEST).
  { unfold Host.handleConnectRequest.
    destruct (Host.findConnection fromAddr h) as [[k existing] |];
      [| apply createPlayer_accumulator].
    destruct (decide (Connection.state existing = CONNECTED));
      [| apply createPlayer_accumulator].
    rewrite sendConnectAccept_spec. destruct h. reflexivity. }
  destruct (PacketHeader.type header =? PacketType.DISCONNECT).
  { destruct (Host.findConnection fromAddr h) as [[k conn] |]; [| reflexivity].
    unfold Host.handleDisconnect. rewrite broadcastEntityDestroy_spec.
    destruct h. reflexivity. }
  destruct ((PacketHeader.type header =? PacketType.HEARTBEAT)
            || (PacketHeader.type header =? PacketType.ACK)).
  { destruct (Host.findConnection fromAddr h) as [[k conn] |]; [| reflexivity].
    destruct h. reflexivity. }
  destruct (PacketHeader.type header =? PacketType.INPUT); [| reflexivity].
  destruct (Host.findConnection fromAddr h) as [[k conn] |]; [| reflexivity].
  destruct (decide (Connection.state conn = CONNECTED)); [| reflexivity].
  destruct (Host.handleInput _ buffer (PacketHeader.payloadSize header)) as [conn' b'].
  destruct h. reflexivity.
Qed.

Lemma receiveLoop_accumulator (now : float) (queue : list (sockaddr_in * list Z))
    (buffer : PacketBuffer) (h : Host) :
  Host.tickAccumulator_ (Host.receiveLoop now queue buffer h) = Host.tickAccumulator_ h.
Proof.
  revert buffer h. induction queue as [| [fromAddr dgram] queue IH]; intros buffer h;
    [reflexivity |].
  cbn [Host.receiveLoop].
  destruct (length dgram =? 0)%nat; [reflexivity |].
  destruct (PacketBuffer.readHeader (recv_into dgram buffer)) as [header b'].
  destruct (negb (PacketHeader.isValid header)); rewrite IH; [reflexivity |].
  apply handlePacket_accumulator.
Qed.

Lemma checkTimeouts_accumulator (now : float) (h : Host) :
  Host.tickAccumulator_ (Host.checkTimeouts now h) = Host.tickAccumulator_ h.
Proof.
  unfold Host.checkTimeouts.
  generalize (map fst (List.filter (fun kv => Host.timedOut now kv.2)
                                   (map_to_list (Host.connections_ h)))).
  intros l. revert h. induction l as [| id l IH]; intros h; [reflexivity |].
  cbn [foldl]. rewrite IH, removePlayer_spec. destruct h. reflexivity.
Qed.

Lemma tickLoop_absorbed (L : Libm) (a : float) :
  F32.leb TICK_INTERVAL a = true -> F32.sub a TICK_INTERVAL = a ->
  forall (fuel : nat) (h : Host),
    Host.tickAccumulator_ h = a -> Host.tickLoop fuel h = None.
Proof.
  intros Hle Hsub. induction fuel as [| fuel IH]; intros h Ha.
  - cbn [Host.tickLoop]. rewrite Ha, Hle. reflexivity.
  - cbn [Host.tickLoop]. rewrite Ha, Hle. apply IH.
    destruct (processTick_effects L h) as (_ & _ & _ & _ & _ & _ & Hacc).
    destruct (Host.processTick h). cbn in *. rewrite Hacc, Ha. exact Hsub.
Qed.

(** X24.  [Host::update] does not return when the tick accumulator is
    so large that subtracting [TICK_INTERVAL] from it leaves it
    unchanged in binary32 (2^20 seconds is such a value, and so is
    infinity): the [while (tickAccumulator_ >= TICK_INTERVAL)] loop then
    runs [processTick] for ever.  Receiving packets and checking
    timeouts do not change the accumulator, so the frame time passed to
    [update] alone decides it. *)
Theorem update_never_returns (L : Libm) (deltaTime : float)
    (queue : list (sockaddr_in * list Z)) (h : Host) :
  Host.running_ h = true ->
  let a := F32.add (Host.tickAccumulator_ h) deltaTime in
  F32.leb TICK_INTERVAL a = true -> F32.sub a TICK_INTERVAL = a ->
  forall fuel, Host.update fuel deltaTime queue h = None.
Proof.
  intros Hrun a Hle Hsub fuel. unfold Host.update. rewrite Hrun. cbn [negb].
  rewrite (tickLoop_absorbed L a Hle Hsub); [reflexivity |].
  subst a. unfold Host.receivePackets, Host.getTime.
  set (h1 := Host.checkTimeouts _ _).
  assert (Host.tickAccumulator_ h1 = Host.tickAccumulator_ h) as E.
  { subst h1. rewrite checkTimeouts_accumulator. apply receiveLoop_accumulator. }
  destruct h1. cbn in *. rewrite E. reflexivity.
Qed.

Lemma update_never_returns_witness :
  @Host.update example_libm 1000 (F32.of_Z 1048576) [] new_host = None.
Proof.
  apply (update_never_returns example_libm (F32.of_Z 1048576) [] new_host);
    vm_compute; reflexivity.
Defined.



(** * Further properties of the client *)

Lemma history_inv_ext (c c' : Client) :
  client_history c' = client_history c -> history_inv c -> history_inv c'.
Proof.
  unfold client_history, history_inv. intros [= Hh Hs]. rewrite Hh, Hs. trivial.
Qed.

Lemma updateAcks_history (header : PacketHeader) (c : Client) :
  client_history (Client.updateAcks header c) = client_history c.
Proof.
  destruct c. unfold Client.updateAcks.
  repeat match goal with |- context [if ?b then _ else _] => destruct b end;
    reflexivity.
Qed.

Lemma handleConnectAccept_history (buffer : PacketBuffer) (header : PacketHeader)
    (c : Client) :
  client_history (Client.handleConnectAccept buffer header c) = client_history c.
Proof.
  destruct c. unfold Client.handleConnectAccept.
  destruct (PacketBuffer.readU32 buffer) as [pid b1].
  destruct (PacketBuffer.readU32 b1) as [tk b2]. reflexivity.
Qed.

Lemma handleEntityCreate_history (buffer : PacketBuffer) (c : Client) :
  client_history (Client.handleEntityCreate buffer c) = client_history c.
Proof.
  destruct c. unfold Client.handleEntityCreate.
  destruct (PacketBuffer.readU32 buffer) as [eid b1].
  destruct (PacketBuffer.readU8 b1) as [ty b2].
  destruct (PacketBuffer.readVec3 b2) as [pos b3].
  destruct (ty =? 0); reflexivity.
Qed.

Lemma handleEntityDestroy_history (buffer : PacketBuffer) (c : Client) :
  client_history (Client.handleEntityDestroy buffer c) = client_history c.
Proof.
  destruct c. unfold Client.handleEntityDestroy.
  destruct (PacketBuffer.readU32 buffer) as [eid b1]. reflexivity.
Qed.

Lemma disconnect_history_inv (c : Client) : history_inv c -> history_inv (Client.disconnect c).
Proof.
  intros ((Hlen & _ & _) & _ & _).
  destruct c as [so sa cst cpid ctick cls cR cB cis clst clrt ccst crtt cloc csrv crem cint chist cclk csent cev].
  destruct chist as [inputs states hd cnt].
  unfold Client.disconnect, history_inv, history_wf, history_sorted.
  cbn [Client.state_] in *.
  destruct (decide (cst = DISCONNECTED));
    cbn [Client.inputHistory_ Client.inputSequence_ InputHistory.inputs InputHistory.head
         InputHistory.count apply_update constant] in *;
    (split; [split; [exact Hlen | split; [unfold INPUT_BUFFER_SIZE; lia | lia]] |]);
    (split; [constructor | constructor]).
Qed.

Lemma readPlayers_history_inv (L : Libm) (reconcile : bool) (n : nat)
    (buffer : PacketBuffer) (c : Client) :
  history_inv c -> history_inv (Client.readPlayers reconcile n buffer c).2.
Proof.
  revert buffer c. induction n as [| n IH]; intros buffer c Hinv; [exact Hinv |].
  cbn [Client.readPlayers].
  destruct (PacketBuffer.readPlayerState buffer) as [state b1].
  apply IH.
  destruct (PlayerState.playerId state =? Client.playerId_ c);
    [destruct reconcile |].
  - apply reconcileState_keeps_order. exact Hinv.
  - apply (history_inv_ext c); [destruct c; reflexivity | exact Hinv].
  - apply (history_inv_ext c); [destruct c; reflexivity | exact Hinv].
Qed.

Lemma readEntities_history (n : nat) (buffer : PacketBuffer) (c : Client) :
  client_history (Client.readEntities n buffer c).2 = client_history c.
Proof.
  revert buffer c. induction n as [| n IH]; intros buffer c; [reflexivity |].
  cbn [Client.readEntities].
  destruct (PacketBuffer.readEntityState buffer) as [entity b1].
  rewrite IH. destruct c; reflexivity.
Qed.

Lemma handlePacket_history_inv (L : Libm) (header : PacketHeader) (buffer : PacketBuffer)
    (now : float) (c : Client) :
  history_inv c -> history_inv (Client.handlePacket header buffer now c).
Proof.
  intros Hinv. unfold Client.handlePacket.
  set (c1 := Client.updateAcks header (c{{ Client.lastReceiveTime_ := now }})).
  assert (history_inv c1) as H1.
  { apply (history_inv_ext c); [| exact Hinv]. subst c1.
    rewrite updateAcks_history. destruct c; reflexivity. }
  repeat match goal with |- context [if ?b then _ else _] => destruct b end;
    try exact H1; try (apply disconnect_history_inv; exact H1).
  - apply (history_inv_ext c1); [apply handleConnectAccept_history | exact H1].
  - unfold Client.handleStateUpdate.
    destruct (PacketBuffer.readU8 buffer) as [n b1].
    apply readPlayers_history_inv.
    apply (history_inv_ext c1); [destruct c1; reflexivity | exact H1].
  - unfold Client.handleWorldSnapshot.
    destruct (PacketBuffer.readU8 buffer) as [n b1].
    pose proof (readPlayers_history_inv L false (Z.to_nat n) b1 c1 H1) as H2.
    destruct (Client.readPlayers false (Z.to_nat n) b1 c1) as [b2 c2].
    destruct (PacketBuffer.readU8 b2) as [m b3].
    apply (history_inv_ext c2); [apply readEntities_history | exact H2].
  - apply (history_inv_ext c1); [apply handleEntityCreate_history | exact H1].
  - apply (history_inv_ext c1); [apply handleEntityDestroy_history | exact H1].
Qed.

Lemma receiveLoop_history_inv (L : Libm) (now : float) (queue : list (list Z))
    (buffer : PacketBuffer) (c : Client) :
  history_inv c -> history_inv (Client.receiveLoop now queue buffer c).
Proof.
  revert buffer c. induction queue as [| dgram queue IH]; intros buffer c Hinv;
    [exact Hinv |].
  cbn [Client.receiveLoop].
  destruct (negb (Client.socket_ c)); [exact Hinv |].
  destruct (length dgram =? 0)%nat; [exact Hinv |].
  destruct (PacketBuffer.readHeader (recv_into dgram buffer)) as [header b'].
  destruct (negb (PacketHeader.isValid header)); apply IH; [exact Hinv |].
  apply handlePacket_history_inv. exact Hinv.
Qed.

Lemma history_inv_new_client : history_inv new_client.
Proof.
  unfold history_inv, history_wf, history_sorted. cbn.
  repeat split; try constructor; unfold INPUT_BUFFER_SIZE; lia.
Qed.

(** X30.  The input history stays in order.  The ring is well formed,
    its inputs are in sequence order and none is numbered above
    [inputSequence_]: this holds of a new client and is kept by
    [connect], by [sendInput] (as long as the input counter does not
    wrap), by the handling of every packet, whatever its type and
    content, by [update] and by [disconnect]; so the precondition under
    which an acknowledgement removes exactly the acknowledged inputs
    always holds. *)
Theorem history_stays_ordered (L : Libm) :
  history_inv new_client /\
  (forall addr c, history_inv c -> history_inv (Client.connect addr c)) /\
  (forall input c, history_inv c ->
     0 <= Client.inputSequence_ c -> Client.inputSequence_ c + 1 < 2 ^ 32 ->
     history_inv (Client.sendInput input c)) /\
  (forall header buffer now c, history_inv c ->
     history_inv (Client.handlePacket header buffer now c)) /\
  (forall now queue c, history_inv c -> history_inv (Client.receivePackets now queue c)) /\
  (forall deltaTime queue c, history_inv c -> history_inv (Client.update deltaTime queue c)) /\
  (forall c, history_inv c -> history_inv (Client.disconnect c)).
Proof.
  split; [exact history_inv_new_client |].
  split.
  { intros addr c Hinv. apply (history_inv_ext c); [destruct c; reflexivity | exact Hinv]. }
  split; [intros input c; apply sendInput_keeps_order |].
  split; [intros header buffer now c; apply handlePacket_history_inv |].
  split; [intros now queue c; unfold Client.receivePackets;
          apply receiveLoop_history_inv |].
  split; [| exact disconnect_history_inv].
  intros deltaTime queue c Hinv. unfold Client.update.
  destruct (decide (Client.state_ c = DISCONNECTED)); [exact Hinv |].
  pose proof (receiveLoop_history_inv L (Client.getTime c) queue new_buffer c Hinv) as H1.
  unfold Client.receivePackets.
  set (c1 := Client.receiveLoop (Client.getTime c) queue new_buffer c) in *.
  repeat match goal with
         | |- context [if ?b then _ else _] => destruct b
         end;
    try exact H1; try (apply disconnect_history_inv; exact H1);
    apply (history_inv_ext c1); try exact H1; destruct c1; reflexivity.
Qed.

(** ** Remote players *)

Lemma interpolation_delay_ticks :
  F32.to_u32 (F32.div INTERPOLATION_DELAY TICK_INTERVAL) = 6.
Proof. vm_compute. reflexivity. Qed.

Lemma renderTick_eq (c : Client) :
  is_u32 (Client.serverTick_ c) ->
  Client.renderTick c
  = if 6 <? Client.serverTick_ c then Client.serverTick_ c - 6 else 0.
Proof.
  intros Ht. unfold Client.renderTick. rewrite interpolation_delay_ticks.
  destruct (Z.ltb_spec 6 (Client.serverTick_ c)); [| reflexivity].
  apply wrap32_small. unfold is_u32 in *. lia.
Qed.

Lemma getInterpolatedPlayers_lookup (c : Client) (id : Z) :
  Client.getInterpolatedPlayers c !! id
  = match Client.interpolationStates_ c !! id with
    | Some interp =>
        if id =? Client.playerId_ c then None else
        if (InterpolationState.interpolate interp (Client.renderTick c)
              PlayerState.default).1
        then Some (InterpolationState.interpolate interp (Client.renderTick c)
                     PlayerState.default).2
        else Client.remotePlayers_ c !! id
    | None => None
    end.
Proof.
  unfold Client.getInterpolatedPlayers. rewrite map_lookup_imap.
  destruct (Client.interpolationStates_ c !! id) as [interp |]; [| reflexivity].
  cbn [mbind option_bind].
  destruct (id =? Client.playerId_ c); [reflexivity |].
  destruct (InterpolationState.interpolate interp (Client.renderTick c) PlayerState.default)
    as [[|] r]; reflexivity.
Qed.

(** X29.  What [getInterpolatedPlayers] reports.  Remote players are
    rendered 6 ticks behind the server tick (0.1 s at 60 ticks per
    second; tick 0 while the server tick is 6 or less).  The local
    player is never reported, nor is a player that has no interpolation
    buffer yet; a player with fewer than two buffered states is
    reported as its latest known state; a player whose newest buffered
    state is at or before the render tick is reported at exactly that
    state; and every interpolated state has a tick at or before the
    render tick. *)
Theorem interpolated_players (c : Client) :
  is_u32 (Client.serverTick_ c) ->
  let result := Client.getInterpolatedPlayers c in
  Client.renderTick c
  = (if 6 <? Client.serverTick_ c then Client.serverTick_ c - 6 else 0) /\
  result !! Client.playerId_ c = None /\
  (forall id, Client.interpolationStates_ c !! id = None -> result !! id = None) /\
  (forall id interp, id <> Client.playerId_ c ->
     Client.interpolationStates_ c !! id = Some interp ->
     InterpolationState.count interp < 2 ->
     result !! id = Client.remotePlayers_ c !! id) /\
  (forall id interp, id <> Client.playerId_ c ->
     Client.interpolationStates_ c !! id = Some interp ->
     2 <= InterpolationState.count interp ->
     PlayerState.tick (InterpolationState.newest interp) <= Client.renderTick c ->
     result !! id = Some (InterpolationState.newest interp)) /\
  (forall id s, result !! id = Some s ->
     PlayerState.tick s <= Client.renderTick c \/ Client.remotePlayers_ c !! id = Some s).
Proof.
  intros Ht result. subst result.
  split; [apply renderTick_eq; exact Ht |].
  split.
  { rewrite getInterpolatedPlayers_lookup.
    destruct (Client.interpolationStates_ c !! Client.playerId_ c); [| reflexivity].
    rewrite Z.eqb_refl. reflexivity. }
  split.
  { intros id Hn. rewrite getInterpolatedPlayers_lookup, Hn. reflexivity. }
  split.
  { intros id interp Hne Hi Hc. rewrite getInterpolatedPlayers_lookup, Hi.
    destruct (Z.eqb_spec id (Client.playerId_ c)); [contradiction |].
    rewrite (interpolate_few _ _ _ Hc). reflexivity. }
  split.
  { intros id interp Hne Hi Hc Hn. rewrite getInterpolatedPlayers_lookup, Hi.
    destruct (Z.eqb_spec id (Client.playerId_ c)); [contradiction |].
    rewrite (interpolate_newest _ _ _ Hc Hn). reflexivity. }
  intros id s. rewrite getInterpolatedPlayers_lookup.
  destruct (Client.interpolationStates_ c !! id) as [interp |]; [| discriminate].
  destruct (id =? Client.playerId_ c); [discriminate |].
  destruct (InterpolationState.interpolate interp (Client.renderTick c) PlayerState.default)
    as [[|] r] eqn:Ei; cbn [fst snd].
  - intros [= <-]. left. exact (interpolate_true_tick _ _ _ _ Ei).
  - intros Hs. right. exact Hs.
Qed.

Lemma interpolated_players_witness :
  let c := Client.storeRemote (state_at 110 10)
             (Client.storeRemote (state_at 100 0) (connected_client 7 200)) in
  Client.renderTick c = 194 /\
  Client.getInterpolatedPlayers c !! 1 = Some (state_at 110 10).
Proof.
  intros c.
  assert (is_u32 (Client.serverTick_ c)) as Ht by in_range.
  destruct (interpolated_players c Ht) as (Hr & _ & _ & _ & Hfreeze & _).
  split; [exact Hr |].
  assert (exists interp, Client.interpolationStates_ c !! 1 = Some interp /\
                         InterpolationState.newest interp = state_at 110 10 /\
                         InterpolationState.count interp = 2) as (interp & Hi & Hn & Hc).
  { eexists. split; [vm_compute; reflexivity |]. split; vm_compute; reflexivity. }
  rewrite (Hfreeze 1 interp ltac:(discriminate) Hi).
  - rewrite Hn. reflexivity.
  - rewrite Hc. discriminate.
  - rewrite Hn, Hr. discriminate.
Defined.

(** X28.  Entity packets on the client.  ENTITY_DESTROY forgets the
    entity: its state and its interpolation buffer are erased, it is no
    longer reported for rendering, and the other players are left alone.
    ENTITY_CREATE of type 0 stores a player at the given position but
    does not give it an interpolation buffer, so a player that has none
    is not reported for rendering until a state of it arrives;
    ENTITY_CREATE of another type stores nothing.  Both call their
    callback once. *)
Theorem entity_packets (buffer : PacketBuffer) (c : Client) :
  let id := (PacketBuffer.readU32 buffer).1 in
  let type := (PacketBuffer.readU8 (PacketBuffer.readU32 buffer).2).1 in
  let pos := (PacketBuffer.readVec3
                (PacketBuffer.readU8 (PacketBuffer.readU32 buffer).2).2).1 in
  (let c' := Client.handleEntityDestroy buffer c in
   Client.remotePlayers_ c' = delete id (Client.remotePlayers_ c) /\
   Client.interpolationStates_ c' = delete id (Client.interpolationStates_ c) /\
   Client.getInterpolatedPlayers c' !! id = None /\
   Client.events c' = Client.events c ++ [Client.EntityDestroyed id] /\
   Client.playerId_ c' = Client.playerId_ c /\ Client.state_ c' = Client.state_ c) /\
  (let c' := Client.handleEntityCreate buffer c in
   Client.interpolationStates_ c' = Client.interpolationStates_ c /\
   Client.remotePlayers_ c'
   = (if type =? 0
      then <[id := PlayerState.default{{ PlayerState.playerId := id;
                                         PlayerState.position := pos }}]>
             (Client.remotePlayers_ c)
      else Client.remotePlayers_ c) /\
   (Client.interpolationStates_ c !! id = None ->
    Client.getInterpolatedPlayers c' !! id = None) /\
   Client.events c' = Client.events c ++ [Client.EntityCreated id type pos] /\
   Client.playerId_ c' = Client.playerId_ c /\ Client.state_ c' = Client.state_ c).
Proof.
  intros id type pos. subst id type pos. split.
  - intros c'. subst c'.
    assert (Client.interpolationStates_ (Client.handleEntityDestroy buffer c)
            = delete (PacketBuffer.readU32 buffer).1 (Client.interpolationStates_ c)) as Hi.
    { unfold Client.handleEntityDestroy.
      destruct (PacketBuffer.readU32 buffer) as [eid b1]. destruct c. reflexivity. }
    split; [| split; [exact Hi | split]].
    + unfold Client.handleEntityDestroy.
      destruct (PacketBuffer.readU32 buffer) as [eid b1]. destruct c. reflexivity.
    + rewrite getInterpolatedPlayers_lookup, Hi, lookup_delete_eq. reflexivity.
    + unfold Client.handleEntityDestroy.
      destruct (PacketBuffer.readU32 buffer) as [eid b1]. destruct c.
      repeat split; reflexivity.
  - intros c'. subst c'.
    assert (Client.interpolationStates_ (Client.handleEntityCreate buffer c)
            = Client.interpolationStates_ c) as Hi.
    { unfold Client.handleEntityCreate.
      destruct (PacketBuffer.readU32 buffer) as [eid b1]. cbn [fst snd].
      destruct (PacketBuffer.readU8 b1) as [ty b2]. cbn [fst snd].
      destruct (PacketBuffer.readVec3 b2) as [p b3]. cbn [fst snd].
      destruct c. destruct (ty =? 0); reflexivity. }
    split; [exact Hi |]. split; [| split].
    + unfold Client.handleEntityCreate.
      destruct (PacketBuffer.readU32 buffer) as [eid b1]. cbn [fst snd].
      destruct (PacketBuffer.readU8 b1) as [ty b2]. cbn [fst snd].
      destruct (PacketBuffer.readVec3 b2) as [p b3]. cbn [fst snd].
      destruct c. cbn [fst snd]. destruct (ty =? 0); reflexivity.
    + intros Hn. rewrite getInterpolatedPlayers_lookup, Hi, Hn. reflexivity.
    + unfold Client.handleEntityCreate.
      destruct (PacketBuffer.readU32 buffer) as [eid b1]. cbn [fst snd].
      destruct (PacketBuffer.readU8 b1) as [ty b2]. cbn [fst snd].
      destruct (PacketBuffer.readVec3 b2) as [p b3]. cbn [fst snd].
      destruct c. cbn [fst snd]. destruct (ty =? 0); repeat split; reflexivity.
Qed.

(** ** Leaving *)

Lemma disconnect_disconnected (c : Client) :
  Client.state_ c = DISCONNECTED ->
  Client.disconnect c
  = c{{ Client.socket_ := false;
        Client.remotePlayers_ := ∅;
        Client.interpolationStates_ := ∅;
        Client.inputHistory_ := (Client.inputHistory_ c){{ InputHistory.count := 0%nat;
                                                           InputHistory.head := 0%nat }} }}.
Proof.
  intros Hs. unfold Client.disconnect.
  destruct (decide (Client.state_ c = DISCONNECTED)) as [_ | E]; [| contradiction].
  destruct c. reflexivity.
Qed.

Lemma disconnect_twice (c : Client) :
  Client.disconnect (Client.disconnect c) = Client.disconnect c.
Proof.
  assert (Client.state_ (Client.disconnect c) = DISCONNECTED) as Hs.
  { unfold Client.disconnect.
    destruct (decide (Client.state_ c = DISCONNECTED)) as [E | E]; destruct c;
      [exact E | reflexivity]. }
  rewrite (disconnect_disconnected _ Hs).
  unfold Client.disconnect.
  destruct (decide (Client.state_ c = DISCONNECTED)); destruct c;
    destruct inputHistory_; reflexivity.
Qed.

(** X26.  [disconnect] is final and idempotent.  Afterwards the client
    is DISCONNECTED with its socket closed, it knows no remote player
    and reports none for rendering, and its input history is empty;
    [sendInput], [update], [receivePackets] and a second [disconnect]
    then change nothing.  A client that was not DISCONNECTED sends one
    packet, the one [sendDisconnect] builds, and calls [onDisconnected]
    once; one that was sends nothing.  The acknowledgement state and the input counter are
    not reset, and [connect] does not reset them either, so a
    reconnecting client starts with those of its previous session. *)
Theorem disconnect_is_final (L : Libm) (c : Client) :
  let c' := Client.disconnect c in
  Client.state_ c' = DISCONNECTED /\ Client.socket_ c' = false /\
  Client.remotePlayers_ c' = ∅ /\ Client.interpolationStates_ c' = ∅ /\
  Client.getInterpolatedPlayers c' = ∅ /\
  InputHistory.getUnacknowledged (Client.inputHistory_ c') = [] /\
  Client.disconnect c' = c' /\
  (forall input, Client.sendInput input c' = c') /\
  (forall deltaTime queue, Client.update deltaTime queue c' = c') /\
  (forall now queue, Client.receivePackets now queue c' = c') /\
  (Client.state_ c = DISCONNECTED ->
   Client.sent c' = Client.sent c /\ Client.events c' = Client.events c) /\
  (Client.state_ c <> DISCONNECTED ->
   length (Client.sent c') = S (length (Client.sent c)) /\
   Client.events c' = Client.events c ++ [Client.Disconnected] /\
   Client.localSequence_ c' = wrap32 (Client.localSequence_ c + 1) /\
   Client.sent c' = Client.sent (Client.sendDisconnect c)) /\
  client_counters c' = client_counters c /\
  (forall addr, client_counters (Client.connect addr c') = client_counters c).
Proof.
  intros c'.
  assert (Client.state_ c' = DISCONNECTED /\ Client.socket_ c' = false /\
          Client.remotePlayers_ c' = ∅ /\ Client.interpolationStates_ c' = ∅ /\
          InputHistory.count (Client.inputHistory_ c') = 0%nat /\
          client_counters c' = client_counters c) as (Hs & Hso & Hr & Hi & Hc & Hk).
  { subst c'. destruct c. unfold Client.disconnect. cbn [Client.state_].
    match goal with |- context [decide ?P] => destruct (decide P) as [E | E] end;
      [rewrite E |]; repeat split; reflexivity. }
  split; [exact Hs |]. split; [exact Hso |]. split; [exact Hr |]. split; [exact Hi |].
  split.
  { unfold Client.getInterpolatedPlayers. rewrite Hi. apply map_imap_empty. }
  split.
  { unfold InputHistory.getUnacknowledged. rewrite Hc. reflexivity. }
  split; [apply disconnect_twice |].
  split.
  { intros input. unfold Client.sendInput. rewrite Hs.
    destruct (decide (DISCONNECTED = CONNECTED)) as [E | _]; [discriminate E | reflexivity]. }
  split.
  { intros deltaTime queue. unfold Client.update. rewrite Hs.
    destruct (decide (DISCONNECTED = DISCONNECTED)) as [_ | E]; [reflexivity | contradiction]. }
  split.
  { intros now queue. unfold Client.receivePackets.
    destruct queue as [| d queue]; [reflexivity |].
    cbn [Client.receiveLoop]. rewrite Hso. reflexivity. }
  split.
  { intros Hd. subst c'. rewrite (disconnect_disconnected c Hd). destruct c.
    split; reflexivity. }
  split.
  { intros Hd. subst c'. destruct c. cbn [Client.state_] in Hd.
    unfold Client.disconnect. cbn [Client.state_].
    match goal with |- context [decide ?P] => destruct (decide P) as [E | E] end;
      [contradiction |].
    unfold Client.sendDisconnect, Client.sendToServer.
    cbn [Client.localSequence_ Client.sent Client.events apply_update constant].
    rewrite length_app. cbn [length]. repeat split; try reflexivity. lia. }
  split; [exact Hk |].
  intros addr. rewrite <- Hk. destruct c'. reflexivity.
Qed.

(** ** The client's own state *)

Lemma reconcileState_session (L : Libm) (s : PlayerState) (c : Client) :
  client_session (Client.reconcileState s c) = client_session c /\
  Client.remotePlayers_ (Client.reconcileState s c) = Client.remotePlayers_ c /\
  Client.interpolationStates_ (Client.reconcileState s c) = Client.interpolationStates_ c.
Proof.
  destruct c. unfold Client.reconcileState.
  repeat match goal with |- context [if ?b then _ else _] => destruct b end;
    repeat split; reflexivity.
Qed.

Lemma readPlayers_own (L : Libm) (reconcile : bool) (n : nat) (buffer : PacketBuffer)
    (c : Client) :
  let c' := (Client.readPlayers reconcile n buffer c).2 in
  client_session c' = client_session c /\
  Client.remotePlayers_ c' !! Client.playerId_ c
  = Client.remotePlayers_ c !! Client.playerId_ c /\
  Client.interpolationStates_ c' !! Client.playerId_ c
  = Client.interpolationStates_ c !! Client.playerId_ c.
Proof.
  revert buffer c. induction n as [| n IH]; intros buffer c;
    [repeat split; reflexivity |].
  cbn [Client.readPlayers].
  destruct (PacketBuffer.readPlayerState buffer) as [state b1].
  match goal with
  | |- context [Client.readPlayers reconcile n b1 ?cc] => set (c1 := cc)
  end.
  assert (client_session c1 = client_session c /\
          Client.remotePlayers_ c1 !! Client.playerId_ c
          = Client.remotePlayers_ c !! Client.playerId_ c /\
          Client.interpolationStates_ c1 !! Client.playerId_ c
          = Client.interpolationStates_ c !! Client.playerId_ c) as (Hs & Hr & Hi).
  { subst c1.
    destruct (Z.eqb_spec (PlayerState.playerId state) (Client.playerId_ c)) as [E | Hne];
      [destruct reconcile |].
    - destruct (reconcileState_session L state c) as (H1 & H2 & H3).
      rewrite H1, H2, H3. repeat split; reflexivity.
    - destruct c. repeat split; reflexivity.
    - unfold Client.storeRemote. destruct c.
      cbn [Client.playerId_ Client.remotePlayers_ Client.interpolationStates_
           apply_update constant] in *.
      split; [reflexivity |].
      split; apply lookup_insert_ne; exact Hne. }
  specialize (IH b1 c1). cbv zeta in IH. destruct IH as (IHs & IHr & IHi).
  cbv zeta.
  assert (Client.playerId_ c1 = Client.playerId_ c) as Hp
    by (unfold client_session in Hs; congruence).
  rewrite Hp in IHr, IHi.
  rewrite IHs, IHr, IHi. repeat split; assumption.
Qed.

(** X27.  The client's own state never enters the table of remote
    players.  Whatever a STATE_UPDATE or a WORLD_SNAPSHOT contains, the
    states it carries for the client's own player id go to
    reconciliation (or to [localState_]) and the entries of
    [remotePlayers_] and [interpolationStates_] under the own id stay as
    they were; the player id and the connection state do not change and
    nothing is sent; a STATE_UPDATE also calls no callback and sets the
    server tick to the tick of its header. *)
Theorem own_state_is_never_remote (L : Libm) (header : PacketHeader)
    (buffer : PacketBuffer) (c : Client) :
  let own (c' : Client) :=
    Client.playerId_ c' = Client.playerId_ c /\
    Client.state_ c' = Client.state_ c /\
    Client.sent c' = Client.sent c /\
    Client.remotePlayers_ c' !! Client.playerId_ c
    = Client.remotePlayers_ c !! Client.playerId_ c /\
    Client.interpolationStates_ c' !! Client.playerId_ c
    = Client.interpolationStates_ c !! Client.playerId_ c in
  (forall reconcile n, own (Client.readPlayers reconcile n buffer c).2) /\
  (own (Client.handleStateUpdate buffer header c) /\
   Client.events (Client.handleStateUpdate buffer header c) = Client.events c /\
   Client.serverTick_ (Client.handleStateUpdate buffer header c)
   = PacketHeader.tick header) /\
  own (Client.handleWorldSnapshot buffer c).
Proof.
  intros own. subst own. cbv beta.
  assert (forall c1 c2 : Client, client_session c2 = client_session c1 ->
            Client.playerId_ c2 = Client.playerId_ c1 /\
            Client.state_ c2 = Client.state_ c1 /\
            Client.sent c2 = Client.sent c1 /\
            Client.events c2 = Client.events c1) as Hsess.
  { intros c1 c2. unfold client_session. intros [= -> -> -> ->]. repeat split. }
  split; [| split].
  - intros reconcile n.
    destruct (readPlayers_own L reconcile n buffer c) as (Hs & Hr & Hi).
    destruct (Hsess _ _ Hs) as (H1 & H2 & H3 & _).
    repeat split; assumption.
  - unfold Client.handleStateUpdate.
    destruct (PacketBuffer.readU8 buffer) as [n b1].
    set (c0 := c{{ Client.serverTick_ := PacketHeader.tick header }}).
    destruct (readPlayers_own L true (Z.to_nat n) b1 c0) as (Hs & Hr & Hi).
    destruct (Hsess _ _ Hs) as (H1 & H2 & H3 & H4).
    assert (Client.serverTick_ (Client.readPlayers true (Z.to_nat n) b1 c0).2
            = PacketHeader.tick header) as Ht.
    { clear. subst c0. generalize (Z.to_nat n). intros m.
      set (c0 := c{{ Client.serverTick_ := PacketHeader.tick header }}).
      assert (Client.serverTick_ c0 = PacketHeader.tick header) as H0
        by (subst c0; destruct c; reflexivity).
      clearbody c0. revert b1 c0 H0.
      induction m as [| m IH]; intros b1 c0 H0; [exact H0 |].
      cbn [Client.readPlayers].
      destruct (PacketBuffer.readPlayerState b1) as [state b2].
      apply IH.
      destruct (PlayerState.playerId state =? Client.playerId_ c0).
      - destruct c0. unfold Client.reconcileState.
        repeat match goal with |- context [if ?b then _ else _] => destruct b end;
          exact H0.
      - destruct c0. exact H0. }
    subst c0. destruct c.
    cbn [Client.playerId_ Client.state_ Client.sent Client.events Client.remotePlayers_
         Client.interpolationStates_ apply_update constant] in *.
    repeat split; assumption.
  - unfold Client.handleWorldSnapshot.
    destruct (PacketBuffer.readU8 buffer) as [n b1].
    destruct (readPlayers_own L false (Z.to_nat n) b1 c) as (Hs & Hr & Hi).
    destruct (Client.readPlayers false (Z.to_nat n) b1 c) as [b2 c2].
    cbn [snd] in *.
    destruct (PacketBuffer.readU8 b2) as [m b3].
    destruct (Hsess _ _ Hs) as (H1 & H2 & H3 & _).
    assert (forall k bb (cc : Client),
               let cc' := (Client.readEntities k bb cc).2 in
               Client.playerId_ cc' = Client.playerId_ cc /\
               Client.state_ cc' = Client.state_ cc /\
               Client.sent cc' = Client.sent cc /\
               Client.remotePlayers_ cc' = Client.remotePlayers_ cc /\
               Client.interpolationStates_ cc' = Client.interpolationStates_ cc) as He.
    { induction k as [| k IH]; intros bb cc; [repeat split; reflexivity |].
      cbn [Client.readEntities].
      destruct (PacketBuffer.readEntityState bb) as [entity bb'].
      specialize (IH bb' (cc{{ Client.events := Client.events cc ++
                     [Client.EntityCreated (EntityState.entityId entity)
                        (EntityState.entityType entity)
                        (EntityState.position entity)] }})).
      cbv zeta in *. destruct IH as (E1 & E2 & E3 & E4 & E5).
      rewrite E1, E2, E3, E4, E5. destruct cc. repeat split; reflexivity. }
    destruct (He (Z.to_nat m) b3 c2) as (E1 & E2 & E3 & E4 & E5).
    rewrite E1, E2, E3, E4, E5. repeat split; assumption.
Qed.
